(** * Parts catalogue: a shallow embedding of the TypeScript sources

    The development follows the layout of the repository:

    - [JS]           the few ECMAScript built-ins the code relies on
                     ([Array.prototype.sort], [slice], [includes], the
                     order of the properties of an object, ...);
    - [Types]        [src/types/index.ts];
    - [Catalogue]    [src/pages/parts-catalogue.tsx]: filter, sort, pages;
    - [Summary]      [src/pages/parts-summary.tsx]: sort by column, pages;
    - [Application]  the part application page: validation and ticket ids;
    - [Firebase]     [src/services/firebase.ts]: the data access layer,
                     written in a small monad of requests that can fail;
    - [Admin]        [src/pages/admin.tsx]: the save handler;
    - [PDF]          [src/services/pdf.ts]: the export as the sequence of
                     items it draws;
    - [Navigation], [Options], [Dashboard]
                     the page buttons, the supplier options and the
                     margin counters of the list pages;
    - [AdminList]    [src/pages/admin.tsx]: the list of the page;
    - [ImageFallback]
                     [src/components/ui/image-with-fallback.tsx] and the
                     image addresses of the service;
    - [Bom]          [getBoMComponents] and the BoM reference page;
    - [PartRecords], [Download], [PdfLayout], [Loading]
                     reading a part record, downloading a ticket, the page
                     breaks of the export, the load effects of the pages;
    - [Samples]      concrete data;

    followed by the properties.

    JavaScript numbers are modelled as integers ([Z]): stock quantities
    are counts and prices are taken in minor units; lengths on the PDF
    page are rationals ([Q]).  A property that is [undefined] (an optional
    field that is absent) is [None].  What the code takes from its host
    or from a library and does not define (the locale's collation, case
    conversion, the database's key generation, the enumeration of the
    value of a snapshot, the text metrics of the PDF library, the loading
    of an image) is a variable of the section that uses it.  In an object
    of the admin page, a property whose value is [undefined] is the value
    [JS.JUndefined]. *)

From Stdlib Require Import ZArith QArith Qround Lia Lqa OrdersEx DecimalString DecimalNat.
From stdpp Require Import gmap strings list fin_maps sorting.

Local Open Scope string_scope.
Local Open Scope list_scope.
Local Open Scope Z_scope.

(* ===================================================================== *)
(** * ECMAScript built-ins *)
(* ===================================================================== *)

Module JS.

(** [x || 0] on an optional number: [undefined] and [0] both give [0]. *)
Definition orZero (x : option Z) : Z :=
  match x with
  | Some n => n
  | None => 0
  end.

(** [s || ''] on an optional string. *)
Definition orEmpty (s : option string) : string :=
  match s with
  | Some s => s
  | None => ""
  end.

(** A property value read from an untyped object: a number, a string,
    or [undefined]. *)
Inductive JsVal : Type :=
| JUndefined
| JNum (n : Z)
| JStr (s : string).

(** Truthiness of a string: only the empty string is falsy. *)
Definition truthy (s : string) : bool :=
  match s with
  | EmptyString => false
  | String _ _ => true
  end.

(** ** [Array.prototype.sort]

    ECMAScript requires the sort to be stable; for a consistent
    comparator the result is then uniquely determined, and it is the
    one computed by a stable insertion sort.  The comparator returns a
    number: negative, zero or positive. *)
Section Sort.
Context {A : Type}.
Variable cmp : A -> A -> Z.

Fixpoint insert (x : A) (l : list A) : list A :=
  match l with
  | [] => [x]
  | y :: l' => if cmp x y <=? 0 then x :: l else y :: insert x l'
  end.

Definition sort (l : list A) : list A := foldr insert [] l.

(** [x] may come before [y] in a list sorted with [cmp]. *)
Definition cmp_le (x y : A) : Prop := cmp x y <= 0.
End Sort.

(** ** [Array.prototype.slice(start, end)]

    Negative indices count from the end and both indices are clamped
    to the length of the array. *)
Definition relativeIndex (len i : Z) : Z :=
  if i <? 0 then Z.max (len + i) 0 else Z.min i len.

Definition slice {A : Type} (start end_ : Z) (l : list A) : list A :=
  let len := Z.of_nat (length l) in
  let k := relativeIndex len start in
  let final := relativeIndex len end_ in
  take (Z.to_nat (final - k)) (drop (Z.to_nat k) l).

(** [s.includes(t)]: [t] occurs in [s] as a contiguous substring. *)
Fixpoint includes (s t : string) : bool :=
  String.prefix t s ||
  match s with
  | EmptyString => false
  | String _ s' => includes s' t
  end.

(** [Math.ceil(a / b)] on integers, computed over the rationals. *)
Definition ceilDiv (a b : Z) : Z := Qceiling (inject_Z a / inject_Z b).

Definition isUndefined (v : JsVal) : bool :=
  match v with
  | JUndefined => true
  | _ => false
  end.

(** ** The order of the properties of an object

    An object is given by its properties in the order of their
    creation.  [Object.entries] lists first the properties whose key is
    an array index, in ascending numeric order, then the other ones in
    the order of their creation.  A key is an array index when it is the
    decimal writing, without a sign or a leading zero, of an integer
    below [2^32 - 1]. *)
Definition arrayIndex (key : string) : option Z :=
  match NilEmpty.uint_of_string key with
  | Some digits =>
      let n := N.of_uint digits in
      if String.eqb (NilEmpty.string_of_uint (N.to_uint n)) key
         && (Z.of_N n <? 2 ^ 32 - 1)
      then Some (Z.of_N n)
      else None
  | None => None
  end.

Definition isArrayIndex (key : string) : bool :=
  match arrayIndex key with
  | Some _ => true
  | None => false
  end.

(** [obj[key] = value]: a property that exists keeps its place. *)
Fixpoint setProperty {A : Type} (key : string) (value : A)
    (obj : list (string * A)) : list (string * A) :=
  match obj with
  | [] => [(key, value)]
  | (k, v) :: rest =>
      if String.eqb k key then (key, value) :: rest
      else (k, v) :: setProperty key value rest
  end.

(** [Object.fromEntries(pairs)]. *)
Definition fromEntries {A : Type} (pairs : list (string * A)) : list (string * A) :=
  foldl (fun obj pair => setProperty pair.1 pair.2 obj) [] pairs.

(** [Object.entries(obj)]. *)
Definition entries {A : Type} (obj : list (string * A)) : list (string * A) :=
  sort (fun a b => orZero (arrayIndex a.1) - orZero (arrayIndex b.1))
    (List.filter (fun property => isArrayIndex property.1) obj)
  ++ List.filter (fun property => negb (isArrayIndex property.1)) obj.

End JS.

(* ===================================================================== *)
(** * [src/types/index.ts] *)
(* ===================================================================== *)

Module Types.

(** [interface Part]: every property is optional. *)
Record Part : Type := mkPart {
  Material : option string;
  SPRAS_EN : option string;
  Standard_Price : option Z;
  Current_Stock_Qty : option Z;
  Sales_Qty_PGI_2025 : option Z;
  Sales_Qty_SO_2025 : option Z;
  Invoice_Amount_2025 : option Z;
  Invoice_Currency : option string;
  Sales_Currency : option string;
  Sales_Unit : option string;
  Dealer_Price : option Z;
  Customer_Price : option Z;
  Dealer_vs_Std : option Z;
  Customer_vs_Std : option Z;
  Purchase_Qty_2025_to_Date : option Z;
  Supplier_Name : option string;
  notes : option string;
  year : option string;
  obsoleted_date : option string;
  alternative_parts : option string
}.

(** A part with no property set. *)
Definition emptyPart : Part :=
  mkPart None None None None None None None None None None
         None None None None None None None None None None.

Inductive Urgency : Type := Low | Medium | High.
Inductive Status : Type := Pending | Approved | Rejected.

(** [interface PartApplication]. *)
Record PartApplication : Type := mkPartApplication {
  ticket_id : string;
  supplier_name : string;
  part_description : string;
  part_number : string;
  requested_by : string;
  department : string;
  urgency : Urgency;
  technical_specs : string;
  application_notes : string;
  estimated_cost : Z;
  justification : string;
  image_url : option string;
  status : Status;
  created_at : Z
}.

(** The same application without its [image_url]. *)
Definition withoutImage (a : PartApplication) : PartApplication :=
  mkPartApplication (ticket_id a) (supplier_name a) (part_description a)
    (part_number a) (requested_by a) (department a) (urgency a)
    (technical_specs a) (application_notes a) (estimated_cost a)
    (justification a) None (status a) (created_at a).

(** [Omit<PartApplication, 'ticket_id' | 'created_at'>]. *)
Module Draft.
Record t : Type := mk {
  supplier_name : string;
  part_description : string;
  part_number : string;
  requested_by : string;
  department : string;
  urgency : Urgency;
  technical_specs : string;
  application_notes : string;
  estimated_cost : Z;
  justification : string;
  image_url : option string;
  status : Status
}.
End Draft.

(** [Object.entries(allParts)]: the part codes with their records, in
    the enumeration order of the object. *)
Definition Entries : Type := list (string * Part).

End Types.

(* ===================================================================== *)
(** * [src/pages/parts-catalogue.tsx] *)
(* ===================================================================== *)

Module Catalogue.
Import Types.

(** The four entries of the "Sort By" select; ['material'] is the
    initial value and the [default] branch of the comparator. *)
Inductive SortBy : Type := ByMaterial | ByPrice | ByStock | BySupplier.

Definition itemsPerPage : Z := 50.

(** The callback of [Object.entries(allParts).filter(...)]. *)
Definition matchesSupplier (selectedSupplier : string) (part : Part) : bool :=
  bool_decide (selectedSupplier = "all")
  || bool_decide (Supplier_Name part = Some selectedSupplier).

Definition matchesStock (showInStockOnly : bool) (part : Part) : bool :=
  negb showInStockOnly || (0 <? JS.orZero (Current_Stock_Qty part)).

Definition passes (selectedSupplier : string) (showInStockOnly : bool)
    (entry : string * Part) : bool :=
  matchesSupplier selectedSupplier entry.2 && matchesStock showInStockOnly entry.2.

Definition filtered (selectedSupplier : string) (showInStockOnly : bool)
    (allParts : Entries) : Entries :=
  List.filter (passes selectedSupplier showInStockOnly) allParts.

(** The two conditions of the callback, read on the part record. *)
Definition supplierOk (s : string) (part : Part) : Prop :=
  s = "all" \/ Supplier_Name part = Some s.

Definition inStock (part : Part) : Prop :=
  exists q, Current_Stock_Qty part = Some q /\ 0 < q.

Section Sorting.
(** [String.prototype.localeCompare]: the collation of the host's
    locale, a parameter of the development. *)
Variable localeCompare : string -> string -> Z.

(** The comparator passed to [filtered.sort]. *)
Definition compareEntries (sortBy : SortBy) (a b : string * Part) : Z :=
  match sortBy with
  | ByPrice => JS.orZero (Standard_Price a.2) - JS.orZero (Standard_Price b.2)
  | ByStock => JS.orZero (Current_Stock_Qty b.2) - JS.orZero (Current_Stock_Qty a.2)
  | BySupplier =>
      localeCompare (JS.orEmpty (Supplier_Name a.2)) (JS.orEmpty (Supplier_Name b.2))
  | ByMaterial => localeCompare a.1 b.1
  end.

Definition filteredAndSortedParts (selectedSupplier : string) (sortBy : SortBy)
    (showInStockOnly : bool) (allParts : Entries) : Entries :=
  JS.sort (compareEntries sortBy) (filtered selectedSupplier showInStockOnly allParts).
End Sorting.

(** The pagination effect: its local [paginatedParts], the slice of
    [currentPage], and the page count. *)
Definition paginatedParts {A : Type} (l : list A) (currentPage : Z) : list A :=
  let startIndex := (currentPage - 1) * itemsPerPage in
  let endIndex := startIndex + itemsPerPage in
  JS.slice startIndex endIndex l.

Definition totalPages {A : Type} (l : list A) : Z :=
  JS.ceilDiv (Z.of_nat (length l)) itemsPerPage.

(** What the page shows: the effect stores the slice as an object,
    [setDisplayedParts(Object.fromEntries(paginatedParts))], and the cards
    are drawn from [Object.entries(displayedParts)]. *)
Definition displayedParts (l : Entries) (currentPage : Z) : Entries :=
  JS.entries (JS.fromEntries (paginatedParts l currentPage)).

End Catalogue.

(* ===================================================================== *)
(** * [src/pages/parts-summary.tsx] *)
(* ===================================================================== *)

Module Summary.
Import Types.

(** The value of a property read with [a[sortField]]. *)
Definition ofNum (x : option Z) : JS.JsVal :=
  match x with Some n => JS.JNum n | None => JS.JUndefined end.

Definition ofStr (x : option string) : JS.JsVal :=
  match x with Some s => JS.JStr s | None => JS.JUndefined end.

(** [keyof PartSummaryData]. *)
Inductive Field : Type :=
| FMaterial | FSPRAS_EN | FStandard_Price | FCurrent_Stock_Qty
| FSales_Qty_PGI_2025 | FSales_Qty_SO_2025 | FInvoice_Amount_2025
| FInvoice_Currency | FSales_Currency | FSales_Unit | FDealer_Price
| FCustomer_Price | FDealer_vs_Std | FCustomer_vs_Std
| FPurchase_Qty_2025_to_Date | FSupplier_Name.

Inductive SortDirection : Type := Asc | Desc.

(** The rows are built as [{...part, Material: material}] and cast to
    [PartSummaryData]: a row is a part whose [Material] is set, and any
    other property can still be missing at run time. *)
Definition toRow (entry : string * Part) : Part :=
  let part := entry.2 in
  mkPart (Some entry.1) (SPRAS_EN part) (Standard_Price part)
    (Current_Stock_Qty part) (Sales_Qty_PGI_2025 part) (Sales_Qty_SO_2025 part)
    (Invoice_Amount_2025 part) (Invoice_Currency part) (Sales_Currency part)
    (Sales_Unit part) (Dealer_Price part) (Customer_Price part)
    (Dealer_vs_Std part) (Customer_vs_Std part) (Purchase_Qty_2025_to_Date part)
    (Supplier_Name part) (notes part) (year part) (obsoleted_date part)
    (alternative_parts part).

Definition partsArray (partsData : Entries) : list Part := map toRow partsData.

Definition getField (f : Field) (a : Part) : JS.JsVal :=
  match f with
  | FMaterial => ofStr (Material a)
  | FSPRAS_EN => ofStr (SPRAS_EN a)
  | FStandard_Price => ofNum (Standard_Price a)
  | FCurrent_Stock_Qty => ofNum (Current_Stock_Qty a)
  | FSales_Qty_PGI_2025 => ofNum (Sales_Qty_PGI_2025 a)
  | FSales_Qty_SO_2025 => ofNum (Sales_Qty_SO_2025 a)
  | FInvoice_Amount_2025 => ofNum (Invoice_Amount_2025 a)
  | FInvoice_Currency => ofStr (Invoice_Currency a)
  | FSales_Currency => ofStr (Sales_Currency a)
  | FSales_Unit => ofStr (Sales_Unit a)
  | FDealer_Price => ofNum (Dealer_Price a)
  | FCustomer_Price => ofNum (Customer_Price a)
  | FDealer_vs_Std => ofNum (Dealer_vs_Std a)
  | FCustomer_vs_Std => ofNum (Customer_vs_Std a)
  | FPurchase_Qty_2025_to_Date => ofNum (Purchase_Qty_2025_to_Date a)
  | FSupplier_Name => ofStr (Supplier_Name a)
  end.

(** [v || 0]: [undefined], [0] and the empty string are falsy. *)
Definition orZeroVal (v : JS.JsVal) : JS.JsVal :=
  match v with
  | JS.JUndefined => JS.JNum 0
  | JS.JNum n => JS.JNum n
  | JS.JStr EmptyString => JS.JNum 0
  | JS.JStr s => JS.JStr s
  end.

Definition itemsPerPage : Z := 50.

Section Pipeline.
Variable localeCompare : string -> string -> Z.
Variable toLowerCase : string -> string.
(** [Number(s)] on a string: [None] stands for [NaN]. *)
Variable Number_of_string : string -> option Z.

(** [Number(v) || 0]. *)
Definition toNum (v : JS.JsVal) : Z :=
  match v with
  | JS.JUndefined => 0
  | JS.JNum n => n
  | JS.JStr s => JS.orZero (Number_of_string s)
  end.

(** The comparator passed to [filtered.sort]. *)
Definition compareRows (sortField : Field) (sortDirection : SortDirection)
    (a b : Part) : Z :=
  let aValue := orZeroVal (getField sortField a) in
  let bValue := orZeroVal (getField sortField b) in
  match aValue, bValue with
  | JS.JStr sa, JS.JStr sb =>
      match sortDirection with
      | Asc => localeCompare sa sb
      | Desc => localeCompare sb sa
      end
  | _, _ =>
      let aNum := toNum aValue in
      let bNum := toNum bValue in
      match sortDirection with
      | Asc => aNum - bNum
      | Desc => bNum - aNum
      end
  end.

(** [x?.toLowerCase().includes(term.toLowerCase())]. *)
Definition fieldIncludes (x : option string) (term : string) : bool :=
  match x with
  | Some s => JS.includes (toLowerCase s) (toLowerCase term)
  | None => false
  end.

Definition matchesSearch (term : string) (part : Part) : bool :=
  negb (JS.truthy term)
  || fieldIncludes (Material part) term
  || fieldIncludes (SPRAS_EN part) term
  || fieldIncludes (Supplier_Name part) term.

Definition matchesSupplier (selectedSupplier : string) (part : Part) : bool :=
  bool_decide (selectedSupplier = "all")
  || bool_decide (Supplier_Name part = Some selectedSupplier).

Definition matchesMargin (selectedMarginFilter : string) (part : Part) : bool :=
  let margin := JS.orZero (Dealer_vs_Std part) in
  bool_decide (selectedMarginFilter = "all")
  || (bool_decide (selectedMarginFilter = "positive") && (0 <? margin))
  || (bool_decide (selectedMarginFilter = "negative") && (margin <? 0))
  || (bool_decide (selectedMarginFilter = "zero") && (margin =? 0)).

Definition filteredAndSortedParts (parts : list Part) (term selectedSupplier
    selectedMarginFilter : string) (sortField : Field)
    (sortDirection : SortDirection) : list Part :=
  JS.sort (compareRows sortField sortDirection)
    (List.filter
       (fun part => matchesSearch term part
                    && matchesSupplier selectedSupplier part
                    && matchesMargin selectedMarginFilter part)
       parts).
End Pipeline.

Definition paginatedParts {A : Type} (l : list A) (currentPage : Z) : list A :=
  let startIndex := (currentPage - 1) * itemsPerPage in
  let endIndex := startIndex + itemsPerPage in
  JS.slice startIndex endIndex l.

Definition totalPages {A : Type} (l : list A) : Z :=
  JS.ceilDiv (Z.of_nat (length l)) itemsPerPage.

End Summary.

(* ===================================================================== *)
(** * The part application page ([pages/part-application]) *)
(* ===================================================================== *)

Module Application.

(** ['low' | 'medium' | 'high'] and ['pending' | 'approved' | 'rejected']
    are the literal types of [src/types/index.ts]. *)
Definition Priority : Type := Types.Urgency.
Definition Status : Type := Types.Status.
Inductive MessageType : Type := Success | Error.

(** The form state. *)
Module Form.
Record t : Type := mk {
  requestedBy : string;
  department : string;
  priority : Priority;
  quantity : string;
  specifications : string;
  supplier : string;
  estimatedCost : string;
  deliveryDate : string;
  notes : string
}.

(** The initial value of the form, also set by [resetForm]. *)
Definition empty : t := mk "" "" Types.Medium "" "" "" "" "" "".
End Form.

(** The page's own [interface PartApplication]. *)
Record PartApplication : Type := mkPartApplication {
  ticketId : string;
  requestedBy : string;
  department : string;
  priority : Priority;
  quantity : string;
  specifications : string;
  supplier : string;
  estimatedCost : string;
  deliveryDate : string;
  notes : string;
  submittedAt : string;
  status : Status
}.

(** The state of the component. *)
Record PageState : Type := mkPageState {
  isSubmitting : bool;
  applications : list PartApplication;
  message : option (MessageType * string);
  formData : Form.t
}.

Definition initialState : PageState := mkPageState false [] None Form.empty.

(** [nextNumber.toString()]: the decimal digits of a natural number. *)
Definition toString (n : nat) : string :=
  DecimalString.NilEmpty.string_of_uint (Nat.to_uint n).

(** [s.padStart(targetLength, padString)]: the pad string is repeated,
    and cut, to fill the missing length. *)
Fixpoint fill (n : nat) (padString rest : string) : string :=
  match n with
  | O => ""
  | S n' =>
      match rest with
      | String c r => String c (fill n' padString r)
      | EmptyString =>
          match padString with
          | String c r => String c (fill n' padString r)
          | EmptyString => ""
          end
      end
  end.

Definition padStart (targetLength : nat) (padString s : string) : string :=
  fill (targetLength - String.length s) padString padString ++ s.

Definition generateTicketId (applications : list PartApplication) : string :=
  let nextNumber := (length applications + 1)%nat in
  "Part" ++ padStart 2 "0" (toString nextNumber).

Definition showMessage (type : MessageType) (text : string) (st : PageState) : PageState :=
  mkPageState (isSubmitting st) (applications st) (Some (type, text)) (formData st).

Definition resetForm (st : PageState) : PageState :=
  mkPageState (isSubmitting st) (applications st) (message st) Form.empty.

Definition setIsSubmitting (b : bool) (st : PageState) : PageState :=
  mkPageState b (applications st) (message st) (formData st).

Definition setApplications (f : list PartApplication -> list PartApplication)
    (st : PageState) : PageState :=
  mkPageState (isSubmitting st) (f (applications st)) (message st) (formData st).

Definition setFormData (f : Form.t) (st : PageState) : PageState :=
  mkPageState (isSubmitting st) (applications st) (message st) f.

(** The guard of [handleSubmit]:
    [!requestedBy || !department || !quantity || !specifications]. *)
Definition missingRequired (f : Form.t) : bool :=
  negb (JS.truthy (Form.requestedBy f))
  || negb (JS.truthy (Form.department f))
  || negb (JS.truthy (Form.quantity f))
  || negb (JS.truthy (Form.specifications f)).

(** [{...formData, ticketId, submittedAt, status: 'pending'}]. *)
Definition newApplication (f : Form.t) (ticketId submittedAt : string) : PartApplication :=
  mkPartApplication ticketId (Form.requestedBy f) (Form.department f)
    (Form.priority f) (Form.quantity f) (Form.specifications f) (Form.supplier f)
    (Form.estimatedCost f) (Form.deliveryDate f) (Form.notes f) submittedAt Types.Pending.

(** [handleSubmit]; [now] is the value of [new Date().toISOString()]
    when the handler runs. *)
Definition handleSubmit (now : string) (st : PageState) : PageState :=
  let f := formData st in
  if missingRequired f then
    showMessage Error "Please fill in all required fields" st
  else
    let st := setIsSubmitting true st in
    let ticketId := generateTicketId (applications st) in
    let a := newApplication f ticketId now in
    let st := setApplications (fun prev => prev ++ [a]) st in
    let st := showMessage Success
                ("Part application " ++ ticketId ++ " submitted successfully!") st in
    let st := resetForm st in
    setIsSubmitting false st.

(** Every ticket carries the id generated from the tickets before it. *)
Definition numbered (l : list PartApplication) : Prop :=
  forall i a, l !! i = Some a -> ticketId a = generateTicketId (take i l).

(** The user fills the form and submits it, any number of times. *)
Definition submit (st : PageState) (input : Form.t * string) : PageState :=
  handleSubmit input.2 (setFormData input.1 st).

Definition run (inputs : list (Form.t * string)) (st : PageState) : PageState :=
  foldl submit st inputs.

End Application.

(* ===================================================================== *)
(** * [src/services/firebase.ts] *)
(* ===================================================================== *)

Module Firebase.
Import Types.

(** ** The remote database

    The locations the service reads and writes.  The children of
    [material_summary_2025] are kept in the order in which the database
    returns them and [Object.entries] enumerates them; a child of [Parts]
    is an untyped object, a finite map from property names to values.
    A location ['Parts/' + material] or ['PartApplications/' + ticketId]
    is the child under that key: part codes and ticket ids are taken to
    be keys (non-empty, without a slash). *)
Record Database : Type := mkDatabase {
  material_summary_2025 : Entries;
  Parts : gmap string (gmap string JS.JsVal);
  PartApplications : gmap string PartApplication
}.

(** The world a request runs in: the database, the fate of the coming
    requests ([true]: the request is rejected; past the end of the list
    every request resolves) and the value of [Date.now()]. *)
Record World : Type := mkWorld {
  database : Database;
  faults : list bool;
  now : Z
}.

(** The outcome of an [async] function: its promise is fulfilled with a
    value or rejected with an error. *)
Inductive Outcome (A : Type) : Type :=
| Fulfilled (a : A)
| Thrown.
Arguments Fulfilled {A} a.
Arguments Thrown {A}.

Definition Task (A : Type) : Type := World -> Outcome A * World.

Definition ret {A : Type} (a : A) : Task A := fun w => (Fulfilled a, w).

Definition bind {A B : Type} (m : Task A) (k : A -> Task B) : Task B :=
  fun w =>
    match m w with
    | (Fulfilled a, w') => k a w'
    | (Thrown, w') => (Thrown, w')
    end.

Definition throw {A : Type} : Task A := fun w => (Thrown, w).

(** [try { body } catch (error) { handler }]. *)
Definition tryCatch {A : Type} (body handler : Task A) : Task A :=
  fun w =>
    match body w with
    | (Fulfilled a, w') => (Fulfilled a, w')
    | (Thrown, w') => handler w'
    end.

(** [const x = await m; k]. *)
Notation "'await!' x ':=' m 'in' k" := (bind m (fun x => k))
  (at level 10, x name, m at level 100, k at level 200, only parsing).

(** The next request: its fate and the world once it is settled. *)
Definition settle (w : World) : bool * World :=
  match faults w with
  | [] => (false, w)
  | fault :: rest => (fault, mkWorld (database w) rest (now w))
  end.

(** [await get(location)]: read the database, unless the request is
    rejected. *)
Definition get {A : Type} (read : Database -> A) : Task A :=
  fun w =>
    let '(fault, w') := settle w in
    if fault then (Thrown, w') else (Fulfilled (read (database w')), w').

(** [await set(location, value)].  The client validates the value
    before it sends anything: a value that holds [undefined] makes the
    call throw, and no request is made.  Otherwise the value at the
    location is replaced, unless the request is rejected. *)
Definition set (invalid : bool) (write : Database -> Database) : Task unit :=
  fun w =>
    if invalid then (Thrown, w)
    else
      let '(fault, w') := settle w in
      if fault then (Thrown, w')
      else (Fulfilled tt, mkWorld (write (database w')) (faults w') (now w')).

(** Whether an untyped object holds a property whose value is
    [undefined]. *)
Definition holdsUndefined (value : gmap string JS.JsVal) : bool :=
  existsb JS.isUndefined (map_to_list value).*2.




(** [Date.now()]. *)
Definition dateNow : Task Z := fun w => (Fulfilled (now w), w).

Section Service.
(** [String.prototype.toLowerCase]. *)
Variable toLowerCase : string -> string.
(** The key that [push(applicationsRef)] generates. *)
Variable pushKey : World -> string.
(** [Object.values(snapshot.val())] for the snapshot of the collection
    of tickets.  [val()] gives a plain object, whose properties come in the
    order of the keys of the collection: the order that the query asks for
    with [orderByChild('created_at')] is not kept by it. *)
Variable Object_values :
  gmap string PartApplication -> list PartApplication.

Definition getAllParts : Task Entries :=
  tryCatch
    (await! snapshot := get material_summary_2025 in
     ret snapshot)
    (ret []).

(** The three [includes] tests of [searchParts]. *)
Definition matchesSearch (searchLower : string) (entry : string * Part) : bool :=
  let matchesMaterial := JS.includes (toLowerCase entry.1) searchLower in
  let matchesDescription :=
    JS.includes (toLowerCase (JS.orEmpty (SPRAS_EN entry.2))) searchLower in
  let matchesSupplier :=
    JS.includes (toLowerCase (JS.orEmpty (Supplier_Name entry.2))) searchLower in
  matchesMaterial || matchesDescription || matchesSupplier.

(** One round of the [forEach] callback, on the pair of [filtered]
    and [count]. *)
Definition searchStep (searchLower : string) (limit : Z)
    (acc : Entries * Z) (entry : string * Part) : Entries * Z :=
  let '(filtered, count) := acc in
  if limit <=? count then acc
  else if matchesSearch searchLower entry
       then (filtered ++ [entry], count + 1)
       else acc.

Definition searchParts (searchTerm : string) (limit : Z) : Task Entries :=
  tryCatch
    (if negb (JS.truthy searchTerm) then
       await! snapshot := get (fun db => take (Z.to_nat limit) (material_summary_2025 db)) in
       ret snapshot
     else
       await! allParts := getAllParts in
       let searchLower := toLowerCase searchTerm in
       ret (foldl (searchStep searchLower limit) ([], 0) allParts).1)
    (ret []).

(** [searchParts(searchTerm)], with the default [limit = 50]. *)
Definition searchPartsDefault (searchTerm : string) : Task Entries :=
  searchParts searchTerm 50.

(** [{...application, ticket_id: ticketId, created_at: Date.now()}]. *)
Definition fullApplication (application : Draft.t) (ticketId : string)
    (createdAt : Z) : PartApplication :=
  mkPartApplication ticketId (Draft.supplier_name application)
    (Draft.part_description application) (Draft.part_number application)
    (Draft.requested_by application) (Draft.department application)
    (Draft.urgency application) (Draft.technical_specs application)
    (Draft.application_notes application) (Draft.estimated_cost application)
    (Draft.justification application) (Draft.image_url application)
    (Draft.status application) createdAt.

Definition setPartApplication (ticketId : string) (a : PartApplication)
    (db : Database) : Database :=
  mkDatabase (material_summary_2025 db) (Parts db)
    (<[ticketId := a]> (PartApplications db)).

(** A ticket is a typed record, and an [image_url] that is missing is
    no property of the object: the value holds no [undefined]. *)
Definition submitPartApplication (application : Draft.t) : Task string :=
  tryCatch
    (fun w =>
       let ticketId := pushKey w in
       (await! createdAt := dateNow in
        await! _ := set false (setPartApplication ticketId
                    (fullApplication application ticketId createdAt)) in
        ret ticketId) w)
    throw.

(** [Object.values(data).reverse()]: the tickets in the reverse of the
    order of their keys. *)
Definition getAllPartApplications : Task (list PartApplication) :=
  tryCatch
    (await! data := get PartApplications in
     if decide (data = ∅) then ret []
     else ret (reverse (Object_values data)))
    (ret []).

(** The location ['PartApplications/' + ticketId] is the child under
    [ticketId] when [ticketId] is a key ([isKey]), as the ids that [push]
    generates are; for another string the location is not a ticket. *)
Definition getPartApplication (ticketId : string) : Task (option PartApplication) :=
  tryCatch
    (await! snapshot := get (fun db => PartApplications db !! ticketId) in
     ret snapshot)
    (ret None).

(** [{...currentData.val(), ...updates}]: the properties of [updates]
    override those of the current value. *)
Definition spread (current updates : gmap string JS.JsVal) : gmap string JS.JsVal :=
  updates ∪ current.

Definition setPart (material : string) (value : gmap string JS.JsVal)
    (db : Database) : Database :=
  mkDatabase (material_summary_2025 db) (<[material := value]> (Parts db))
    (PartApplications db).

Definition updatePartData (material : string) (updates : gmap string JS.JsVal) :
    Task unit :=
  tryCatch
    (await! currentData := get (fun db => Parts db !! material) in
     let updatedData := spread (default ∅ currentData) updates in
     set (holdsUndefined updatedData) (setPart material updatedData))
    throw.
End Service.

End Firebase.

(* ===================================================================== *)
(** * [src/pages/admin.tsx] *)
(* ===================================================================== *)

Module Admin.

Inductive MessageType : Type := Success | Error.

(** The state of the page that [handleSavePartData] reads and writes.
    A part is seen here as an object, a finite map from property names
    to values, as in the database. *)
Record PageState : Type := mkPageState {
  parts : gmap string (gmap string JS.JsVal);
  selectedPart : option string;
  notes : string;
  year : string;
  obsoletedDate : string;
  alternativeParts : string;
  isSaving : bool;
  message : option (MessageType * string)
}.

Definition setIsSaving (b : bool) (st : PageState) : PageState :=
  mkPageState (parts st) (selectedPart st) (notes st) (year st) (obsoletedDate st)
    (alternativeParts st) b (message st).

Definition setParts (f : gmap string (gmap string JS.JsVal) ->
                         gmap string (gmap string JS.JsVal))
    (st : PageState) : PageState :=
  mkPageState (f (parts st)) (selectedPart st) (notes st) (year st)
    (obsoletedDate st) (alternativeParts st) (isSaving st) (message st).

Definition showMessage (type : MessageType) (text : string) (st : PageState) : PageState :=
  mkPageState (parts st) (selectedPart st) (notes st) (year st) (obsoletedDate st)
    (alternativeParts st) (isSaving st) (Some (type, text)).

(** The property names of the update payload. *)
Definition adminFields : gset string :=
  {[ "notes"; "year"; "obsoleted_date"; "alternative_parts" ]}.

Section Page.
(** [String.prototype.trim]. *)
Variable trim : string -> string.

(** [s.trim() || undefined]. *)
Definition trimmedOrUndefined (s : string) : JS.JsVal :=
  if JS.truthy (trim s) then JS.JStr (trim s) else JS.JUndefined.

(** The object literal [updates]: the four properties are always
    there, with the value [undefined] for a blank input. *)
Definition updatesOf (st : PageState) : gmap string JS.JsVal :=
  {[ "notes" := trimmedOrUndefined (notes st);
     "year" := trimmedOrUndefined (year st);
     "obsoleted_date" := trimmedOrUndefined (obsoletedDate st);
     "alternative_parts" := trimmedOrUndefined (alternativeParts st) ]}.

Definition handleSavePartData (st : PageState) : Firebase.Task PageState :=
  match selectedPart st with
  | None => Firebase.ret st
  | Some material =>
      let st := setIsSaving true st in
      let updates := updatesOf st in
      Firebase.bind
        (Firebase.tryCatch
           (Firebase.bind (Firebase.updatePartData material updates)
              (fun _ =>
                 let st :=
                   setParts
                     (fun prev =>
                        <[material :=
                            Firebase.spread (default ∅ (prev !! material)) updates]>
                          prev)
                     st in
                 Firebase.ret
                   (showMessage Success
                      ("Part data updated successfully for " ++ material) st)))
           (Firebase.ret (showMessage Error "Failed to update part data" st)))
        (fun st => Firebase.ret (setIsSaving false st))
  end.
End Page.

End Admin.

(* ===================================================================== *)
(** * [src/services/pdf.ts] *)
(* ===================================================================== *)

Module PDF.
Import Types.

Inductive Language : Type := En | Zh.
Inductive FontStyle : Type := Normal | Bold.
Inductive Align : Type := AlignLeft | AlignCenter.

(** What the calls on the [jsPDF] object put into the document.  A text
    is recorded with the font style and size that are current when
    [pdf.text] is called.  Lengths are in millimetres, over the
    rationals. *)
Inductive Item : Type :=
| Text (style : FontStyle) (size : Z) (lines : list string) (x y : Q) (align : Align)
| PageBreak
| Image (imgData : string) (x y width height : Q).

(** The state of the export: the document so far, the current font and
    the local variable [yPosition]. *)
Record Layout : Type := mkLayout {
  items : list Item;
  fontStyle : FontStyle;
  fontSize : Z;
  yPosition : Q
}.

(** The result of the export: the document and the name under which
    [pdf.save] stores it. *)
Record Document : Type := mkDocument {
  content : list Item;
  filename : string
}.

Definition setFont (style : FontStyle) (l : Layout) : Layout :=
  mkLayout (items l) style (fontSize l) (yPosition l).

Definition setFontSize (size : Z) (l : Layout) : Layout :=
  mkLayout (items l) (fontStyle l) size (yPosition l).

Definition text (lines : list string) (x y : Q) (align : Align) (l : Layout) : Layout :=
  mkLayout (items l ++ [Text (fontStyle l) (fontSize l) lines x y align])
    (fontStyle l) (fontSize l) (yPosition l).

(** [yPosition += dy]. *)
Definition advance (dy : Q) (l : Layout) : Layout :=
  mkLayout (items l) (fontStyle l) (fontSize l) (yPosition l + dy).

(** [pdf.addPage(); yPosition = margin]. *)
Definition addPage (margin : Q) (l : Layout) : Layout :=
  mkLayout (items l ++ [PageBreak]) (fontStyle l) (fontSize l) margin.

Definition addImage (imgData : string) (x y width height : Q) (l : Layout) : Layout :=
  mkLayout (items l ++ [Image imgData x y width height])
    (fontStyle l) (fontSize l) (yPosition l).

(** [a > b] on lengths. *)
Definition Qgtb (a b : Q) : bool := negb (Qle_bool a b).

Definition margin : Q := 20.

(** [application.status.toUpperCase()] and
    [application.urgency.toUpperCase()]. *)
Definition statusUpper (s : Status) : string :=
  match s with
  | Pending => "PENDING"
  | Approved => "APPROVED"
  | Rejected => "REJECTED"
  end.

Definition urgencyUpper (u : Urgency) : string :=
  match u with
  | Low => "LOW"
  | Medium => "MEDIUM"
  | High => "HIGH"
  end.

(** The labels, [language === 'zh' ? ... : ...]. *)
Definition pick (language : Language) (zh en : string) : string :=
  match language with Zh => zh | En => en end.

Definition title lang := pick lang "零部件申请单" "Part Application Form".
Definition ticketLabel lang := pick lang "申请单号:" "Ticket ID:".
Definition dateLabel lang := pick lang "申请日期:" "Application Date:".
Definition statusLabel lang := pick lang "状态:" "Status:".
Definition urgencyLabel lang := pick lang "紧急程度:" "Urgency:".
Definition partInfoTitle lang := pick lang "零部件信息" "Part Information".
Definition partNumberLabel lang := pick lang "零部件编号:" "Part Number:".
Definition supplierLabel lang := pick lang "供应商:" "Supplier:".
Definition descriptionLabel lang := pick lang "零部件描述:" "Description:".
Definition requestInfoTitle lang := pick lang "申请信息" "Request Information".
Definition requestedByLabel lang := pick lang "申请人:" "Requested By:".
Definition departmentLabel lang := pick lang "部门:" "Department:".
Definition estimatedCostLabel lang := pick lang "预估成本:" "Estimated Cost:".
Definition techSpecsTitle lang := pick lang "技术规格" "Technical Specifications".
Definition justificationTitle lang := pick lang "业务依据" "Business Justification".
Definition notesTitle lang := pick lang "附加说明" "Additional Notes".
Definition imageTitle lang := pick lang "零部件图片" "Part Image".

(** The outcome of loading the image: its size once [onload] fires, or
    [onerror]. *)
Inductive ImageLoad : Type :=
| Loaded (width height : Q)
| LoadError.

Section Generator.
(** The page size that [jsPDF] reports for A4. *)
Variables pageWidth pageHeight : Q.
(** [pdf.splitTextToSize]. *)
Variable splitTextToSize : string -> Q -> list string.
(** [formatDate] and [formatCurrency] of [lib/utils], built on [Intl]. *)
Variable formatDate : Z -> string.
Variable formatCurrency : Z -> string.
(** [new Date().toLocaleDateString(...)] for the footer. *)
Variable today : Language -> string.
(** Loading [application.image_url] into an [Image]. *)
Variable loadImage : string -> ImageLoad.
(** [canvas.toDataURL('image/jpeg', 0.7)] of the image drawn on a
    canvas of the given size in pixels. *)
Variable toDataURL : string -> Q -> Q -> string.

Definition contentWidth : Q := pageWidth - 2 * margin.

Definition header (language : Language) (application : PartApplication)
    (l : Layout) : Layout :=
  (* [pdf.setFont('helvetica')] selects the family and keeps the style *)
  let l := setFontSize 20 l in
  let l := setFont Bold l in
  let l := text [title language] (pageWidth / 2) (yPosition l) AlignCenter l in
  let l := advance 15 l in
  let l := setFontSize 12 l in
  let l := setFont Normal l in
  let l := text [ticketLabel language +:+ " " +:+ ticket_id application]
             margin (yPosition l) AlignLeft l in
  let l := advance 10 l in
  let l := text [dateLabel language +:+ " " +:+ formatDate (created_at application)]
             margin (yPosition l) AlignLeft l in
  let l := advance 15 l in
  let l := setFontSize 10 l in
  let l := text [statusLabel language +:+ " " +:+ statusUpper (status application)]
             margin (yPosition l) AlignLeft l in
  let l := text [urgencyLabel language +:+ " " +:+ urgencyUpper (urgency application)]
             (margin + 60) (yPosition l) AlignLeft l in
  advance 15 l.

(** One round of [fields.forEach]: the label, then the wrapped value. *)
Definition wrappedField (field : string * string) (l : Layout) : Layout :=
  let l := setFont Bold l in
  let l := text [field.1] margin (yPosition l) AlignLeft l in
  let l := setFont Normal l in
  let lines := splitTextToSize field.2 (contentWidth - 40) in
  let l := text lines (margin + 40) (yPosition l) AlignLeft l in
  advance (inject_Z (Z.of_nat (length lines)) * 5 + 3) l.

Definition partInformation (language : Language) (application : PartApplication)
    (l : Layout) : Layout :=
  let l := setFontSize 12 l in
  let l := setFont Bold l in
  let l := text [partInfoTitle language] margin (yPosition l) AlignLeft l in
  let l := advance 8 l in
  let l := setFont Normal l in
  let fields :=
    [ (partNumberLabel language, part_number application);
      (supplierLabel language, supplier_name application);
      (descriptionLabel language, part_description application) ] in
  let l := foldl (fun l field => wrappedField field l) l fields in
  advance 5 l.

(** One round of [requestFields.forEach]. *)
Definition plainField (field : string * string) (l : Layout) : Layout :=
  let l := setFont Bold l in
  let l := text [field.1] margin (yPosition l) AlignLeft l in
  let l := setFont Normal l in
  let l := text [field.2] (margin + 40) (yPosition l) AlignLeft l in
  advance 7 l.

Definition requestInformation (language : Language) (application : PartApplication)
    (l : Layout) : Layout :=
  let l := setFont Bold l in
  let l := text [requestInfoTitle language] margin (yPosition l) AlignLeft l in
  let l := advance 8 l in
  let l := setFont Normal l in
  let requestFields :=
    [ (requestedByLabel language, requested_by application);
      (departmentLabel language, department application);
      (estimatedCostLabel language, formatCurrency (estimated_cost application)) ] in
  let l := foldl (fun l field => plainField field l) l requestFields in
  advance 5 l.

(** A title in bold and the wrapped text under it. *)
Definition section (heading body : string) (l : Layout) : Layout :=
  let l := setFont Bold l in
  let l := text [heading] margin (yPosition l) AlignLeft l in
  let l := advance 8 l in
  let l := setFont Normal l in
  let lines := splitTextToSize body contentWidth in
  let l := text lines margin (yPosition l) AlignLeft l in
  advance (inject_Z (Z.of_nat (length lines)) * 5 + 10) l.

(** [if (yPosition > pageHeight - room) { pdf.addPage(); ... }]. *)
Definition breakIfBelow (room : Q) (l : Layout) : Layout :=
  if Qgtb (yPosition l) (pageHeight - room) then addPage margin l else l.

Definition technicalSpecifications (language : Language)
    (application : PartApplication) (l : Layout) : Layout :=
  if JS.truthy (technical_specs application)
  then section (techSpecsTitle language) (technical_specs application) l
  else l.

Definition businessJustification (language : Language)
    (application : PartApplication) (l : Layout) : Layout :=
  if JS.truthy (justification application)
  then section (justificationTitle language) (justification application)
         (breakIfBelow 60 l)
  else l.

Definition additionalNotes (language : Language)
    (application : PartApplication) (l : Layout) : Layout :=
  if JS.truthy (application_notes application)
  then section (notesTitle language) (application_notes application)
         (breakIfBelow 40 l)
  else l.

(** The [onload] handler: fit the image into the content width and
    80 mm of height, keeping its aspect ratio, and add it. *)
Definition embed (url : string) (width height : Q) (l : Layout) : Layout :=
  let maxWidth := contentWidth in
  let maxHeight : Q := 80%Q in
  let aspectRatio := (width / height)%Q in
  let '(width, height) :=
    if Qgtb width maxWidth then (maxWidth, (maxWidth / aspectRatio)%Q)
    else (width, height) in
  let '(width, height) :=
    if Qgtb height maxHeight then ((maxHeight * aspectRatio)%Q, maxHeight)
    else (width, height) in
  let imgData := toDataURL url (width * (378 # 100)) (height * (378 # 100)) in
  addImage imgData margin (yPosition l) width height l.

Definition imageBlock (language : Language) (application : PartApplication)
    (l : Layout) : Layout :=
  match image_url application with
  | Some url =>
      if JS.truthy url then
        let l := breakIfBelow 100 l in
        let l := setFont Bold l in
        let l := text [imageTitle language] margin (yPosition l) AlignLeft l in
        let l := advance 10 l in
        match loadImage url with
        | Loaded width height => embed url width height l
        | LoadError => l
        end
      else l
  | None => l
  end.

Definition footerText (language : Language) : string :=
  match language with
  | Zh => "生成日期: " ++ today Zh ++ " | 零部件申请系统"
  | En => "Generated: " ++ today En ++ " | Parts Application System"
  end.

Definition footer (language : Language) (l : Layout) : Layout :=
  let footerY := (pageHeight - 15)%Q in
  let l := setFontSize 8 l in
  let l := setFont Normal l in
  text [footerText language] (pageWidth / 2) footerY AlignCenter l.

(** A new document: [jsPDF] starts with helvetica normal at 16 pt. *)
Definition blank : Layout := mkLayout [] Normal 16 margin.

(** The layout before the image block. *)
Definition textBlocks (language : Language) (application : PartApplication) :
    Layout :=
  additionalNotes language application
    (businessJustification language application
       (technicalSpecifications language application
          (requestInformation language application
             (partInformation language application
                (header language application blank))))).

Definition generateApplicationPDF (application : PartApplication)
    (language : Language) : Document :=
  let l := blank in
  let l := header language application l in
  let l := partInformation language application l in
  let l := requestInformation language application l in
  let l := technicalSpecifications language application l in
  let l := businessJustification language application l in
  let l := additionalNotes language application l in
  let l := imageBlock language application l in
  let l := footer language l in
  mkDocument (items l)
    (ticket_id application ++ "_" ++ pick language "zh" "en" ++ ".pdf").

(** The headings and labels that every export draws. *)
Definition fixedHeadings (language : Language) : list (list string) :=
  [ [title language]; [partInfoTitle language]; [partNumberLabel language];
    [supplierLabel language]; [descriptionLabel language];
    [requestInfoTitle language]; [requestedByLabel language];
    [departmentLabel language]; [estimatedCostLabel language] ].

(** The heading of an optional block, drawn when its text is there. *)
Definition headingIf (body heading : string) : list (list string) :=
  if JS.truthy body then [[heading]] else [].

Definition isImage (item : Item) : bool :=
  match item with
  | Image _ _ _ _ _ => true
  | _ => false
  end.

(** The texts drawn in bold: the title, the section headings and the
    labels. *)
Definition boldTexts (content : list Item) : list (list string) :=
  omap (fun item =>
          match item with
          | Text Bold _ lines _ _ _ => Some lines
          | _ => None
          end) content.
End Generator.

End PDF.

(* ===================================================================== *)
(** * Page navigation, filter options and statistics of the two list pages *)
(* ===================================================================== *)

Module Navigation.

(** [setCurrentPage(prev => Math.max(1, prev - 1))] and
    [setCurrentPage(prev => Math.min(totalPages, prev + 1))]; the summary
    page computes the same from [currentPage]. *)
Definition previousPage (currentPage : Z) : Z := Z.max 1 (currentPage - 1).

Definition nextPage (totalPages currentPage : Z) : Z :=
  Z.min totalPages (currentPage + 1).

(** [Array.from({ length: n }, (_, i) => f i)], without the [null]s that
    React does not render. *)
Definition arrayFrom {A : Type} (n : Z) (f : Z -> option A) : list A :=
  omap (fun i => f (Z.of_nat i)) (seq 0 (Z.to_nat n)).

(** The numbered buttons of the catalogue page. *)
Definition cataloguePageButtons (totalPages currentPage : Z) : list Z :=
  arrayFrom (Z.min 5 totalPages)
    (fun i =>
       let page := Z.max 1 (Z.min (totalPages - 4) (currentPage - 2)) + i in
       if totalPages <? page then None else Some page).

(** The numbered buttons of the summary page: the first five pages, then
    the last page when there are more than five. *)
Definition summaryPageButtons (totalPages : Z) : list Z :=
  arrayFrom (Z.min 5 totalPages) (fun i => Some (i + 1))
  ++ (if 5 <? totalPages then [totalPages] else []).

(** "Showing [from] to [to] of [length] results". *)
Definition showingFrom (currentPage : Z) : Z :=
  (currentPage - 1) * Summary.itemsPerPage + 1.

Definition showingTo {A : Type} (l : list A) (currentPage : Z) : Z :=
  Z.min (currentPage * Summary.itemsPerPage) (Z.of_nat (length l)).

End Navigation.

Module Options.
Import Types.


(** [supplierSet.add(name)]: a [Set] keeps the first insertion. *)
Definition setAdd (set : list string) (name : string) : list string :=
  if bool_decide (name ∈ set) then set else set ++ [name].





End Options.

Module Dashboard.
Import Types.

(** [marginStats]: the three counters of the [forEach]. *)
Record MarginStats : Type := mkMarginStats {
  positiveMargin : Z;
  negativeMargin : Z;
  zeroMargin : Z
}.

Definition countMargin (stats : MarginStats) (part : Part) : MarginStats :=
  let dealerMargin := JS.orZero (Dealer_vs_Std part) in
  if 0 <? dealerMargin then
    mkMarginStats (positiveMargin stats + 1) (negativeMargin stats) (zeroMargin stats)
  else if dealerMargin <? 0 then
    mkMarginStats (positiveMargin stats) (negativeMargin stats + 1) (zeroMargin stats)
  else
    mkMarginStats (positiveMargin stats) (negativeMargin stats) (zeroMargin stats + 1).

Definition marginStats (parts : list Part) : MarginStats :=
  foldl countMargin (mkMarginStats 0 0 0) parts.

End Dashboard.

(* ===================================================================== *)
(** * The admin list, the image with fallbacks and the BoM reference page *)
(* ===================================================================== *)

Module AdminList.
Import Types.

Section Filter.
Variable toLowerCase : string -> string.

(** The callback of the filter effect of [admin.tsx]. *)
Definition matches (debouncedSearchTerm : string) (entry : string * Part) : bool :=
  let searchLower := toLowerCase debouncedSearchTerm in
  JS.includes (toLowerCase entry.1) searchLower
  || JS.includes (toLowerCase (JS.orEmpty (SPRAS_EN entry.2))) searchLower
  || JS.includes (toLowerCase (JS.orEmpty (Supplier_Name entry.2))) searchLower.

End Filter.

End AdminList.

Module ImageFallback.

(** The state of [ImageWithFallback]. *)
Record State : Type := mkState {
  currentSrc : string;
  hasError : bool;
  attempts : nat
}.

(** What the component renders. *)
Inductive Rendered : Type :=
| Img (src : string)
| NoImage.

(** The state after the effect on [src] has run. *)
Definition initial (src : string) : State := mkState src false 0.

(** [handleError]; the index is within [allSrcs] by the guard. *)
Definition handleError (allSrcs : list string) (st : State) : State :=
  let nextAttempt := (attempts st + 1)%nat in
  if (nextAttempt <? length allSrcs)%nat then
    mkState (default "" (allSrcs !! nextAttempt)) (hasError st) nextAttempt
  else
    mkState (currentSrc st) true (attempts st).

Definition render (st : State) : Rendered :=
  if hasError st then NoImage else Img (currentSrc st).

Section Urls.
(** [encodeURIComponent]. *)
Variable encodeURIComponent : string -> string.

Definition baseUrl : string :=
  "https://firebasestorage.googleapis.com/v0/b/partssr.firebasestorage.app/o/".

Definition getPartImageUrl (material : string) : string :=
  baseUrl +:+ encodeURIComponent material +:+ ".png?alt=media".

Definition getPartImageUrlWithFallback (material : string) : list string :=
  [ baseUrl +:+ encodeURIComponent material +:+ ".png?alt=media";
    baseUrl +:+ encodeURIComponent material +:+ ".jpg?alt=media";
    baseUrl +:+ encodeURIComponent material +:+ ".webp?alt=media" ].

(** [allSrcs] as the catalogue page sets the properties:
    [src = getPartImageUrl(material)] and
    [fallbackSrcs = getPartImageUrlWithFallback(material).slice(1)]. *)
Definition catalogueSrcs (material : string) : list string :=
  getPartImageUrl material
  :: JS.slice 1 (Z.of_nat (length (getPartImageUrlWithFallback material)))
       (getPartImageUrlWithFallback material).
End Urls.

End ImageFallback.

Module Bom.

(** [interface BoMComponent], as [getBoMComponents] fills it. *)
Record BoMComponent : Type := mkBoMComponent {
  Component_Material : string;
  Component_Description : string;
  Standard_Price : Z;
  Supplier : string
}.

(** A child of [BoM/<model>] as the snapshot gives it: an object with
    its properties, or a value that is no object. *)
Inductive RawChild : Type :=
| RawObject (description : option string) (price : option Z) (supplier : option string)
| RawOther.

Definition Components : Type := list (string * BoMComponent).

(** The callback of [Object.entries(data).forEach] in [getBoMComponents]. *)
Definition addComponent (components : Components) (child : string * RawChild) :
    Components :=
  match child.2 with
  | RawObject description price supplier =>
      components
      ++ [(child.1,
           mkBoMComponent child.1 (JS.orEmpty description) (JS.orZero price)
             (JS.orEmpty supplier))]
  | RawOther => components
  end.

(** [parts[material]] and [searchResult[material]] on an object given by
    its entries. *)
Definition property {A : Type} (entries : list (string * A)) (key : string) : option A :=
  snd <$> List.find (fun entry => bool_decide (entry.1 = key)) entries.

(** [[...new Set(materialCodes)]]. *)
Definition unique (codes : list string) : list string :=
  foldl Options.setAdd [] codes.

Section Page.
Variable toLowerCase : string -> string.
Variable localeCompare : string -> string -> Z.
(** The children of the location [BoM/<model>], [None] when there is no
    such location. *)
Variable BoM : Firebase.Database -> string -> option (list (string * RawChild)).

Definition getBoMComponents (modelWithMY : string) : Firebase.Task Components :=
  Firebase.tryCatch
    (Firebase.bind (Firebase.get (fun db => BoM db modelWithMY))
       (fun data =>
          match data with
          | None => Firebase.ret []
          | Some children => Firebase.ret (foldl addComponent [] children)
          end))
    (Firebase.ret []).

(** One of the [partPromises]: the part found for a component code. *)
Definition lookupPart (material : string) : Firebase.Task (option Types.Part) :=
  Firebase.tryCatch
    (Firebase.bind (Firebase.searchParts toLowerCase material 1)
       (fun searchResult => Firebase.ret (property searchResult material)))
    (Firebase.ret None).

(** [partsData] once all the promises are settled, the lookups taken one
    after the other. *)
Fixpoint loadParts (materials : list string) (partsData : Types.Entries) :
    Firebase.Task Types.Entries :=
  match materials with
  | [] => Firebase.ret partsData
  | material :: rest =>
      Firebase.bind (lookupPart material)
        (fun found =>
           match found with
           | Some part => loadParts rest (partsData ++ [(material, part)])
           | None => loadParts rest partsData
           end)
  end.



End Page.

End Bom.

(* ===================================================================== *)
(** * Reading a part record and downloading a ticket *)
(* ===================================================================== *)

Module PartRecords.


End PartRecords.

Module Download.

Section Page.
(** [parseFloat]: the number read at the start of the text, [None] for
    [NaN]. *)
Variable parseFloat : string -> option Z.
(** [new Date(s).getTime()]. *)
Variable getTime : string -> Z.
Variables pageWidth pageHeight : Q.
Variable splitTextToSize : string -> Q -> list string.
Variable formatDate : Z -> string.
Variable formatCurrency : Z -> string.
Variable today : PDF.Language -> string.
Variable loadImage : string -> PDF.ImageLoad.
Variable toDataURL : string -> Q -> Q -> string.

(** The object [pdfApplication] that [downloadPDF] builds from a ticket
    of the page; it has no [image_url]. *)
Definition pdfApplication (application : Application.PartApplication) :
    Types.PartApplication :=
  Types.mkPartApplication
    (Application.ticketId application)
    (if JS.truthy (Application.supplier application)
     then Application.supplier application else "N/A")
    (Application.specifications application)
    ("APP-" +:+ Application.ticketId application)
    (Application.requestedBy application)
    (Application.department application)
    (Application.priority application)
    (Application.specifications application)
    (Application.notes application)
    (JS.orZero (parseFloat (Application.estimatedCost application)))
    "Part application request"
    None
    (Application.status application)
    (getTime (Application.submittedAt application)).

(** [downloadPDF]: the state of the page afterwards and the document
    that is saved, always the Chinese one. *)
Definition downloadPDF (application : Application.PartApplication)
    (st : Application.PageState) : Application.PageState * PDF.Document :=
  let st := Application.setIsSubmitting true st in
  let doc :=
    PDF.generateApplicationPDF pageWidth pageHeight splitTextToSize formatDate
      formatCurrency today loadImage toDataURL (pdfApplication application) PDF.Zh in
  let st := Application.showMessage Application.Success
              "PDF downloaded successfully" st in
  (Application.setIsSubmitting false st, doc).
End Page.

End Download.


Module PdfLayout.

Definition isPageBreak (item : PDF.Item) : bool :=
  match item with
  | PDF.PageBreak => true
  | _ => false
  end.

(** A page break is followed at once by the heading of one of the
    blocks that check the room left on the page, drawn at the top margin
    of the new page. *)
Definition breaksBeforeHeadings (language : PDF.Language) (items : list PDF.Item) :
    Prop :=
  forall i,
    items !! i = Some PDF.PageBreak ->
    exists heading,
      items !! S i
      = Some (PDF.Text PDF.Bold 12 [heading] PDF.margin PDF.margin PDF.AlignLeft)
      /\ heading ∈ [ PDF.justificationTitle language; PDF.notesTitle language;
                     PDF.imageTitle language ].

End PdfLayout.


(* ===================================================================== *)
(** * Loading the parts on the list pages *)
(* ===================================================================== *)

Module Loading.
Import Types.

Section Effects.
Variable toLowerCase : string -> string.

(** The load effect of the catalogue page: the value of [allParts] once
    it has run, [allParts] being kept when the [try] block throws. *)
Definition catalogueLoad (debouncedSearchTerm : string) (allParts : Entries) :
    Firebase.Task Entries :=
  Firebase.tryCatch
    (Firebase.bind
       (if JS.truthy debouncedSearchTerm
        then Firebase.searchParts toLowerCase debouncedSearchTerm 10000
        else Firebase.getAllParts)
       (fun partsData => Firebase.ret partsData))
    (Firebase.ret allParts).

(** The load effect of the summary page: the value of [parts] once it
    has run. *)
Definition summaryLoad (parts : list Part) : Firebase.Task (list Part) :=
  Firebase.tryCatch
    (Firebase.bind Firebase.getAllParts
       (fun partsData => Firebase.ret (Summary.partsArray partsData)))
    (Firebase.ret parts).
End Effects.

End Loading.


(* ===================================================================== *)
(** * Sample data *)
(* ===================================================================== *)

Module Samples.
Import Types.

(** Code-unit order on strings, a collation that [localeCompare] can be
    instantiated with. *)
Definition codeUnitCompare (a b : string) : Z :=
  match OrdersEx.String_as_OT.compare a b with
  | Eq => 0
  | Lt => -1
  | Gt => 1
  end.

Definition priced (supplier : string) (price stock : Z) : Part :=
  mkPart None None (Some price) (Some stock) None None None None None None
         None None None None None (Some supplier) None None None None.

(** Lower-casing of the letters A to Z, an instance of [toLowerCase]. *)
Fixpoint asciiLower (s : string) : string :=
  match s with
  | EmptyString => EmptyString
  | String c s' =>
      let n := Ascii.nat_of_ascii c in
      String
        (if (65 <=? n)%nat && (n <=? 90)%nat then Ascii.ascii_of_nat (n + 32) else c)
        (asciiLower s')
  end.

Definition rows : list Part :=
  [ priced "Acme" 300 0; emptyPart; priced "Bolt" 100 7; priced "Acme" 250 2 ].

(** The submission of the acceptance example: requester, department
    and specifications, every other field left as it is. *)
Definition aliceForm : Application.Form.t :=
  Application.Form.mk "Alice" "Eng" Types.Medium "" "bolt" "" "" "" "".

Definition aliceFormWithQuantity : Application.Form.t :=
  Application.Form.mk "Alice" "Eng" Types.Medium "2" "bolt" "" "" "" "".

Definition anonymousForm : Application.Form.t :=
  Application.Form.mk "" "Eng" Types.Medium "2" "bolt" "" "" "" "".

Definition catalogue : Entries :=
  [ ("B-200", priced "Acme" 300 0);
    ("A-100", priced "Bolt" 100 7);
    ("C-300", priced "Acme" 300 2);
    ("D-400", priced "Bolt" 250 0) ].

Definition ticket (id requestedBy : string) (status : Status) (createdAt : Z) :
    PartApplication :=
  mkPartApplication id "Acme" "M8 bolt" "APP-1" requestedBy "Eng" Medium
    "bolt" "" 0 "" None status createdAt.

Definition draft (requestedBy : string) (status : Status) : Draft.t :=
  Draft.mk "Acme" "M8 bolt" "APP-1" requestedBy "Eng" Medium "bolt" "" 0 "" None status.

Definition tickets : gmap string PartApplication :=
  {[ "-Na1" := ticket "-Na1" "Alice" Pending 1000;
     "-Na2" := ticket "-Na2" "Bob" Approved 2000 ]}.

(** A stored part with an admin note and a catalogue price. *)
Definition storedPart : gmap string JS.JsVal :=
  {[ "notes" := JS.JStr "old"; "Standard_Price" := JS.JNum 100 ]}.

(** A database that holds the sample data, with every request
    resolving. *)
Definition world : Firebase.World :=
  Firebase.mkWorld
    (Firebase.mkDatabase catalogue {[ "A-100" := storedPart ]} tickets)
    [] 1767225600000.

(** A ticket with an image reference. *)
Definition ticketWithImage : PartApplication :=
  mkPartApplication "-Na1" "Acme" "M8 bolt" "APP-1" "Alice" "Eng" Medium
    "bolt" "" 0 "" (Some "https://example.org/bolt.png") Pending 1000.

(** The export on an A4 page of 210 mm by 297 mm, with no wrapping of
    the lines and fixed renderings of dates and amounts. *)
Definition exportPDF (loadImage : string -> PDF.ImageLoad) :
    PartApplication -> PDF.Language -> PDF.Document :=
  PDF.generateApplicationPDF 210 297 (fun s _ => [s]) (fun _ => "Jan 1, 2026")
    (fun _ => "$0.00") (fun _ => "1/1/2026") loadImage (fun _ _ _ => "").

(** The values of a collection in the order of its keys, for keys that
    are push ids: ascending, code unit by code unit. *)
Definition byKey (m : gmap string PartApplication) : list PartApplication :=
  (JS.sort (fun a b => codeUnitCompare a.1 b.1) (map_to_list m)).*2.

(** Two tickets whose keys and creation times go opposite ways: the
    ticket pushed second carries the earlier time stamp, as when the clock
    of its client is behind. *)
Definition skewedTickets : gmap string PartApplication :=
  {[ "-Na1" := ticket "-Na1" "Alice" Pending 2000;
     "-Na2" := ticket "-Na2" "Bob" Pending 1000 ]}.

Definition skewedWorld : Firebase.World :=
  Firebase.mkWorld (Firebase.mkDatabase catalogue ∅ skewedTickets) [] 1767225600000.

(** Parts whose codes are numbers, in the order in which
    [Object.entries(allParts)] lists them. *)
Definition numericCatalogue : Entries :=
  [ ("9", priced "Acme" 100 1);
    ("10", priced "Acme" 300 1);
    ("100", priced "Acme" 200 1) ].

(** Removal of the white space at both ends, an instance of [trim]. *)
Fixpoint trimStart (s : string) : string :=
  match s with
  | EmptyString => EmptyString
  | String c s' => if Ascii.is_space c then trimStart s' else s
  end.

Definition trim (s : string) : string :=
  String.rev (trimStart (String.rev (trimStart s))).

(** The admin page with a part selected and the four inputs filled. *)
Definition filledAdmin : Admin.PageState :=
  Admin.mkPageState {[ "A-100" := storedPart ]} (Some "A-100")
    " checked " "2024" "2030-01-01" "A-200" false None.

(** The same page with the year only: the other inputs are blank. *)
Definition yearOnlyAdmin : Admin.PageState :=
  Admin.mkPageState {[ "A-100" := storedPart ]} (Some "A-100")
    "" "2024" " " "" false None.

(** The bill of materials of one model: two parts of the catalogue, a
    part that the catalogue does not have and a child that is no
    object. *)
Definition bomChildren : list (string * Bom.RawChild) :=
  [ ("A-100", Bom.RawObject (Some "Bolt M8") (Some 100) None);
    ("C-300", Bom.RawObject None None (Some "Acme"));
    ("note", Bom.RawOther);
    ("Z-900", Bom.RawObject (Some "Washer") None None) ].

Definition bomOf (db : Firebase.Database) (model : string) :
    option (list (string * Bom.RawChild)) :=
  if bool_decide (model = "SRC22MY25") then Some bomChildren else None.

Definition bomComponents : Bom.Components :=
  [ ("A-100", Bom.mkBoMComponent "A-100" "Bolt M8" 100 "");
    ("C-300", Bom.mkBoMComponent "C-300" "" 0 "Acme");
    ("Z-900", Bom.mkBoMComponent "Z-900" "Washer" 0 "") ].
End Samples.

(* ===================================================================== *)
(** * Properties *)
(* ===================================================================== *)

(** ** The sort model *)

Section SortFacts.
Context {A : Type}.
Variable cmp : A -> A -> Z.

Lemma insert_perm (x : A) (l : list A) : JS.insert cmp x l ≡ₚ x :: l.
Proof.
  induction l as [|y l IH]; simpl; [done|].
  destruct (cmp x y <=? 0); [done|].
  rewrite IH. apply Permutation_swap.
Qed.

Lemma sort_perm (l : list A) : JS.sort cmp l ≡ₚ l.
Proof.
  induction l as [|x l IH]; simpl; [done|].
  fold (JS.sort cmp l). rewrite insert_perm. by constructor.
Qed.

Lemma sort_length (l : list A) : length (JS.sort cmp l) = length l.
Proof. apply Permutation_length, sort_perm. Qed.

(** A class [P] of elements none of which sorts strictly after another
    one is left in place by an insertion... *)
Lemma filter_insert (P : A -> bool) (x : A) (l : list A) :
  (forall y, P x = true -> P y = true -> cmp x y <= 0) ->
  List.filter P (JS.insert cmp x l) = List.filter P (x :: l).
Proof.
  intros HP. induction l as [|y l IH]; [done|].
  cbn [JS.insert]. destruct (Z.leb_spec (cmp x y) 0) as [Hle|Hgt]; [done|].
  cbn [List.filter] in *. rewrite IH.
  destruct (P x) eqn:Hx, (P y) eqn:Hy; try done.
  specialize (HP y eq_refl Hy). lia.
Qed.

(** ... and hence by the sort: its members keep the order they had in
    the input. *)
Lemma sort_stable (P : A -> bool) (l : list A) :
  (forall x y, P x = true -> P y = true -> cmp x y <= 0) ->
  List.filter P (JS.sort cmp l) = List.filter P l.
Proof.
  intros HP. induction l as [|x l IH]; [done|].
  cbn [JS.sort foldr]. fold (JS.sort cmp l).
  rewrite filter_insert by (intros; by apply HP).
  cbn [List.filter]. by rewrite IH.
Qed.

(** *** Consistent comparators *)

Hypothesis cmp_antisym : forall x y, Z.sgn (cmp y x) = - Z.sgn (cmp x y).
Hypothesis cmp_trans : forall x y z, cmp x y <= 0 -> cmp y z <= 0 -> cmp x z <= 0.

Lemma cmp_sym0 (x y : A) : cmp x y = 0 -> cmp y x = 0.
Proof. pose proof (cmp_antisym x y). lia. Qed.

Lemma cmp_gt_le (x y : A) : 0 < cmp x y -> cmp y x <= 0.
Proof. pose proof (cmp_antisym x y). lia. Qed.

(** The elements that tie with [e] form a class as in [sort_stable]. *)
Lemma tie_class (e x y : A) : cmp e x = 0 -> cmp e y = 0 -> cmp x y <= 0.
Proof.
  intros Hx Hy. apply cmp_trans with e; [|lia].
  apply cmp_sym0 in Hx. lia.
Qed.

Lemma sort_ties (e : A) (l : list A) :
  List.filter (fun x => cmp e x =? 0) (JS.sort cmp l)
  = List.filter (fun x => cmp e x =? 0) l.
Proof.
  apply sort_stable. intros x y Hx%Z.eqb_eq Hy%Z.eqb_eq. by eapply tie_class.
Qed.

Lemma insert_HdRel (a x : A) (l : list A) :
  JS.cmp_le cmp a x -> HdRel (JS.cmp_le cmp) a l -> HdRel (JS.cmp_le cmp) a (JS.insert cmp x l).
Proof.
  intros Hax Hl. destruct l as [|y l]; cbn [JS.insert]; [by constructor|].
  destruct (cmp x y <=? 0); constructor; [done|]. by inv Hl.
Qed.

Lemma insert_sorted (x : A) (l : list A) :
  Sorted (JS.cmp_le cmp) l -> Sorted (JS.cmp_le cmp) (JS.insert cmp x l).
Proof.
  induction 1 as [|y l Hl IH Hy]; cbn [JS.insert]; [by repeat constructor|].
  destruct (Z.leb_spec (cmp x y) 0) as [Hle|Hgt].
  - apply Sorted_cons; [by apply Sorted_cons|by apply HdRel_cons].
  - apply Sorted_cons; [done|]. apply insert_HdRel; [|done]. by apply cmp_gt_le.
Qed.

Lemma sort_sorted (l : list A) : Sorted (JS.cmp_le cmp) (JS.sort cmp l).
Proof.
  induction l as [|x l IH]; [apply Sorted_nil|].
  cbn [JS.sort foldr]. by apply insert_sorted.
Qed.
End SortFacts.

Lemma Sorted_head_le {A : Type} (R : relation A) `{!Transitive R}
    (x y : A) (l : list A) :
  Sorted R (x :: l) -> y ∈ l -> R x y.
Proof.
  intros [Hall _]%Sorted_StronglySorted%StronglySorted_cons Hy; [|done].
  by apply (proj1 (Forall_forall _ _) Hall).
Qed.

(** The model is the only possible one: for a consistent comparator,
    two sorted lists with the same elements in which ties stand in the
    same order are equal, so every stable sort computes [JS.sort]. *)
Lemma stable_sorted_unique {A : Type} (cmp : A -> A -> Z) (l1 l2 : list A) :
  (forall x y, Z.sgn (cmp y x) = - Z.sgn (cmp x y)) ->
  (forall x y z, cmp x y <= 0 -> cmp y z <= 0 -> cmp x z <= 0) ->
  Sorted (JS.cmp_le cmp) l1 -> Sorted (JS.cmp_le cmp) l2 ->
  l1 ≡ₚ l2 ->
  (forall e, List.filter (fun x => cmp e x =? 0) l1
             = List.filter (fun x => cmp e x =? 0) l2) ->
  l1 = l2.
Proof.
  intros Hanti Htrans Hs1. revert l2.
  assert (Transitive (JS.cmp_le cmp)) as Htr
    by (intros x y z; apply Htrans).
  assert (forall x, cmp x x = 0) as Hrefl
    by (intros x; pose proof (Hanti x x); lia).
  induction l1 as [|x l1 IH]; intros l2 Hs2 Hperm Hties.
  { by apply Permutation_nil_l in Hperm. }
  destruct l2 as [|y l2].
  { by apply Permutation_nil_r in Hperm. }
  assert (cmp x y = 0) as Hxy.
  { assert (JS.cmp_le cmp x y) as Hle1.
    { assert (y ∈ x :: l1) as [->|Hin]%elem_of_cons
        by (rewrite Hperm; by left).
      - unfold JS.cmp_le. by rewrite Hrefl.
      - by apply (Sorted_head_le _ x y l1). }
    assert (JS.cmp_le cmp y x) as Hle2.
    { assert (x ∈ y :: l2) as [->|Hin]%elem_of_cons
        by (rewrite <- Hperm; by left).
      - unfold JS.cmp_le. by rewrite Hrefl.
      - by apply (Sorted_head_le _ y x l2). }
    unfold JS.cmp_le in *. pose proof (Hanti x y). lia. }
  assert (x = y) as <-.
  { pose proof (Hties x) as Hx0. cbn [List.filter] in Hx0.
    rewrite Hrefl, Hxy in Hx0. cbn in Hx0. congruence. }
  f_equal. apply IH.
  - by inv Hs1.
  - by inv Hs2.
  - by apply (Permutation.Permutation_cons_inv (a := x)).
  - intros e. specialize (Hties e). cbn [List.filter] in Hties.
    destruct (cmp e x =? 0); congruence.
Qed.

Lemma sort_is_the_stable_sort {A : Type} (cmp : A -> A -> Z) (l sorted : list A) :
  (forall x y, Z.sgn (cmp y x) = - Z.sgn (cmp x y)) ->
  (forall x y z, cmp x y <= 0 -> cmp y z <= 0 -> cmp x z <= 0) ->
  sorted ≡ₚ l ->
  Sorted (JS.cmp_le cmp) sorted ->
  (forall e, List.filter (fun x => cmp e x =? 0) sorted
             = List.filter (fun x => cmp e x =? 0) l) ->
  sorted = JS.sort cmp l.
Proof.
  intros Hanti Htrans Hperm Hsorted Hties.
  apply (stable_sorted_unique cmp); try done.
  - by apply sort_sorted.
  - by rewrite sort_perm.
  - intros e. rewrite Hties. symmetry. by apply sort_ties.
Qed.

(** Sorting with the arguments of the comparator exchanged gives the
    reverse list, as soon as no two elements of the input tie. *)
Lemma sort_flip_reverse {A : Type} (cmp : A -> A -> Z) (l : list A) :
  (forall x y, Z.sgn (cmp y x) = - Z.sgn (cmp x y)) ->
  (forall x y z, cmp x y <= 0 -> cmp y z <= 0 -> cmp x z <= 0) ->
  (forall x y, x ∈ l -> y ∈ l -> cmp x y = 0 -> x = y) ->
  JS.sort (fun x y => cmp y x) l = reverse (JS.sort cmp l).
Proof.
  intros Hanti Htrans Hstrict.
  assert (Transitive (JS.cmp_le (fun x y => cmp y x))) as Htr.
  { intros x y z Hxy Hyz. unfold JS.cmp_le in *. by apply Htrans with y. }
  apply (Sorted_unique_strong (JS.cmp_le (fun x y => cmp y x))).
  - intros x y Hx Hy Hxy Hyx. unfold JS.cmp_le in *.
    apply Hstrict.
    + by rewrite sort_perm in Hx.
    + by rewrite reverse_Permutation, sort_perm in Hy.
    + pose proof (Hanti x y). lia.
  - apply sort_sorted. intros; apply Hanti.
  - apply (Sorted_reverse (JS.cmp_le cmp)). by apply sort_sorted.
  - by rewrite reverse_Permutation, !sort_perm.
Qed.

(** ** The catalogue filter *)

Section CatalogueFilter.
Import Types.

Lemma matchesSupplier_spec (s : string) (part : Part) :
  Catalogue.matchesSupplier s part = true <-> Catalogue.supplierOk s part.
Proof.
  unfold Catalogue.matchesSupplier, Catalogue.supplierOk.
  rewrite orb_true_iff, !bool_decide_eq_true. done.
Qed.

Lemma matchesStock_spec (b : bool) (part : Part) :
  Catalogue.matchesStock b part = true <-> b = false \/ Catalogue.inStock part.
Proof.
  unfold Catalogue.matchesStock, Catalogue.inStock.
  rewrite orb_true_iff, negb_true_iff, Z.ltb_lt.
  split; (intros [Hb|Hq]; [by left|right]).
  - destruct (Current_Stock_Qty part) as [q|]; simpl in Hq; [eauto|lia].
  - destruct Hq as (q & -> & Hq). done.
Qed.

Lemma passes_spec (s : string) (b : bool) (entry : string * Part) :
  Catalogue.passes s b entry = true <->
  Catalogue.supplierOk s entry.2 /\ (b = false \/ Catalogue.inStock entry.2).
Proof.
  unfold Catalogue.passes.
  by rewrite andb_true_iff, matchesSupplier_spec, matchesStock_spec.
Qed.

Lemma elem_of_filtered (s : string) (b : bool) (M : Entries) (entry : string * Part) :
  entry ∈ Catalogue.filtered s b M <->
  entry ∈ M /\ Catalogue.supplierOk s entry.2 /\ (b = false \/ Catalogue.inStock entry.2).
Proof.
  unfold Catalogue.filtered.
  by rewrite !list_elem_of_In, filter_In, passes_spec.
Qed.

Lemma filter_all_true {A : Type} (P : A -> bool) (l : list A) :
  (forall x, P x = true) -> List.filter P l = l.
Proof.
  intros HP. induction l as [|x l IH]; simpl; [done|]. by rewrite HP, IH.
Qed.

Lemma filter_sublist_weaken {A : Type} (P Q : A -> bool) (l : list A) :
  (forall x, P x = true -> Q x = true) ->
  List.filter P l `sublist_of` List.filter Q l.
Proof.
  intros HPQ. induction l as [|x l IH]; simpl; [done|].
  destruct (P x) eqn:HP.
  - rewrite (HPQ x HP). by constructor.
  - destruct (Q x); [by constructor|done].
Qed.

(** C1. For every mapping [M] of part codes to part records (given by
    its entries), every supplier filter [s] and stock-only flag [b]: an
    entry passes the filter exactly when ([s] is "all" or the record's
    supplier equals [s]) and ([b] is off or the record's stock quantity
    is greater than 0); the filtered entries are exactly the entries of
    [M] that pass; with [s = "all"] and [b = false] the filter returns
    [M] itself (and, once sorted, a permutation of [M]); and the result
    with [b = true] is a sub-list of the result with [b = false], all of
    whose records have a stock quantity greater than 0. *)
Theorem catalogue_filter_correct (M : Entries) (s : string) (b : bool) :
  (forall entry,
      Catalogue.passes s b entry = true <->
      (s = "all" \/ Supplier_Name entry.2 = Some s)
      /\ (b = false \/ exists q, Current_Stock_Qty entry.2 = Some q /\ 0 < q))
  /\ (forall entry,
      entry ∈ Catalogue.filtered s b M <->
      entry ∈ M /\ Catalogue.passes s b entry = true)
  /\ Catalogue.filtered "all" false M = M
  /\ (forall localeCompare sortBy,
      Catalogue.filteredAndSortedParts localeCompare "all" sortBy false M ≡ₚ M)
  /\ Catalogue.filtered s true M `sublist_of` Catalogue.filtered s false M
  /\ (forall entry,
      entry ∈ Catalogue.filtered s true M ->
      exists q, Current_Stock_Qty entry.2 = Some q /\ 0 < q).
Proof.
  assert (Catalogue.filtered "all" false M = M) as Hall.
  { apply filter_all_true. intros entry. by apply passes_spec; split; left. }
  split_and!.
  - intros entry. apply passes_spec.
  - intros entry. by rewrite elem_of_filtered, passes_spec.
  - done.
  - intros lc sortBy. unfold Catalogue.filteredAndSortedParts.
    by rewrite sort_perm, Hall.
  - apply filter_sublist_weaken. intros entry.
    rewrite !passes_spec. intros [Hs _]. split; [done|by left].
  - intros entry (_ & _ & [?|Hq])%elem_of_filtered; done.
Qed.
End CatalogueFilter.

(** ** The sort comparators *)

Lemma sort_ext {A : Type} (cmp1 cmp2 : A -> A -> Z) (l : list A) :
  (forall x y, cmp1 x y = cmp2 x y) -> JS.sort cmp1 l = JS.sort cmp2 l.
Proof.
  intros Heq. induction l as [|x l IH]; [done|].
  cbn [JS.sort foldr]. fold (JS.sort cmp1 l) (JS.sort cmp2 l). rewrite IH.
  generalize (JS.sort cmp2 l) as s. clear IH.
  induction s as [|y s IHs]; [done|]. cbn [JS.insert]. by rewrite Heq, IHs.
Qed.

Lemma NoDup_fmap_elem_inj {A B : Type} (f : A -> B) (l : list A) (x y : A) :
  NoDup (map f l) -> x ∈ l -> y ∈ l -> f x = f y -> x = y.
Proof.
  induction l as [|a l IH]; intros Hnd Hx Hy Hf; [by inv Hx|].
  cbn [map] in Hnd. apply NoDup_cons in Hnd as [Ha Hnd].
  inv Hx; inv Hy; try done; [| |by apply IH].
  - destruct Ha. rewrite Hf. by apply (list_elem_of_fmap_2 f).
  - destruct Ha. rewrite <- Hf. by apply (list_elem_of_fmap_2 f).
Qed.

(** The code-unit order is a consistent comparator. *)
Lemma string_lt_irrefl (a : string) : ~ String_as_OT.lt a a.
Proof. apply (StrictOrder_Irreflexive (R := String_as_OT.lt)). Qed.

Lemma string_lt_trans (a b c : string) :
  String_as_OT.lt a b -> String_as_OT.lt b c -> String_as_OT.lt a c.
Proof. apply (StrictOrder_Transitive (R := String_as_OT.lt)). Qed.

Local Ltac string_order :=
  exfalso;
  first
    [ by eapply string_lt_irrefl; eassumption
    | by eapply string_lt_irrefl; eapply string_lt_trans; eassumption
    | by eapply string_lt_irrefl; eapply string_lt_trans;
        [eassumption|eapply string_lt_trans; eassumption] ].

Lemma codeUnitCompare_antisym (a b : string) :
  Z.sgn (Samples.codeUnitCompare b a) = - Z.sgn (Samples.codeUnitCompare a b).
Proof.
  unfold Samples.codeUnitCompare.
  destruct (String_as_OT.compare_spec a b) as [Hab|Hab|Hab],
           (String_as_OT.compare_spec b a) as [Hba|Hba|Hba];
    try done; unfold String_as_OT.eq in *; subst; string_order.
Qed.

Lemma codeUnitCompare_trans (a b c : string) :
  Samples.codeUnitCompare a b <= 0 -> Samples.codeUnitCompare b c <= 0 ->
  Samples.codeUnitCompare a c <= 0.
Proof.
  unfold Samples.codeUnitCompare.
  destruct (String_as_OT.compare_spec a b) as [Hab|Hab|Hab],
           (String_as_OT.compare_spec b c) as [Hbc|Hbc|Hbc],
           (String_as_OT.compare_spec a c) as [Hac|Hac|Hac];
    try done; unfold String_as_OT.eq in *; subst; intros _ _; string_order.
Qed.

Section Comparators.
Import Types.
Variable localeCompare : string -> string -> Z.
Hypothesis lc_antisym :
  forall a b, Z.sgn (localeCompare b a) = - Z.sgn (localeCompare a b).
Hypothesis lc_trans :
  forall a b c, localeCompare a b <= 0 -> localeCompare b c <= 0 ->
                localeCompare a c <= 0.

Lemma compareEntries_antisym (sortBy : Catalogue.SortBy) (a b : string * Part) :
  Z.sgn (Catalogue.compareEntries localeCompare sortBy b a)
  = - Z.sgn (Catalogue.compareEntries localeCompare sortBy a b).
Proof. destruct sortBy; cbn [Catalogue.compareEntries]; auto; lia. Qed.

Lemma compareEntries_trans (sortBy : Catalogue.SortBy) (a b c : string * Part) :
  Catalogue.compareEntries localeCompare sortBy a b <= 0 ->
  Catalogue.compareEntries localeCompare sortBy b c <= 0 ->
  Catalogue.compareEntries localeCompare sortBy a c <= 0.
Proof. destruct sortBy; cbn [Catalogue.compareEntries]; eauto; lia. Qed.
End Comparators.

(** The price of a row as the comparators read it. *)
Lemma compareRows_price localeCompare Number_of_string d (a b : Types.Part) :
  Summary.compareRows localeCompare Number_of_string Summary.FStandard_Price d a b
  = match d with
    | Summary.Asc => JS.orZero (Types.Standard_Price a) - JS.orZero (Types.Standard_Price b)
    | Summary.Desc => JS.orZero (Types.Standard_Price b) - JS.orZero (Types.Standard_Price a)
    end.
Proof.
  unfold Summary.compareRows. cbn [Summary.getField].
  by destruct (Types.Standard_Price a), (Types.Standard_Price b), d.
Qed.

(** The effective price of a part: a missing price counts as 0. *)
Lemma price_class (p : Z) (a b : Types.Part) :
  (JS.orZero (Types.Standard_Price a) =? p) = true ->
  (JS.orZero (Types.Standard_Price b) =? p) = true ->
  JS.orZero (Types.Standard_Price a) - JS.orZero (Types.Standard_Price b) = 0.
Proof. intros Ha%Z.eqb_eq Hb%Z.eqb_eq. lia. Qed.

(** C2. For every (filtered) list [l] of (code, part) entries and every
    sort key among code, price, stock and supplier, with a consistent
    [localeCompare]: the sorted list is a permutation of [l], ordered by
    the key's comparator, and the entries that compare equal to any given
    entry stand in the order they had in [l] (the sort is stable); in
    particular the entries of a given price keep their relative order
    under the price sort, on the catalogue page and, in both directions,
    on the summary page; and for rows with pairwise distinct prices (a
    missing price counting as 0) the descending price sort of the summary
    page is the exact reverse of the ascending one. *)
Theorem sort_stable_and_reversible
    (localeCompare : string -> string -> Z)
    (lc_antisym : forall a b, Z.sgn (localeCompare b a) = - Z.sgn (localeCompare a b))
    (lc_trans : forall a b c, localeCompare a b <= 0 -> localeCompare b c <= 0 ->
                              localeCompare a c <= 0)
    (Number_of_string : string -> option Z)
    (sortBy : Catalogue.SortBy) (l : Types.Entries) (rows : list Types.Part)
    (Hdistinct : NoDup (map (fun r => JS.orZero (Types.Standard_Price r)) rows)) :
  let cmp := Catalogue.compareEntries localeCompare sortBy in
  let byPrice d :=
    Summary.compareRows localeCompare Number_of_string Summary.FStandard_Price d in
  JS.sort cmp l ≡ₚ l
  /\ Sorted (JS.cmp_le cmp) (JS.sort cmp l)
  /\ (forall e,
        List.filter (fun x => cmp e x =? 0) (JS.sort cmp l)
        = List.filter (fun x => cmp e x =? 0) l)
  /\ (forall p,
        List.filter (fun x => JS.orZero (Types.Standard_Price x.2) =? p)
          (JS.sort (Catalogue.compareEntries localeCompare Catalogue.ByPrice) l)
        = List.filter (fun x => JS.orZero (Types.Standard_Price x.2) =? p) l)
  /\ (forall d p,
        List.filter (fun r => JS.orZero (Types.Standard_Price r) =? p)
          (JS.sort (byPrice d) rows)
        = List.filter (fun r => JS.orZero (Types.Standard_Price r) =? p) rows)
  /\ JS.sort (byPrice Summary.Desc) rows = reverse (JS.sort (byPrice Summary.Asc) rows).
Proof.
  intros cmp byPrice. split_and!.
  - apply sort_perm.
  - apply sort_sorted. intros a b. by apply compareEntries_antisym.
  - intros e. apply sort_ties.
    + intros a b. by apply compareEntries_antisym.
    + intros a b c. by apply compareEntries_trans.
  - intros p. apply sort_stable. intros a b Ha Hb.
    cbn [Catalogue.compareEntries]. by rewrite (price_class p).
  - intros d p. apply sort_stable. intros a b Ha Hb.
    unfold byPrice. rewrite compareRows_price.
    destruct d; by rewrite (price_class p).
  - unfold byPrice.
    rewrite (sort_ext _ (fun x y =>
      Summary.compareRows localeCompare Number_of_string
        Summary.FStandard_Price Summary.Asc y x)).
    + apply sort_flip_reverse.
      * intros a b. rewrite !compareRows_price. lia.
      * intros a b c. rewrite !compareRows_price. lia.
      * intros a b Ha Hb. rewrite compareRows_price. intros Hab.
        apply (NoDup_fmap_elem_inj _ _ _ _ Hdistinct Ha Hb). lia.
    + intros a b. by rewrite !compareRows_price.
Qed.

Lemma sort_stable_and_reversible_witness :
  NoDup (map (fun r => JS.orZero (Types.Standard_Price r)) Samples.rows)
  /\ JS.sort (Catalogue.compareEntries Samples.codeUnitCompare Catalogue.ByPrice)
       Samples.catalogue
     = [ ("A-100", Samples.priced "Bolt" 100 7);
         ("D-400", Samples.priced "Bolt" 250 0);
         ("B-200", Samples.priced "Acme" 300 0);
         ("C-300", Samples.priced "Acme" 300 2) ]
  /\ JS.sort (Summary.compareRows Samples.codeUnitCompare (fun _ => None)
               Summary.FStandard_Price Summary.Desc) Samples.rows
     = reverse (JS.sort (Summary.compareRows Samples.codeUnitCompare (fun _ => None)
                           Summary.FStandard_Price Summary.Asc) Samples.rows).
Proof.
  assert (NoDup (map (fun r => JS.orZero (Types.Standard_Price r)) Samples.rows))
    as Hdistinct by (apply (bool_decide_unpack _); vm_compute; exact I).
  split; [exact Hdistinct|]. split; [reflexivity|].
  apply (sort_stable_and_reversible Samples.codeUnitCompare
           codeUnitCompare_antisym codeUnitCompare_trans (fun _ => None)
           Catalogue.ByPrice Samples.catalogue Samples.rows Hdistinct).
Defined.

(** ** Pagination *)

Section Pagination.
Context {A : Type}.
Implicit Types (l : list A) (p : Z).

(** From page 1 on, [slice] takes 50 elements after dropping the
    earlier pages. *)
Lemma paginatedParts_take_drop l p :
  1 <= p ->
  Catalogue.paginatedParts l p = take 50 (drop (Z.to_nat (p - 1) * 50) l).
Proof.
  intros Hp. unfold Catalogue.paginatedParts, JS.slice, JS.relativeIndex,
    Catalogue.itemsPerPage.
  set (len := Z.of_nat (length l)).
  destruct (Z.ltb_spec ((p - 1) * 50) 0) as [|_]; [lia|].
  destruct (Z.ltb_spec ((p - 1) * 50 + 50) 0) as [|_]; [lia|].
  replace (Z.to_nat (p - 1) * 50)%nat with (Z.to_nat ((p - 1) * 50)) by lia.
  destruct (Z.le_gt_cases len ((p - 1) * 50)) as [Hge|Hlt].
  - rewrite !drop_ge by lia. by rewrite !take_nil.
  - rewrite (Z.min_l ((p - 1) * 50) len) by lia.
    destruct (Z.le_gt_cases ((p - 1) * 50 + 50) len) as [Hfull|Hshort].
    + rewrite Z.min_l by lia. f_equal. lia.
    + rewrite Z.min_r by lia.
      rewrite (take_ge _ 50) by (rewrite length_drop; lia).
      apply take_ge. rewrite length_drop. lia.
Qed.
(** The first [k] pages, one after the other, are the first [k * 50]
    elements. *)
Lemma concat_pages l (k : nat) :
  concat (map (fun i => Catalogue.paginatedParts l (Z.of_nat i)) (seq 1 k))
  = take (k * 50) l.
Proof.
  induction k as [|k IH]; [done|].
  rewrite seq_S, map_app, concat_app, IH. cbn [map concat Nat.add].
  rewrite app_nil_r, paginatedParts_take_drop by lia.
  replace (Z.to_nat (Z.of_nat (S k) - 1)) with k by lia.
  rewrite take_take_drop. f_equal. lia.
Qed.

(** [Math.ceil(N / 50)] is the least number of pages that hold [N]
    elements. *)
Lemma totalPages_bounds l :
  (Catalogue.totalPages l - 1) * 50 < Z.of_nat (length l)
  <= Catalogue.totalPages l * 50.
Proof.
  unfold Catalogue.totalPages, Catalogue.itemsPerPage, JS.ceilDiv.
  set (n := Z.of_nat (length l)).
  pose proof (Qle_ceiling (inject_Z n / inject_Z 50)) as Hle.
  pose proof (Qceiling_lt (inject_Z n / inject_Z 50)) as Hlt.
  set (k := Qceiling (inject_Z n / inject_Z 50)) in *.
  unfold Qle, Qlt in Hle, Hlt. cbn in Hle, Hlt. lia.
Qed.

(** The slices of the pagination, which are the rows that the summary
    page shows and, on the catalogue page, the local [paginatedParts] of
    the effect before the page is stored as an object.  For every
    sequence [l] of length [N], with the page size 50 and page numbers
    counted from 1: the page count [k] is the ceiling of [N / 50], that
    is, the least [k] with [N <= 50 k]; the slices 1 to [k] put one after
    the other give back [l]; every slice before the last has exactly 50
    elements and the last one between 1 and 50; a page number beyond [k]
    gives the empty slice; and the empty sequence has 0 pages.  The two
    pages compute the same slices and the same count. *)
Theorem pagination_reconstructs l :
  let N := Z.of_nat (length l) in
  let k := Catalogue.totalPages l in
  ((k - 1) * 50 < N <= k * 50)
  /\ concat (map (fun i => Catalogue.paginatedParts l (Z.of_nat i))
              (seq 1 (Z.to_nat k))) = l
  /\ (forall p, 1 <= p < k -> length (Catalogue.paginatedParts l p) = 50%nat)
  /\ (0 < N -> (1 <= length (Catalogue.paginatedParts l k) <= 50)%nat)
  /\ (forall p, k < p -> Catalogue.paginatedParts l p = [])
  /\ Catalogue.totalPages (@nil A) = 0
  /\ Summary.totalPages l = k
  /\ (forall p, Summary.paginatedParts l p = Catalogue.paginatedParts l p).
Proof.
  intros N k. assert ((k - 1) * 50 < N <= k * 50) as Hk
    by apply totalPages_bounds.
  split; [exact Hk|]. split_and!.
  - rewrite concat_pages. apply take_ge. lia.
  - intros p Hp. rewrite paginatedParts_take_drop by lia.
    rewrite length_take, length_drop. lia.
  - intros HN. rewrite paginatedParts_take_drop by lia.
    rewrite length_take, length_drop. lia.
  - intros p Hp. assert (0 <= k) by lia.
    rewrite paginatedParts_take_drop by lia.
    rewrite drop_ge by lia. apply take_nil.
  - reflexivity.
  - reflexivity.
  - reflexivity.
Qed.
End Pagination.

(** ** The page that the catalogue shows *)

Section DisplayedPage.
Import Types.

Lemma setProperty_fresh {A : Type} (key : string) (value : A)
    (obj : list (string * A)) :
  key ∉ obj.*1 -> JS.setProperty key value obj = obj ++ [(key, value)].
Proof.
  induction obj as [|[k v] obj IH]; intros Hfresh; [done|].
  cbn [JS.setProperty]. cbn in Hfresh. apply not_elem_of_cons in Hfresh as [Hne Hfresh].
  destruct (String.eqb_spec k key) as [->|_]; [done|].
  by rewrite IH.
Qed.

(** An object built from entries with distinct keys has these entries
    as its properties, in their order. *)
Lemma fromEntries_NoDup {A : Type} (pairs : list (string * A)) :
  NoDup pairs.*1 -> JS.fromEntries pairs = pairs.
Proof.
  unfold JS.fromEntries.
  assert (forall acc,
            NoDup (acc ++ pairs).*1 ->
            foldl (fun obj pair => JS.setProperty pair.1 pair.2 obj) acc pairs
            = acc ++ pairs) as Hgen.
  { induction pairs as [|[k v] pairs IH]; intros acc Hnd; cbn [foldl].
    - by rewrite app_nil_r.
    - rewrite fmap_app in Hnd. cbn in Hnd.
      assert (k ∉ acc.*1) as Hfresh.
      { apply NoDup_app in Hnd as (_ & Hdisjoint & _).
        intros Hin. apply (Hdisjoint k Hin). by left. }
      cbn [fst snd]. rewrite setProperty_fresh by done.
      rewrite IH; [by rewrite <- app_assoc|].
      by rewrite <- app_assoc, fmap_app. }
  intros Hnd. by rewrite (Hgen []).
Qed.

Lemma filter_partition_perm {A : Type} (f : A -> bool) (l : list A) :
  List.filter f l ++ List.filter (fun x => negb (f x)) l ≡ₚ l.
Proof.
  induction l as [|x l IH]; [done|]. cbn [List.filter].
  destruct (f x); cbn [negb app].
  - by rewrite IH.
  - by rewrite <- Permutation_middle, IH.
Qed.

Lemma filter_none {A : Type} (f : A -> bool) (l : list A) :
  Forall (fun x => f x = false) l ->
  List.filter f l = [] /\ List.filter (fun x => negb (f x)) l = l.
Proof.
  induction 1 as [|x l Hx _ [IH1 IH2]]; [done|].
  cbn [List.filter]. rewrite Hx. cbn [negb]. by rewrite IH1, IH2.
Qed.

Lemma filter_all {A : Type} (f : A -> bool) (l : list A) :
  Forall (fun x => f x = true) l -> List.filter f l = l.
Proof.
  induction 1 as [|x l Hx _ IH]; [done|]. cbn [List.filter]. by rewrite Hx, IH.
Qed.

(** The page of the catalogue, for parts with distinct codes.  It shows
    the parts of its slice, each one once: first the parts whose code is
    an array index, in ascending order of the code read as a number, then
    the other parts in the order of the slice.  So the page is in the
    order of the slice, that is, of the sort, when no code on it is an
    array index; the parts whose codes are not array indices are always in
    the order of the sort among themselves. *)
Theorem displayed_page_same_parts (l : Entries) (currentPage : Z)
    (Hcodes : NoDup l.*1) :
  let slice := Catalogue.paginatedParts l currentPage in
  let shown := Catalogue.displayedParts l currentPage in
  shown
  = JS.sort (fun a b => JS.orZero (JS.arrayIndex a.1) - JS.orZero (JS.arrayIndex b.1))
      (List.filter (fun entry => JS.isArrayIndex entry.1) slice)
    ++ List.filter (fun entry => negb (JS.isArrayIndex entry.1)) slice
  /\ shown ≡ₚ slice
  /\ length shown = length slice
  /\ (Forall (fun entry => JS.isArrayIndex entry.1 = false) slice -> shown = slice)
  /\ List.filter (fun entry => negb (JS.isArrayIndex entry.1)) shown
     = List.filter (fun entry => negb (JS.isArrayIndex entry.1)) slice.
Proof.
  intros slice shown.
  assert (NoDup slice.*1) as Hslice.
  { subst slice. unfold Catalogue.paginatedParts, JS.slice.
    rewrite fmap_take, fmap_drop.
    eapply sublist_NoDup; [exact Hcodes|].
    etrans; [apply sublist_take|apply sublist_drop]. }
  assert (shown
          = JS.sort
              (fun a b => JS.orZero (JS.arrayIndex a.1) - JS.orZero (JS.arrayIndex b.1))
              (List.filter (fun entry => JS.isArrayIndex entry.1) slice)
            ++ List.filter (fun entry => negb (JS.isArrayIndex entry.1)) slice)
    as Hshown.
  { subst shown. unfold Catalogue.displayedParts. fold slice.
    by rewrite fromEntries_NoDup. }
  assert (shown ≡ₚ slice) as Hperm.
  { rewrite Hshown, sort_perm. apply filter_partition_perm. }
  split_and!; [exact Hshown|exact Hperm|by rewrite Hperm| |].
  - intros Hnone. rewrite Hshown.
    destruct (filter_none (fun entry => JS.isArrayIndex entry.1) slice Hnone)
      as [-> ->].
    done.
  - rewrite Hshown, List.filter_app.
    assert (List.filter (fun entry => negb (JS.isArrayIndex entry.1))
              (JS.sort
                 (fun a b =>
                    JS.orZero (JS.arrayIndex a.1) - JS.orZero (JS.arrayIndex b.1))
                 (List.filter (fun entry => JS.isArrayIndex entry.1) slice))
            = []) as ->.
    { apply (filter_none (fun entry => negb (JS.isArrayIndex entry.1))).
      apply Forall_forall. intros entry Hentry. rewrite sort_perm in Hentry.
      apply list_elem_of_In, filter_In in Hentry as [_ ->]. done. }
    cbn [app]. apply filter_all. apply Forall_forall. intros entry Hentry.
    by apply list_elem_of_In, filter_In in Hentry as [_ Hentry].
Qed.
End DisplayedPage.

Lemma displayed_page_same_parts_witness :
  NoDup Samples.catalogue.*1
  /\ Catalogue.displayedParts Samples.catalogue 1 = Samples.catalogue
  /\ Catalogue.displayedParts Samples.catalogue 1
     ≡ₚ Catalogue.paginatedParts Samples.catalogue 1.
Proof.
  assert (NoDup Samples.catalogue.*1) as Hcodes
    by (apply (bool_decide_unpack _); vm_compute; exact I).
  split; [exact Hcodes|]. split; [reflexivity|].
  destruct (displayed_page_same_parts Samples.catalogue 1 Hcodes) as (_ & Hperm & _).
  exact Hperm.
Defined.

(** C3, at a failing input.  With the part codes 9, 10 and 100, which
    [Object.entries(allParts)] lists in this order, and the sort by price,
    the sorted sequence is 9, 100, 10 and fits on one page.  The catalogue
    page shows 9, 10, 100: the page is stored as an object, whose keys that
    are array indices come out in ascending numeric order, and the order
    of the sort is lost; the pages put one after the other do not give the
    sorted sequence back.  The summary page, which keeps the slice as an
    array, shows the slice as it is. *)
Lemma catalogue_page_loses_sort_order :
  let sorted :=
    Catalogue.filteredAndSortedParts Samples.codeUnitCompare "all"
      Catalogue.ByPrice false Samples.numericCatalogue in
  sorted
  = [ ("9", Samples.priced "Acme" 100 1);
      ("100", Samples.priced "Acme" 200 1);
      ("10", Samples.priced "Acme" 300 1) ]
  /\ Catalogue.totalPages sorted = 1
  /\ Catalogue.paginatedParts sorted 1 = sorted
  /\ Catalogue.displayedParts sorted 1
     = [ ("9", Samples.priced "Acme" 100 1);
         ("10", Samples.priced "Acme" 300 1);
         ("100", Samples.priced "Acme" 200 1) ]
  /\ concat (map (fun i => Catalogue.displayedParts sorted (Z.of_nat i))
               (seq 1 (Z.to_nat (Catalogue.totalPages sorted))))
     <> sorted
  /\ Summary.paginatedParts sorted 1 = sorted.
Proof.
  cbv zeta. split_and!; [reflexivity|reflexivity|reflexivity|reflexivity| |reflexivity].
  intros Hsame. vm_compute in Hsame. discriminate Hsame.
Qed.

(** ** The application form *)

Section ApplicationForm.
Import Application.

Lemma truthy_true (s : string) : JS.truthy s = true <-> s <> "".
Proof. by destruct s. Qed.

Lemma truthy_false (s : string) : JS.truthy s = false <-> s = "".
Proof. by destruct s. Qed.

Lemma missingRequired_false (f : Form.t) :
  missingRequired f = false <->
  Form.requestedBy f <> "" /\ Form.department f <> ""
  /\ Form.quantity f <> "" /\ Form.specifications f <> "".
Proof.
  unfold missingRequired.
  rewrite !orb_false_iff, !negb_false_iff, !truthy_true. tauto.
Qed.

Lemma missingRequired_true (f : Form.t) :
  missingRequired f = true <->
  Form.requestedBy f = "" \/ Form.department f = ""
  \/ Form.quantity f = "" \/ Form.specifications f = "".
Proof.
  unfold missingRequired.
  rewrite !orb_true_iff, !negb_true_iff, !truthy_false. tauto.
Qed.

Lemma handleSubmit_rejected (now : string) (st : PageState) :
  missingRequired (formData st) = true ->
  handleSubmit now st
  = showMessage Error "Please fill in all required fields" st.
Proof. unfold handleSubmit. by intros ->. Qed.

Lemma handleSubmit_accepted (now : string) (st : PageState) :
  missingRequired (formData st) = false ->
  applications (handleSubmit now st)
  = applications st
    ++ [newApplication (formData st) (generateTicketId (applications st)) now]
  /\ message (handleSubmit now st)
    = Some (Success, ("Part application " ++ generateTicketId (applications st)
                      ++ " submitted successfully!")%string)
  /\ formData (handleSubmit now st) = Form.empty.
Proof. unfold handleSubmit. by intros ->. Qed.

(** C4 (as the code has it).  The submission is accepted exactly when
    requester, department, quantity and specifications are all
    non-empty: the application list then grows by the new record.  It
    is rejected exactly when one of the four is empty: the application
    list is then unchanged and the message is the fixed text "Please
    fill in all required fields", whichever field is missing.  In
    particular Alice / Eng / quantity 2 / bolt is accepted from the
    initial state, and a form with an empty requester creates no
    record. *)
Theorem submission_requires_four_fields (st : PageState) (now : string) :
  let f := formData st in
  let st' := handleSubmit now st in
  (applications st'
     = applications st ++ [newApplication f (generateTicketId (applications st)) now]
   <-> Form.requestedBy f <> "" /\ Form.department f <> ""
       /\ Form.quantity f <> "" /\ Form.specifications f <> "")
  /\ (applications st' = applications st
      /\ message st' = Some (Error, "Please fill in all required fields")
      <-> Form.requestedBy f = "" \/ Form.department f = ""
          \/ Form.quantity f = "" \/ Form.specifications f = "")
  /\ applications
       (handleSubmit now (setFormData Samples.aliceFormWithQuantity initialState))
     = [newApplication Samples.aliceFormWithQuantity "Part01" now]
  /\ applications (handleSubmit now (setFormData Samples.anonymousForm st))
     = applications st.
Proof.
  intros f st'. subst f st'.
  rewrite <- missingRequired_false, <- missingRequired_true.
  destruct (missingRequired (formData st)) eqn:Hm.
  - rewrite handleSubmit_rejected by done. cbn. split_and!; try done.
    split; [|done]. intros Heq. apply (f_equal length) in Heq.
    rewrite length_app in Heq. cbn in Heq. lia.
  - destruct (handleSubmit_accepted now st Hm) as (Happ & Hmsg & _).
    rewrite Happ, Hmsg. split_and!; try done.
    split; [|done]. intros [Heq _]. apply (f_equal length) in Heq.
    rewrite length_app in Heq. cbn in Heq. lia.
Qed.

(** C4, counterexample.  The acceptance example of the specification,
    which leaves the quantity empty, is rejected, and the message is the
    same as for a form that lacks the requester instead. *)
Lemma submission_without_quantity_rejected :
  let st := handleSubmit "2026-01-01T00:00:00.000Z"
              (setFormData Samples.aliceForm initialState) in
  applications st = []
  /\ message st = Some (Error, "Please fill in all required fields")
  /\ message st
     = message (handleSubmit "2026-01-01T00:00:00.000Z"
                  (setFormData Samples.anonymousForm initialState)).
Proof. by vm_compute. Qed.
End ApplicationForm.

(** ** The data access layer *)

Section Search.
Import Types Firebase.
Variable toLowerCase : string -> string.

(** The [forEach] loop keeps the first [limit] matching entries. *)
Lemma search_loop (searchLower : string) (limit : Z) (entries acc : Entries) :
  (foldl (searchStep toLowerCase searchLower limit)
     (acc, Z.of_nat (length acc)) entries).1
  = acc ++ take (Z.to_nat limit - length acc)
             (List.filter (matchesSearch toLowerCase searchLower) entries).
Proof.
  revert acc. induction entries as [|entry entries IH]; intros acc.
  - cbn. by rewrite take_nil, app_nil_r.
  - cbn [foldl List.filter]. unfold searchStep at 2.
    destruct (Z.leb_spec limit (Z.of_nat (length acc))) as [Hfull|Hroom].
    + rewrite IH. by replace (Z.to_nat limit - length acc)%nat with 0%nat by lia.
    + destruct (matchesSearch toLowerCase searchLower entry).
      * replace (Z.of_nat (length acc) + 1) with (Z.of_nat (length (acc ++ [entry])))
          by (rewrite length_app; cbn; lia).
        rewrite IH, <- app_assoc, length_app. cbn [length app].
        replace (Z.to_nat limit - length acc)%nat
          with (S (Z.to_nat limit - (length acc + 1)))%nat by lia.
        done.
      * apply IH.
Qed.

Lemma settle_database (w : World) : database (settle w).2 = database w.
Proof. unfold settle. by destruct (faults w). Qed.

Lemma settle_now (w : World) : now (settle w).2 = now w.
Proof. unfold settle. by destruct (faults w). Qed.

Lemma get_run {A : Type} (read : Database -> A) (w : World) :
  get read w
  = if (settle w).1 then (Thrown, (settle w).2)
    else (Fulfilled (read (database w)), (settle w).2).
Proof.
  unfold get. rewrite <- (settle_database w).
  by destruct (settle w) as [[|] w'].
Qed.

Lemma set_run (invalid : bool) (write : Database -> Database) (w : World) :
  set invalid write w
  = if invalid then (Thrown, w)
    else if (settle w).1 then (Thrown, (settle w).2)
    else (Fulfilled tt,
          mkWorld (write (database w)) (faults (settle w).2) (now w)).
Proof.
  unfold set. destruct invalid; [done|].
  rewrite <- (settle_database w), <- (settle_now w).
  by destruct (settle w) as [[|] w'].
Qed.

Lemma getAllParts_run (w : World) :
  getAllParts w
  = (Fulfilled (if (settle w).1 then [] else material_summary_2025 (database w)),
     (settle w).2).
Proof.
  unfold getAllParts, tryCatch, bind, ret. rewrite get_run.
  by destruct (settle w).1.
Qed.

(** Whatever the fate of the request, the search is fulfilled. *)
Lemma searchParts_run (searchTerm : string) (limit : Z) (w : World) :
  searchParts toLowerCase searchTerm limit w
  = (Fulfilled
       (let data :=
          if (settle w).1 then [] else material_summary_2025 (database w) in
        take (Z.to_nat limit)
          (if JS.truthy searchTerm
           then List.filter (matchesSearch toLowerCase (toLowerCase searchTerm)) data
           else data)),
     (settle w).2).
Proof.
  unfold searchParts, tryCatch, bind, ret.
  destruct (JS.truthy searchTerm); cbn [negb].
  - rewrite getAllParts_run. cbn.
    rewrite (search_loop _ _ _ []). cbn. by rewrite Nat.sub_0_r.
  - rewrite get_run. destruct (settle w).1; [|done]. by rewrite take_nil.
Qed.
(** C10. When the request to the database resolves, [searchParts]
    is fulfilled with at most [limit] records: for a non-empty search
    term, the first [limit] matching records in enumeration order, every
    further matching record being dropped (so that the result is a
    proper part of the matches as soon as more than [limit] records
    match); for an empty search term, the first [limit] records of the
    store, not all of them.  The default [limit] is 50. *)
Theorem search_truncates (searchTerm : string) (limit : Z) (w : World)
    (Hok : (settle w).1 = false) :
  let all := material_summary_2025 (database w) in
  let matching :=
    List.filter (matchesSearch toLowerCase (toLowerCase searchTerm)) all in
  let n := Z.to_nat limit in
  exists result,
    (searchParts toLowerCase searchTerm limit w).1 = Fulfilled result
    /\ (length result <= n)%nat
    /\ (searchTerm <> "" ->
        result = take n matching
        /\ result ++ drop n matching = matching
        /\ ((n < length matching)%nat ->
            length result = n /\ drop n matching <> []))
    /\ (searchTerm = "" ->
        result = take n all
        /\ ((n < length all)%nat -> length result = n /\ result <> all))
    /\ searchPartsDefault toLowerCase searchTerm w
       = searchParts toLowerCase searchTerm 50 w.
Proof.
  intros all matching n. rewrite searchParts_run, Hok. cbn [fst].
  eexists. split; [reflexivity|]. fold all n.
  split; [rewrite length_take; lia|]. split_and!; [| |done].
  - intros Hterm%truthy_true. rewrite Hterm. fold matching.
    split; [done|]. split; [apply take_drop|]. intros Hmore.
    split; [rewrite length_take; lia|].
    intros Hnil%(f_equal length). rewrite length_drop in Hnil. cbn in Hnil. lia.
  - intros Hterm%truthy_false. rewrite Hterm.
    split; [done|]. intros Hmore. split; [rewrite length_take; lia|].
    intros Hall%(f_equal length). rewrite length_take in Hall. lia.
Qed.
End Search.

Lemma search_truncates_witness :
  (Firebase.settle Samples.world).1 = false
  /\ (Firebase.searchParts Samples.asciiLower "ACME" 1 Samples.world).1
     = Firebase.Fulfilled [("B-200", Samples.priced "Acme" 300 0)]
  /\ exists result,
       (Firebase.searchParts Samples.asciiLower "ACME" 1 Samples.world).1
       = Firebase.Fulfilled result
       /\ (length result <= 1)%nat.
Proof.
  split; [reflexivity|]. split; [reflexivity|].
  destruct (search_truncates Samples.asciiLower "ACME" 1 Samples.world eq_refl)
    as (result & Hresult & Hlen & _).
  exists result. split; [exact Hresult|exact Hlen].
Defined.

Lemma Sorted_weaken {A : Type} (R R' : A -> A -> Prop) (l : list A) :
  (forall x y, R x y -> R' x y) -> Sorted R l -> Sorted R' l.
Proof.
  intros HR. induction 1 as [|x l Hl IH Hx]; [apply Sorted_nil|].
  apply Sorted_cons; [done|]. destruct Hx; [apply HdRel_nil|].
  apply HdRel_cons. by apply HR.
Qed.

Section TicketQueries.
Import Types Firebase.
Variable Object_values : gmap string PartApplication -> list PartApplication.


Lemma getPartApplication_run (ticketId : string) (w : World) :
  getPartApplication ticketId w
  = (Fulfilled
       (if (settle w).1 then None else PartApplications (database w) !! ticketId),
     (settle w).2).
Proof.
  unfold getPartApplication, tryCatch, bind, ret. rewrite get_run.
  by destruct (settle w).1.
Qed.

End TicketQueries.



(** C6, at a failing input.  The store holds two tickets: the one under
    the key -Na1 was created at time 2000, the one under -Na2 at time
    1000.  The value of the snapshot lists them in the order of their
    keys, -Na1 then -Na2, whatever the query asks for, and fetch-all
    answers its reverse: the ticket created at 1000 first, then the one
    created at 2000.  This is not the order of the most recent first. *)
Lemma ticket_list_follows_keys :
  (Firebase.getAllPartApplications Samples.byKey Samples.skewedWorld).1
  = Firebase.Fulfilled
      [ Samples.ticket "-Na2" "Bob" Types.Pending 1000;
        Samples.ticket "-Na1" "Alice" Types.Pending 2000 ]
  /\ ~ Sorted (fun a b => Types.created_at b <= Types.created_at a)
        [ Samples.ticket "-Na2" "Bob" Types.Pending 1000;
          Samples.ticket "-Na1" "Alice" Types.Pending 2000 ].
Proof.
  split; [vm_compute; reflexivity|].
  intros Hsorted. apply Sorted_inv in Hsorted as [_ Hhead].
  apply HdRel_inv in Hhead. cbn in Hhead. lia.
Qed.

(** ** The admin merge-update *)

Section MergeUpdate.
Import Firebase.

Lemma lookup_spread_present (current updates : gmap string JS.JsVal) (k : string) :
  k ∈ dom updates -> spread current updates !! k = updates !! k.
Proof.
  intros [v Hv]%elem_of_dom. unfold spread.
  rewrite Hv. by apply lookup_union_Some_l.
Qed.

Lemma lookup_spread_absent (current updates : gmap string JS.JsVal) (k : string) :
  k ∉ dom updates -> spread current updates !! k = current !! k.
Proof.
  intros Hk%not_elem_of_dom. unfold spread. by apply lookup_union_r.
Qed.

Lemma isUndefined_true (v : JS.JsVal) : JS.isUndefined v = true <-> v = JS.JUndefined.
Proof. by destruct v. Qed.

Lemma holdsUndefined_true (value : gmap string JS.JsVal) :
  holdsUndefined value = true <-> exists k, value !! k = Some JS.JUndefined.
Proof.
  unfold holdsUndefined. rewrite existsb_exists. split.
  - intros (v & Hv & ->%isUndefined_true).
    apply list_elem_of_In, list_elem_of_fmap in Hv as ([k v] & -> & Hkv).
    exists k. by apply elem_of_map_to_list.
  - intros (k & Hk). exists JS.JUndefined. split; [|done].
    apply list_elem_of_In, list_elem_of_fmap. exists (k, JS.JUndefined).
    split; [done|]. by apply elem_of_map_to_list.
Qed.

Lemma holdsUndefined_false (value : gmap string JS.JsVal) :
  holdsUndefined value = false <-> forall k, value !! k <> Some JS.JUndefined.
Proof.
  rewrite <- not_true_iff_false, holdsUndefined_true. split.
  - intros Hnone k Hk. apply Hnone. by exists k.
  - intros Hnone (k & Hk). by apply (Hnone k).
Qed.

(** The merged object holds [undefined] when the payload does, and only
    then when the current value holds none. *)
Lemma holdsUndefined_spread (current updates : gmap string JS.JsVal) :
  (holdsUndefined updates = true -> holdsUndefined (spread current updates) = true)
  /\ (holdsUndefined current = false -> holdsUndefined updates = false ->
      holdsUndefined (spread current updates) = false).
Proof.
  unfold spread. split.
  - rewrite !holdsUndefined_true. intros (k & Hk). exists k.
    by apply lookup_union_Some_l.
  - rewrite !holdsUndefined_false. intros Hcurrent Hupdates k.
    rewrite lookup_union_Some_raw. intros [Hk|[_ Hk]].
    + by apply (Hupdates k).
    + by apply (Hcurrent k).
Qed.

Lemma updatePartData_run (material : string) (updates : gmap string JS.JsVal)
    (w : World) :
  updatePartData material updates w
  = if (settle w).1 then (Thrown, (settle w).2)
    else if holdsUndefined
              (spread (default ∅ (Parts (database w) !! material)) updates)
    then (Thrown, (settle w).2)
    else if (settle (settle w).2).1 then (Thrown, (settle (settle w).2).2)
    else (Fulfilled tt,
          mkWorld
            (setPart material
               (spread (default ∅ (Parts (database w) !! material)) updates)
               (database w))
            (faults (settle (settle w).2).2) (now w)).
Proof.
  unfold updatePartData, tryCatch, bind, throw. rewrite get_run.
  destruct (settle w).1; [done|]. rewrite set_run.
  destruct (holdsUndefined _); [done|].
  destruct (settle (settle w).2).1; [done|].
  by rewrite settle_database, settle_now.
Qed.

Lemma dom_updatesOf (trim : string -> string) (st : Admin.PageState) :
  dom (Admin.updatesOf trim st) = Admin.adminFields.
Proof.
  unfold Admin.updatesOf, Admin.adminFields.
  rewrite !dom_insert_L, dom_singleton_L. set_solver.
Qed.

Lemma trimmedOrUndefined_defined (trim : string -> string) (s : string) :
  Admin.trimmedOrUndefined trim s <> JS.JUndefined <-> trim s <> "".
Proof.
  unfold Admin.trimmedOrUndefined. rewrite <- truthy_true.
  by destruct (JS.truthy (trim s)).
Qed.

(** The payload of the admin page holds no [undefined] exactly when
    none of the four inputs is blank. *)
Lemma updatesOf_defined (trim : string -> string) (st : Admin.PageState) :
  holdsUndefined (Admin.updatesOf trim st) = false <->
  trim (Admin.notes st) <> "" /\ trim (Admin.year st) <> ""
  /\ trim (Admin.obsoletedDate st) <> ""
  /\ trim (Admin.alternativeParts st) <> "".
Proof.
  rewrite holdsUndefined_false, <- !(trimmedOrUndefined_defined trim).
  unfold Admin.updatesOf. split.
  - intros Hnone. split_and!; intros Hundefined.
    + apply (Hnone "notes"). by rewrite <- Hundefined.
    + apply (Hnone "year"). by rewrite <- Hundefined.
    + apply (Hnone "obsoleted_date"). by rewrite <- Hundefined.
    + apply (Hnone "alternative_parts"). by rewrite <- Hundefined.
  - intros (Hnotes & Hyear & Hdate & Hparts) k.
    rewrite !lookup_insert_Some, lookup_singleton_Some.
    intros [[_ ?]|[_ [[_ ?]|[_ [[_ ?]|[_ [_ ?]]]]]]]; congruence.
Qed.

(** The merge-update with a payload that [set] accepts.  For every part
    record [current] stored under [Parts/material] and every update
    payload none of whose properties is [undefined] (the stored record
    holds none either, since the database stores none), when the read and
    the write both resolve: the stored record becomes one
    that has, for each property of the payload, the payload's value, and
    for every other property the value of [current]; so a payload within
    notes, year, obsoleted_date and alternative_parts leaves every other
    field as it was.  No other part and no other collection changes.  With
    notes = "old" and the payload {year: "2024"}, notes stays "old" and
    year becomes "2024".  A payload that holds [undefined] is refused: the
    update is rejected and nothing is written.  The admin page sends a
    payload with exactly those four properties, which holds [undefined]
    as soon as one of its inputs is blank, and performs this very
    update. *)
Theorem merge_update_preserves (material : string)
    (current updates : gmap string JS.JsVal) (w : World)
    (Hcur : Parts (database w) !! material = Some current)
    (Hstored : holdsUndefined current = false)
    (Hpayload : holdsUndefined updates = false)
    (Hget : (settle w).1 = false)
    (Hset : (settle (settle w).2).1 = false) :
  let w' := (updatePartData material updates w).2 in
  (updatePartData material updates w).1 = Fulfilled tt
  /\ (exists updated,
        Parts (database w') !! material = Some updated
        /\ (forall k, k ∈ dom updates -> updated !! k = updates !! k)
        /\ (forall k, k ∉ dom updates -> updated !! k = current !! k)
        /\ (dom updates ⊆ Admin.adminFields ->
            forall k, k ∉ Admin.adminFields -> updated !! k = current !! k)
        /\ (current !! "notes" = Some (JS.JStr "old") ->
            updates = {[ "year" := JS.JStr "2024" ]} ->
            updated !! "notes" = Some (JS.JStr "old")
            /\ updated !! "year" = Some (JS.JStr "2024")))
  /\ (forall other, other <> material ->
        Parts (database w') !! other = Parts (database w) !! other)
  /\ material_summary_2025 (database w') = material_summary_2025 (database w)
  /\ PartApplications (database w') = PartApplications (database w)
  /\ (forall payload,
        holdsUndefined payload = true ->
        (updatePartData material payload w).1 = Thrown
        /\ database (updatePartData material payload w).2 = database w)
  /\ (forall trim st,
        Admin.selectedPart st = Some material ->
        dom (Admin.updatesOf trim st) = Admin.adminFields
        /\ (holdsUndefined (Admin.updatesOf trim st) = false <->
            trim (Admin.notes st) <> "" /\ trim (Admin.year st) <> ""
            /\ trim (Admin.obsoletedDate st) <> ""
            /\ trim (Admin.alternativeParts st) <> "")
        /\ (Admin.handleSavePartData trim st w).2
           = (updatePartData material (Admin.updatesOf trim st) w).2).
Proof.
  intros w'. subst w'. rewrite updatePartData_run, Hget, Hset, Hcur.
  cbn [default from_option id].
  rewrite (proj2 (holdsUndefined_spread current updates) Hstored Hpayload).
  cbn [fst snd database default setPart Parts material_summary_2025
       PartApplications].
  split_and!; [reflexivity| | |reflexivity|reflexivity| |].
  - clear Hstored Hpayload.
    exists (spread current updates). rewrite lookup_insert_eq.
    split_and!; [reflexivity| | | |].
    + intros k. apply lookup_spread_present.
    + intros k. apply lookup_spread_absent.
    + intros Hsub k Hk. apply lookup_spread_absent. set_solver.
    + intros Hnotes ->. split.
      * rewrite lookup_spread_absent; [done|].
        rewrite dom_singleton_L. set_solver.
      * rewrite lookup_spread_present; [done|].
        rewrite dom_singleton_L. set_solver.
  - intros other Hother. by rewrite lookup_insert_ne.
  - intros payload Hundefined. rewrite updatePartData_run, Hget, Hcur.
    cbn [default from_option id].
    rewrite (proj1 (holdsUndefined_spread current payload) Hundefined).
    split; [done|]. apply settle_database.
  - intros trim st Hsel. split; [apply dom_updatesOf|].
    split; [apply updatesOf_defined|].
    unfold Admin.handleSavePartData. rewrite Hsel.
    unfold bind, tryCatch, ret.
    change (Admin.updatesOf trim (Admin.setIsSaving true st))
      with (Admin.updatesOf trim st).
    by destruct (updatePartData material (Admin.updatesOf trim st) w) as [[[]|] w1].
Qed.
End MergeUpdate.

Lemma merge_update_preserves_witness :
  Firebase.Parts (Firebase.database Samples.world) !! "A-100" = Some Samples.storedPart
  /\ Firebase.holdsUndefined Samples.storedPart = false
  /\ Firebase.holdsUndefined {[ "year" := JS.JStr "2024" ]} = false
  /\ (Firebase.settle Samples.world).1 = false
  /\ (Firebase.settle (Firebase.settle Samples.world).2).1 = false
  /\ exists updated,
       Firebase.Parts
         (Firebase.database
            (Firebase.updatePartData "A-100" {[ "year" := JS.JStr "2024" ]}
               Samples.world).2) !! "A-100" = Some updated
       /\ updated !! "notes" = Some (JS.JStr "old")
       /\ updated !! "year" = Some (JS.JStr "2024").
Proof.
  assert (Firebase.holdsUndefined Samples.storedPart = false) as Hstored
    by reflexivity.
  assert (Firebase.holdsUndefined {[ "year" := JS.JStr "2024" ]} = false)
    as Hpayload by reflexivity.
  split; [reflexivity|]. split; [exact Hstored|]. split; [exact Hpayload|].
  split; [reflexivity|]. split; [reflexivity|].
  destruct (merge_update_preserves "A-100" Samples.storedPart
              {[ "year" := JS.JStr "2024" ]} Samples.world
              eq_refl Hstored Hpayload eq_refl eq_refl)
    as (_ & (updated & Hupdated & _ & _ & _ & Hexample) & _).
  exists updated. split; [exact Hupdated|].
  exact (Hexample eq_refl eq_refl).
Defined.

(** C7, at a failing input.  The part A-100 is stored with
    notes = "old", and on the admin page the year alone is filled in, with
    2024.  The payload of the page has its four properties, three of them
    [undefined]; [set] refuses such a value, so the update is rejected, the
    page shows the error message, and the stored record is as it was: the
    notes are kept but the year is not set.  The payload {year: "2024"},
    which leaves the three properties out, is accepted: with it the year
    is set and the notes are kept. *)
Lemma admin_partial_update_rejected :
  let updates := Admin.updatesOf Samples.trim Samples.yearOnlyAdmin in
  let saved :=
    Admin.handleSavePartData Samples.trim Samples.yearOnlyAdmin Samples.world in
  let direct :=
    Firebase.updatePartData "A-100" {[ "year" := JS.JStr "2024" ]} Samples.world in
  Firebase.Parts (Firebase.database Samples.world) !! "A-100"
  = Some Samples.storedPart
  /\ Samples.storedPart !! "notes" = Some (JS.JStr "old")
  /\ Samples.storedPart !! "year" = None
  /\ updates
     = {[ "notes" := JS.JUndefined; "year" := JS.JStr "2024";
          "obsoleted_date" := JS.JUndefined;
          "alternative_parts" := JS.JUndefined ]}
  /\ (Firebase.updatePartData "A-100" updates Samples.world).1 = Firebase.Thrown
  /\ (exists st',
        saved.1 = Firebase.Fulfilled st'
        /\ Admin.message st' = Some (Admin.Error, "Failed to update part data")
        /\ Admin.parts st' = Admin.parts Samples.yearOnlyAdmin)
  /\ Firebase.database saved.2 = Firebase.database Samples.world
  /\ Firebase.Parts (Firebase.database saved.2) !! "A-100"
     = Some Samples.storedPart
  /\ direct.1 = Firebase.Fulfilled tt
  /\ Firebase.Parts (Firebase.database direct.2) !! "A-100"
     = Some {[ "notes" := JS.JStr "old"; "Standard_Price" := JS.JNum 100;
               "year" := JS.JStr "2024" ]}.
Proof.
  cbv zeta. split_and!; try reflexivity.
  eexists. split_and!; reflexivity.
Qed.

(** ** Ticket ids *)

Section TicketIds.
Import Types Application.

(** Reading the digits back gives the number: the padding zeros do not
    change it. *)
Lemma decode_padStart (n : nat) :
  option_map Nat.of_uint
    (NilEmpty.uint_of_string (padStart 2 "0" (toString n))) = Some n.
Proof.
  unfold padStart, toString.
  pose proof (NilEmpty.usu (Nat.to_uint n)) as Husu.
  pose proof (DecimalNat.Unsigned.of_to n) as Hof_to.
  destruct (String.length (NilEmpty.string_of_uint (Nat.to_uint n)))
    as [|[|k]]; [| |replace (2 - S (S k))%nat with 0%nat by lia];
    simpl;
    change (String.append EmptyString (NilEmpty.string_of_uint (Nat.to_uint n)))
      with (NilEmpty.string_of_uint (Nat.to_uint n));
    rewrite Husu; cbn; f_equal; exact Hof_to.
Qed.

Lemma append_inj_r (prefix a b : string) :
  (prefix ++ a = prefix ++ b)%string -> a = b.
Proof.
  induction prefix as [|c prefix IH]; [done|].
  intros Heq. apply IH.
  change (String c (prefix ++ a) = String c (prefix ++ b))%string in Heq.
  congruence.
Qed.

Lemma generateTicketId_inj (l1 l2 : list PartApplication) :
  generateTicketId l1 = generateTicketId l2 -> length l1 = length l2.
Proof.
  unfold generateTicketId. intros Hpad%append_inj_r.
  apply (f_equal (fun s => option_map Nat.of_uint (NilEmpty.uint_of_string s)))
    in Hpad.
  rewrite !decode_padStart in Hpad. simplify_eq. lia.
Qed.

Lemma generateTicketId_nonempty (l : list PartApplication) :
  generateTicketId l <> "".
Proof. unfold generateTicketId. by simpl. Qed.

Lemma numbered_fresh (l : list PartApplication) :
  numbered l -> generateTicketId l ∉ map ticketId l.
Proof.
  intros Hnum (a & Hid & (i & Hi)%list_elem_of_lookup)%list_elem_of_fmap.
  rewrite (Hnum i a Hi) in Hid. apply generateTicketId_inj in Hid.
  apply lookup_lt_Some in Hi. rewrite length_take in Hid. lia.
Qed.

Lemma numbered_NoDup (l : list PartApplication) :
  numbered l -> NoDup (map ticketId l).
Proof.
  intros Hnum. apply NoDup_alt. intros i j id Hi Hj.
  apply list_lookup_fmap_Some in Hi as (a & -> & Ha).
  apply list_lookup_fmap_Some in Hj as (b & Heq & Hb).
  rewrite (Hnum i a Ha), (Hnum j b Hb) in Heq.
  apply generateTicketId_inj in Heq. rewrite !length_take in Heq.
  apply lookup_lt_Some in Ha, Hb. lia.
Qed.

Lemma numbered_snoc (l : list PartApplication) (a : PartApplication) :
  numbered l -> ticketId a = generateTicketId l -> numbered (l ++ [a]).
Proof.
  intros Hnum Hid i b Hb.
  destruct (decide (i < length l)%nat) as [Hlt|Hge].
  - rewrite lookup_app_l in Hb by done.
    rewrite take_app_le by lia. by apply Hnum.
  - pose proof (lookup_lt_Some _ _ _ Hb) as Hi.
    rewrite length_app in Hi. cbn in Hi.
    assert (i = length l) as -> by lia.
    rewrite list_lookup_middle in Hb by done. simplify_eq.
    by rewrite take_app_length.
Qed.

Lemma submit_numbered (st : PageState) (input : Form.t * string) :
  numbered (applications st) -> numbered (applications (submit st input)).
Proof.
  intros Hnum. unfold submit, handleSubmit.
  destruct (missingRequired _); [done|]. cbn. by apply numbered_snoc.
Qed.

Lemma run_numbered (inputs : list (Form.t * string)) (st : PageState) :
  numbered (applications st) -> numbered (applications (run inputs st)).
Proof.
  revert st. induction inputs as [|input inputs IH]; intros st Hnum; [done|].
  cbn [run foldl]. apply IH. by apply submit_numbered.
Qed.
End TicketIds.

Section TicketSubmission.
Import Types.

Lemma submitPartApplication_run (pushKey : Firebase.World -> string)
    (application : Draft.t) (w : Firebase.World) :
  Firebase.submitPartApplication pushKey application w
  = if (Firebase.settle w).1 then (Firebase.Thrown, (Firebase.settle w).2)
    else (Firebase.Fulfilled (pushKey w),
          Firebase.mkWorld
            (Firebase.setPartApplication (pushKey w)
               (Firebase.fullApplication application (pushKey w) (Firebase.now w))
               (Firebase.database w))
            (Firebase.faults (Firebase.settle w).2) (Firebase.now w)).
Proof.
  unfold Firebase.submitPartApplication, Firebase.tryCatch, Firebase.bind,
    Firebase.dateNow, Firebase.throw, Firebase.ret.
  rewrite set_run. by destruct (Firebase.settle w).1.
Qed.

(** C5 (as the code has it).  On the application page, after any
    sequence of submissions from the initial state the stored tickets
    have pairwise distinct ids, and one more submission either is
    rejected by the validation and stores nothing, or appends exactly one
    ticket whose id is non-empty and differs from the id of every ticket
    already stored, whose status is pending, whose time stamp is the
    clock reading of the submission and whose other fields are those of
    the form.  The service [submitPartApplication] either fails and
    leaves the database as it was, or is fulfilled with the key generated
    by the store and stores under that key the submitted record with that
    key as its id, [Date.now()] as its creation time and the status that
    the caller passed. *)
Theorem ticket_submission_facts
    (inputs : list (Application.Form.t * string))
    (f : Application.Form.t) (now : string)
    (pushKey : Firebase.World -> string) (application : Draft.t)
    (w : Firebase.World) :
  let st := Application.run inputs Application.initialState in
  let st' := Application.submit st (f, now) in
  let r := Firebase.submitPartApplication pushKey application w in
  NoDup (map Application.ticketId (Application.applications st))
  /\ (if Application.missingRequired f
      then Application.applications st' = Application.applications st
      else exists a,
          Application.applications st' = Application.applications st ++ [a]
          /\ Application.ticketId a <> ""
          /\ (Application.ticketId a
               ∉ map Application.ticketId (Application.applications st))
          /\ Application.status a = Pending
          /\ Application.submittedAt a = now
          /\ a = Application.newApplication f (Application.ticketId a) now)
  /\ NoDup (map Application.ticketId (Application.applications st'))
  /\ ((r.1 = Firebase.Thrown /\ Firebase.database r.2 = Firebase.database w)
      \/ (r.1 = Firebase.Fulfilled (pushKey w)
          /\ Firebase.PartApplications (Firebase.database r.2)
             = <[pushKey w :=
                   Firebase.fullApplication application (pushKey w) (Firebase.now w)]>
                 (Firebase.PartApplications (Firebase.database w))
          /\ ticket_id
               (Firebase.fullApplication application (pushKey w) (Firebase.now w))
             = pushKey w
          /\ created_at
               (Firebase.fullApplication application (pushKey w) (Firebase.now w))
             = Firebase.now w
          /\ status
               (Firebase.fullApplication application (pushKey w) (Firebase.now w))
             = Draft.status application)).
Proof.
  intros st st' r.
  assert (Application.numbered (Application.applications st)) as Hnum.
  { apply run_numbered. intros i a Hi. by destruct i. }
  assert (Application.numbered (Application.applications st')) as Hnum'
    by by apply submit_numbered.
  split; [by apply numbered_NoDup|].
  split; [|split; [by apply numbered_NoDup|]].
  - subst st'. unfold Application.submit, Application.handleSubmit.
    cbn [Application.formData Application.setFormData fst snd].
    destruct (Application.missingRequired f); [done|]. cbn.
    eexists. split; [reflexivity|]. cbn.
    split; [apply generateTicketId_nonempty|].
    split; [by apply numbered_fresh|done].
  - subst r. rewrite submitPartApplication_run.
    destruct (Firebase.settle w).1; cbn.
    + left. split; [done|]. apply settle_database.
    + by right.
Qed.

(** C5, counterexample.  The service stores a ticket with the status it
    is given: here "approved", not "pending". *)
Lemma service_keeps_caller_status :
  let r := Firebase.submitPartApplication (fun _ => "-Na3")
             (Samples.draft "Carol" Approved) Samples.world in
  r.1 = Firebase.Fulfilled "-Na3"
  /\ (status <$> Firebase.PartApplications (Firebase.database r.2) !! "-Na3")
     = Some Approved
  /\ (status <$> Firebase.PartApplications (Firebase.database r.2) !! "-Na3")
     <> Some Pending.
Proof. by vm_compute. Qed.
End TicketSubmission.

(** ** The PDF export *)

Section PdfExport.
Import Types PDF.
Variables pageWidth pageHeight : Q.
Variable splitTextToSize : string -> Q -> list string.
Variable formatDate : Z -> string.
Variable formatCurrency : Z -> string.
Variable today : Language -> string.
Variable loadImage : string -> ImageLoad.
Variable toDataURL : string -> Q -> Q -> string.

Local Abbreviation header := (header pageWidth formatDate).
Local Abbreviation partInformation := (partInformation pageWidth splitTextToSize).
Local Abbreviation requestInformation := (requestInformation formatCurrency).
Local Abbreviation section := (section pageWidth splitTextToSize).
Local Abbreviation breakIfBelow := (breakIfBelow pageHeight).
Local Abbreviation technicalSpecifications :=
  (technicalSpecifications pageWidth splitTextToSize).
Local Abbreviation businessJustification :=
  (businessJustification pageWidth pageHeight splitTextToSize).
Local Abbreviation additionalNotes :=
  (additionalNotes pageWidth pageHeight splitTextToSize).
Local Abbreviation imageBlock := (imageBlock pageWidth pageHeight loadImage toDataURL).
Local Abbreviation footer := (footer pageWidth pageHeight today).
Local Abbreviation textBlocks :=
  (textBlocks pageWidth pageHeight splitTextToSize formatDate formatCurrency).
Local Abbreviation generateApplicationPDF :=
  (generateApplicationPDF pageWidth pageHeight splitTextToSize formatDate
     formatCurrency today loadImage toDataURL).

Lemma boldTexts_app (a b : list Item) :
  boldTexts (a ++ b) = boldTexts a ++ boldTexts b.
Proof. apply omap_app. Qed.

Lemma breakIfBelow_items (room : Q) (l : Layout) :
  items (breakIfBelow room l)
  = items l ++ (if Qgtb (yPosition l) (pageHeight - room) then [PageBreak] else []).
Proof.
  unfold PDF.breakIfBelow. destruct (Qgtb _ _); cbn; by rewrite ?app_nil_r.
Qed.

Lemma breakIfBelow_fontSize (room : Q) (l : Layout) :
  fontSize (breakIfBelow room l) = fontSize l.
Proof. unfold PDF.breakIfBelow. by destruct (Qgtb _ _). Qed.

Lemma breakIfBelow_bold (room : Q) (l : Layout) :
  boldTexts (items (breakIfBelow room l)) = boldTexts (items l).
Proof.
  rewrite breakIfBelow_items, boldTexts_app.
  destruct (Qgtb _ _); cbn; by rewrite app_nil_r.
Qed.

Lemma section_bold (heading body : string) (l : Layout) :
  boldTexts (items (section heading body l)) = boldTexts (items l) ++ [[heading]].
Proof. cbn. rewrite <- app_assoc, boldTexts_app. done. Qed.

Lemma section_fontSize (heading body : string) (l : Layout) :
  fontSize (section heading body l) = fontSize l.
Proof. done. Qed.

Lemma technicalSpecifications_bold language application (l : Layout) :
  boldTexts (items (technicalSpecifications language application l))
  = boldTexts (items l)
    ++ headingIf (technical_specs application) (techSpecsTitle language).
Proof.
  unfold PDF.technicalSpecifications, headingIf.
  destruct (JS.truthy _); [apply section_bold|by rewrite app_nil_r].
Qed.

Lemma businessJustification_bold language application (l : Layout) :
  boldTexts (items (businessJustification language application l))
  = boldTexts (items l)
    ++ headingIf (justification application) (justificationTitle language).
Proof.
  unfold PDF.businessJustification, headingIf.
  destruct (JS.truthy _); [|by rewrite app_nil_r].
  by rewrite section_bold, breakIfBelow_bold.
Qed.

Lemma additionalNotes_bold language application (l : Layout) :
  boldTexts (items (additionalNotes language application l))
  = boldTexts (items l)
    ++ headingIf (application_notes application) (notesTitle language).
Proof.
  unfold PDF.additionalNotes, headingIf.
  destruct (JS.truthy _); [|by rewrite app_nil_r].
  by rewrite section_bold, breakIfBelow_bold.
Qed.

Lemma fixed_bold language application :
  boldTexts
    (items (requestInformation language application
              (partInformation language application
                 (header language application blank))))
  = fixedHeadings language.
Proof. reflexivity. Qed.

Lemma textBlocks_bold language application :
  boldTexts (items (textBlocks language application))
  = fixedHeadings language
    ++ headingIf (technical_specs application) (techSpecsTitle language)
    ++ headingIf (justification application) (justificationTitle language)
    ++ headingIf (application_notes application) (notesTitle language).
Proof.
  unfold PDF.textBlocks.
  rewrite additionalNotes_bold, businessJustification_bold,
    technicalSpecifications_bold, fixed_bold.
  by rewrite <- !app_assoc.
Qed.

Lemma textBlocks_fontSize language application :
  fontSize (textBlocks language application) = 12.
Proof.
  unfold PDF.textBlocks, PDF.additionalNotes, PDF.businessJustification,
    PDF.technicalSpecifications.
  repeat (destruct (JS.truthy _));
    repeat (rewrite section_fontSize || rewrite breakIfBelow_fontSize);
    reflexivity.
Qed.
Lemma footer_items language (l : Layout) :
  items (footer language l)
  = items l ++ [Text Normal 8 [footerText today language] (pageWidth / 2)
                  (pageHeight - 15) AlignCenter].
Proof. reflexivity. Qed.

Lemma footer_bold language (l : Layout) :
  boldTexts (items (footer language l)) = boldTexts (items l).
Proof. rewrite footer_items, boldTexts_app. cbn. by rewrite app_nil_r. Qed.

Lemma embed_items (url : string) (width height : Q) (l : Layout) :
  exists imgData x y w h,
    items (embed pageWidth toDataURL url width height l)
    = items l ++ [Image imgData x y w h].
Proof.
  unfold embed. repeat (destruct (Qgtb _ _)); cbn; by repeat eexists.
Qed.

Lemma imageBlock_bold language application (l : Layout) :
  boldTexts (items (imageBlock language application l))
  = boldTexts (items l)
    ++ match image_url application with
       | Some url => headingIf url (imageTitle language)
       | None => []
       end.
Proof.
  unfold PDF.imageBlock, headingIf.
  destruct (image_url application) as [url|]; [|by rewrite app_nil_r].
  destruct (JS.truthy url); [|by rewrite app_nil_r].
  destruct (loadImage url) as [width height|].
  - edestruct embed_items as (imgData & x & y & w & h & ->).
    cbn. rewrite !boldTexts_app, breakIfBelow_bold. cbn. by rewrite app_nil_r.
  - cbn. by rewrite boldTexts_app, breakIfBelow_bold.
Qed.

Lemma generateApplicationPDF_content application language :
  content (generateApplicationPDF application language)
  = items (footer language
             (imageBlock language application (textBlocks language application))).
Proof. reflexivity. Qed.

Lemma document_bold application language :
  boldTexts (content (generateApplicationPDF application language))
  = fixedHeadings language
    ++ headingIf (technical_specs application) (techSpecsTitle language)
    ++ headingIf (justification application) (justificationTitle language)
    ++ headingIf (application_notes application) (notesTitle language)
    ++ match image_url application with
       | Some url => headingIf url (imageTitle language)
       | None => []
       end.
Proof.
  rewrite generateApplicationPDF_content, footer_bold, imageBlock_bold,
    textBlocks_bold.
  by rewrite <- !app_assoc.
Qed.

(** A heading is in none of the lists that hold other headings only. *)
Local Ltac other_headings H :=
  repeat first
    [ apply elem_of_app in H as [H|H]
    | apply elem_of_cons in H as [H|H]
    | by apply elem_of_nil in H
    | discriminate H ].

(** C8. An optional block whose text is empty leaves the export as it
    is: no heading, no text and no vertical advance, for the technical
    specifications, the justification and the notes alike.  The texts
    drawn in bold are the fixed headings and labels followed by the
    heading of each optional block that is present, in the order of the
    blocks; so the heading of an empty block is nowhere in the document,
    and with the three texts empty the document is made of the
    identification, part and request blocks, the image block and the
    footer. *)
Theorem optional_blocks_omitted (application : PartApplication)
    (language : Language) :
  let doc := generateApplicationPDF application language in
  (forall l, technical_specs application = "" ->
             technicalSpecifications language application l = l)
  /\ (forall l, justification application = "" ->
               businessJustification language application l = l)
  /\ (forall l, application_notes application = "" ->
               additionalNotes language application l = l)
  /\ boldTexts (content doc)
     = fixedHeadings language
       ++ headingIf (technical_specs application) (techSpecsTitle language)
       ++ headingIf (justification application) (justificationTitle language)
       ++ headingIf (application_notes application) (notesTitle language)
       ++ match image_url application with
          | Some url => headingIf url (imageTitle language)
          | None => []
          end
  /\ (technical_specs application = "" ->
      [techSpecsTitle language] ∉ boldTexts (content doc))
  /\ (justification application = "" ->
      [justificationTitle language] ∉ boldTexts (content doc))
  /\ (application_notes application = "" ->
      [notesTitle language] ∉ boldTexts (content doc))
  /\ (technical_specs application = "" -> justification application = "" ->
      application_notes application = "" ->
      content doc
      = items (footer language
                 (imageBlock language application
                    (requestInformation language application
                       (partInformation language application
                          (header language application blank)))))).
Proof.
  intros doc. subst doc. split_and!.
  - intros l Hempty. unfold PDF.technicalSpecifications. by rewrite Hempty.
  - intros l Hempty. unfold PDF.businessJustification. by rewrite Hempty.
  - intros l Hempty. unfold PDF.additionalNotes. by rewrite Hempty.
  - apply document_bold.
  - intros Hempty Hin. rewrite document_bold, Hempty in Hin.
    unfold headingIf, fixedHeadings in Hin.
    destruct (JS.truthy (justification application)),
      (JS.truthy (application_notes application)),
      (image_url application) as [url|]; try destruct (JS.truthy url);
      destruct language; cbn in Hin; other_headings Hin.
  - intros Hempty Hin. rewrite document_bold, Hempty in Hin.
    unfold headingIf, fixedHeadings in Hin.
    destruct (JS.truthy (technical_specs application)),
      (JS.truthy (application_notes application)),
      (image_url application) as [url|]; try destruct (JS.truthy url);
      destruct language; cbn in Hin; other_headings Hin.
  - intros Hempty Hin. rewrite document_bold, Hempty in Hin.
    unfold headingIf, fixedHeadings in Hin.
    destruct (JS.truthy (technical_specs application)),
      (JS.truthy (justification application)),
      (image_url application) as [url|]; try destruct (JS.truthy url);
      destruct language; cbn in Hin; other_headings Hin.
  - intros Htech Hjust Hnotes. rewrite generateApplicationPDF_content.
    unfold PDF.textBlocks, PDF.additionalNotes, PDF.businessJustification,
      PDF.technicalSpecifications.
    by rewrite Htech, Hjust, Hnotes.
Qed.

Lemma textBlocks_withoutImage language application :
  textBlocks language (withoutImage application) = textBlocks language application.
Proof. reflexivity. Qed.

Lemma breakIfBelow_no_image (room : Q) (l : Layout) :
  List.filter isImage (items (breakIfBelow room l)) = List.filter isImage (items l).
Proof.
  rewrite breakIfBelow_items, List.filter_app.
  destruct (Qgtb _ _); cbn; by rewrite app_nil_r.
Qed.

Lemma section_no_image (heading body : string) (l : Layout) :
  List.filter isImage (items (section heading body l)) = List.filter isImage (items l).
Proof. cbn. rewrite !List.filter_app. cbn. by rewrite !app_nil_r. Qed.

Lemma textBlocks_no_image language application :
  List.filter isImage (items (textBlocks language application)) = [].
Proof.
  unfold PDF.textBlocks, PDF.additionalNotes, PDF.businessJustification,
    PDF.technicalSpecifications.
  repeat (destruct (JS.truthy _));
    repeat (rewrite section_no_image || rewrite breakIfBelow_no_image);
    reflexivity.
Qed.

(** C9 (as the code has it).  When the ticket has an image reference
    and loading the image fails, the export still runs to its end: the
    footer is drawn and the file is saved under the ticket's name, no
    image is embedded, and every other block is there.  The image block is
    not left out as a whole, though: its heading, after a page break when
    less than 100 mm remain, is drawn before the image is loaded, so the
    document is the one of the same ticket without an image reference with
    that heading (and page break) inserted before the footer. *)
Theorem image_failure_keeps_export (application : PartApplication)
    (language : Language) (url : string)
    (Hurl : image_url application = Some url)
    (Hne : url <> "")
    (Hfail : loadImage url = LoadError) :
  let doc := generateApplicationPDF application language in
  let bare := generateApplicationPDF (withoutImage application) language in
  let before := textBlocks language application in
  let break := Qgtb (yPosition before) (pageHeight - 100) in
  let footerItem :=
    Text Normal 8 [footerText today language] (pageWidth / 2) (pageHeight - 15)
      AlignCenter in
  content bare = items before ++ [footerItem]
  /\ content doc
     = items before
       ++ (if break then [PageBreak] else [])
       ++ [Text Bold 12 [imageTitle language] margin
             (if break then margin else yPosition before) AlignLeft]
       ++ [footerItem]
  /\ List.filter isImage (content doc) = []
  /\ filename doc
     = ticket_id application +:+ "_" +:+ pick language "zh" "en" +:+ ".pdf"
  /\ filename doc = filename bare.
Proof.
  intros doc bare before break footerItem.
  assert (content doc
          = items before
            ++ (if break then [PageBreak] else [])
            ++ [Text Bold 12 [imageTitle language] margin
                  (if break then margin else yPosition before) AlignLeft]
            ++ [footerItem]) as Hdoc.
  { subst doc. rewrite generateApplicationPDF_content, footer_items.
    fold before footerItem. unfold PDF.imageBlock.
    rewrite Hurl, (proj2 (truthy_true url) Hne), Hfail.
    pose proof (textBlocks_fontSize language application) as Hsize.
    fold before in Hsize. unfold PDF.breakIfBelow. fold break.
    destruct break; cbn; rewrite Hsize; by rewrite <- !app_assoc. }
  split_and!.
  - subst bare. rewrite generateApplicationPDF_content, footer_items.
    by rewrite textBlocks_withoutImage.
  - exact Hdoc.
  - rewrite Hdoc, !List.filter_app.
    subst before. rewrite textBlocks_no_image. by destruct break.
  - reflexivity.
  - reflexivity.
Qed.
End PdfExport.

Lemma image_failure_keeps_export_witness :
  Types.image_url Samples.ticketWithImage = Some "https://example.org/bolt.png"
  /\ "https://example.org/bolt.png" <> ""
  /\ List.filter PDF.isImage
       (PDF.content
          (Samples.exportPDF (fun _ => PDF.LoadError) Samples.ticketWithImage PDF.En))
     = []
  /\ PDF.filename
       (Samples.exportPDF (fun _ => PDF.LoadError) Samples.ticketWithImage PDF.En)
     = "-Na1_en.pdf".
Proof.
  split; [reflexivity|]. split; [discriminate|].
  destruct (image_failure_keeps_export 210 297 (fun s _ => [s])
              (fun _ => "Jan 1, 2026") (fun _ => "$0.00") (fun _ => "1/1/2026")
              (fun _ => PDF.LoadError) (fun _ _ _ => "")
              Samples.ticketWithImage PDF.En "https://example.org/bolt.png"
              eq_refl ltac:(discriminate) eq_refl)
    as (_ & _ & Hnone & Hname & _).
  split; [exact Hnone|exact Hname].
Defined.

(** C9, counterexample.  With a failing image the document is not the
    one without the image block: the heading "Part Image" is there, with
    no image under it. *)
Lemma failed_image_leaves_heading :
  let failing := Samples.exportPDF (fun _ => PDF.LoadError) in
  PDF.boldTexts (PDF.content (failing Samples.ticketWithImage PDF.En))
  = PDF.boldTexts (PDF.content (failing (Types.withoutImage Samples.ticketWithImage) PDF.En))
    ++ [["Part Image"]]
  /\ List.filter PDF.isImage (PDF.content (failing Samples.ticketWithImage PDF.En)) = []
  /\ length (PDF.content (failing Samples.ticketWithImage PDF.En))
     = S (length (PDF.content (failing (Types.withoutImage Samples.ticketWithImage) PDF.En))).
Proof. by vm_compute. Qed.

(** ** Further properties *)

Section RoundTrip.
Import Types Firebase.

Lemma settle_fst (db : Database) (clock : Z) (w : World) :
  (settle (mkWorld db (faults w) clock)).1 = (settle w).1.
Proof. unfold settle. cbn. by destruct (faults w). Qed.

(** A ticket that the service has stored is the one that fetch-by-id
    returns for the id the service answered: it has the submitted
    fields, that id, and the time of the submission.  Both requests are
    taken to resolve. *)
Theorem submitted_ticket_is_fetched (pushKey : World -> string)
    (application : Draft.t) (w : World)
    (Hset : (settle w).1 = false)
    (Hget : (settle (settle w).2).1 = false) :
  let r := submitPartApplication pushKey application w in
  let stored := fullApplication application (pushKey w) (now w) in
  r.1 = Fulfilled (pushKey w)
  /\ (getPartApplication (pushKey w) r.2).1 = Fulfilled (Some stored)
  /\ ticket_id stored = pushKey w
  /\ created_at stored = now w
  /\ requested_by stored = Draft.requested_by application
  /\ department stored = Draft.department application
  /\ technical_specs stored = Draft.technical_specs application
  /\ status stored = Draft.status application.
Proof.
  intros r stored. subst r. rewrite submitPartApplication_run, Hset.
  cbn [fst snd]. split; [done|]. split; [|done].
  rewrite getPartApplication_run, settle_fst, Hget.
  cbn [database setPartApplication PartApplications].
  by rewrite lookup_insert_eq.
Qed.
End RoundTrip.

Lemma submitted_ticket_is_fetched_witness :
  (Firebase.settle Samples.world).1 = false
  /\ (Firebase.settle (Firebase.settle Samples.world).2).1 = false
  /\ (Firebase.getPartApplication "-Na3"
       (Firebase.submitPartApplication (fun _ => "-Na3")
          (Samples.draft "Carol" Types.Pending) Samples.world).2).1
     = Firebase.Fulfilled
         (Some (Samples.ticket "-Na3" "Carol" Types.Pending 1767225600000)).
Proof.
  split; [reflexivity|]. split; [reflexivity|].
  destruct (submitted_ticket_is_fetched (fun _ => "-Na3")
              (Samples.draft "Carol" Types.Pending) Samples.world
              eq_refl eq_refl)
    as (_ & Hfetched & _).
  exact Hfetched.
Defined.

Section SubstringSearch.
Import Types Firebase.
Variable toLowerCase : string -> string.

Lemma prefix_spec (t s : string) :
  String.prefix t s = true <-> exists post, s = t +:+ post.
Proof.
  revert s. induction t as [|c t IH]; intros s.
  - split; [|by destruct s]. intros _. by exists s.
  - destruct s as [|d s]; cbn [String.prefix].
    + split; [done|]. intros [post Hpost]. discriminate Hpost.
    + destruct (Ascii.ascii_dec c d) as [->|Hne].
      * rewrite IH. split; intros [post Hpost]; exists post.
        -- change (String d s = String d (t +:+ post)). by rewrite Hpost.
        -- change (String d s = String d (t +:+ post)) in Hpost. congruence.
      * split; [done|]. intros [post Hpost].
        change (String d s = String c (t +:+ post)) in Hpost. congruence.
Qed.

(** [includes] is containment as a contiguous substring. *)
Lemma includes_spec (s t : string) :
  JS.includes s t = true <-> exists pre post, s = pre +:+ t +:+ post.
Proof.
  induction s as [|c s IH]; cbn [JS.includes].
  - rewrite orb_false_r, prefix_spec. split.
    + intros [post Hpost]. by exists "", post.
    + intros ([|d pre] & post & Hpre); [by exists post|discriminate Hpre].
  - rewrite orb_true_iff, prefix_spec, IH. split.
    + intros [[post Hpost]|(pre & post & Hs)].
      * by exists "", post.
      * exists (String c pre), post.
        change (String c s = String c (pre +:+ t +:+ post)). by rewrite Hs.
    + intros ([|d pre] & post & Hpre).
      * left. by exists post.
      * right. exists pre, post.
        change (String c s = String d (pre +:+ t +:+ post)) in Hpre. congruence.
Qed.

(** A record matches the server-side search exactly when the lower-cased
    term occurs, as a substring, in the lower-cased part code, description
    or supplier name (a missing one counting as empty); every record that
    [searchParts] returns for a non-empty term is a record of the store
    that matches. *)
Theorem search_matches_substring (searchTerm : string) (limit : Z) (w : World)
    (entry : string * Part) :
  let contains (field : string) : Prop :=
    exists pre post,
      toLowerCase field = pre +:+ toLowerCase searchTerm +:+ post in
  (matchesSearch toLowerCase (toLowerCase searchTerm) entry = true <->
   contains entry.1 \/ contains (JS.orEmpty (SPRAS_EN entry.2))
   \/ contains (JS.orEmpty (Supplier_Name entry.2)))
  /\ forall result,
      searchTerm <> "" ->
      (searchParts toLowerCase searchTerm limit w).1 = Fulfilled result ->
      entry ∈ result ->
      entry ∈ material_summary_2025 (database w)
      /\ matchesSearch toLowerCase (toLowerCase searchTerm) entry = true.
Proof.
  intros contains. split.
  - unfold matchesSearch, contains.
    rewrite !orb_true_iff, !includes_spec. tauto.
  - intros result Hterm%truthy_true. rewrite searchParts_run, Hterm. cbn [fst].
    intros [= <-] (i & Hi%list_elem_of_lookup_2 & _)%elem_of_take.
    apply list_elem_of_In, filter_In in Hi as [Hin Hmatch]. split; [|done].
    destruct (settle w).1; [done|]. by apply list_elem_of_In.
Qed.
End SubstringSearch.

(** ** Page navigation *)

Section PageNavigation.
Import Navigation.

Lemma omap_all_some {A B : Type} (f : A -> option B) (g : A -> B) (l : list A) :
  (forall x, x ∈ l -> f x = Some (g x)) -> omap f l = g <$> l.
Proof.
  induction l as [|x l IH]; intros Hf; [done|].
  cbn. rewrite (Hf x) by (by left). cbn. f_equal. apply IH.
  intros y Hy. apply Hf. by right.
Qed.

Lemma arrayFrom_all_some {A : Type} (n : Z) (f : Z -> option A) (g : Z -> A) :
  (forall i, 0 <= i < n -> f i = Some (g i)) ->
  arrayFrom n f = (fun i => g (Z.of_nat i)) <$> seq 0 (Z.to_nat n).
Proof.
  intros Hf. unfold arrayFrom. apply omap_all_some.
  intros i Hi%elem_of_seq. apply Hf. lia.
Qed.

(** The numbered buttons of the catalogue page, for a current page
    within the pages: they are [min 5 totalPages] consecutive page
    numbers (the guard [page > totalPages] never drops one), all of them
    existing pages, and the current page is one of them.  The previous and
    next buttons stay within the pages too. *)
Theorem catalogue_page_window (totalPages currentPage : Z)
    (Hpage : 1 <= currentPage <= totalPages) :
  let start := Z.max 1 (Z.min (totalPages - 4) (currentPage - 2)) in
  cataloguePageButtons totalPages currentPage
  = (fun i => start + Z.of_nat i) <$> seq 0 (Z.to_nat (Z.min 5 totalPages))
  /\ currentPage ∈ cataloguePageButtons totalPages currentPage
  /\ (forall page, page ∈ cataloguePageButtons totalPages currentPage ->
                   1 <= page <= totalPages)
  /\ 1 <= previousPage currentPage <= totalPages
  /\ 1 <= nextPage totalPages currentPage <= totalPages.
Proof.
  intros start.
  assert (cataloguePageButtons totalPages currentPage
          = (fun i => start + Z.of_nat i) <$> seq 0 (Z.to_nat (Z.min 5 totalPages)))
    as Hbuttons.
  { unfold cataloguePageButtons. apply arrayFrom_all_some. intros i Hi.
    fold start. destruct (Z.ltb_spec totalPages (start + i)); [|done].
    subst start. lia. }
  split; [exact Hbuttons|]. rewrite Hbuttons. split_and!.
  - apply list_elem_of_fmap. exists (Z.to_nat (currentPage - start)).
    split; [subst start; lia|]. apply elem_of_seq. subst start. lia.
  - intros page (i & -> & Hi%elem_of_seq)%list_elem_of_fmap. subst start. lia.
  - unfold previousPage. lia.
  - unfold previousPage. lia.
  - unfold nextPage. lia.
  - unfold nextPage. lia.
Qed.

Lemma catalogue_page_window_witness :
  1 <= 7 <= 10
  /\ cataloguePageButtons 10 7 = [5; 6; 7; 8; 9]
  /\ 7 ∈ cataloguePageButtons 10 7.
Proof.
  split; [lia|]. split; [reflexivity|].
  destruct (catalogue_page_window 10 7 ltac:(lia)) as (_ & Hin & _).
  exact Hin.
Defined.

(** On the summary page, for a current page within the pages: the range
    "Showing [from] to [to]" has as many rows as the page that is shown;
    the numbered buttons are the pages 1 to 5 and the last page, so the
    current page has a button exactly when it is one of the first five
    pages or the last one; and previous and next stay within the pages. *)
Theorem summary_showing_range {A : Type} (l : list A) (currentPage : Z)
    (Hpage : 1 <= currentPage <= Summary.totalPages l) :
  showingTo l currentPage - showingFrom currentPage + 1
  = Z.of_nat (length (Summary.paginatedParts l currentPage))
  /\ showingFrom currentPage <= showingTo l currentPage
  /\ (currentPage ∈ summaryPageButtons (Summary.totalPages l) <->
      currentPage <= 5 \/ currentPage = Summary.totalPages l)
  /\ 1 <= previousPage currentPage <= Summary.totalPages l
  /\ 1 <= nextPage (Summary.totalPages l) currentPage <= Summary.totalPages l.
Proof.
  pose proof (totalPages_bounds l) as Hbounds.
  change (Catalogue.totalPages l) with (Summary.totalPages l) in Hbounds.
  set (T := Summary.totalPages l) in *.
  assert (length (Summary.paginatedParts l currentPage)
          = Z.to_nat (showingTo l currentPage - showingFrom currentPage + 1))
    as Hlen.
  { change (Summary.paginatedParts l currentPage)
      with (Catalogue.paginatedParts l currentPage).
    rewrite paginatedParts_take_drop by lia.
    rewrite length_take, length_drop.
    unfold showingTo, showingFrom, Summary.itemsPerPage. lia. }
  assert (summaryPageButtons T
          = ((fun i => Z.of_nat i + 1) <$> seq 0 (Z.to_nat (Z.min 5 T)))
            ++ (if 5 <? T then [T] else [])) as Hbuttons.
  { unfold summaryPageButtons.
    by rewrite (arrayFrom_all_some _ _ (fun i => i + 1)). }
  split_and!.
  - rewrite Hlen. unfold showingTo, showingFrom, Summary.itemsPerPage. lia.
  - unfold showingTo, showingFrom, Summary.itemsPerPage. lia.
  - rewrite Hbuttons, elem_of_app, list_elem_of_fmap. split.
    + intros [(i & -> & Hi%elem_of_seq)|Hlast]; [left; lia|].
      destruct (5 <? T); [|by apply elem_of_nil in Hlast].
      apply list_elem_of_singleton in Hlast. by right.
    + intros [Hfirst|Hlast].
      * left. exists (Z.to_nat (currentPage - 1)). split; [lia|].
        apply elem_of_seq. lia.
      * destruct (Z.ltb_spec 5 T).
        -- right. apply list_elem_of_singleton. done.
        -- left. exists (Z.to_nat (currentPage - 1)). split; [lia|].
           apply elem_of_seq. lia.
  - unfold previousPage. lia.
  - unfold previousPage. lia.
  - unfold nextPage. lia.
  - unfold nextPage. lia.
Qed.

Lemma summary_showing_range_witness :
  1 <= 2 <= Summary.totalPages (replicate 120 tt)
  /\ showingFrom 2 = 51
  /\ showingTo (replicate 120 tt) 2 = 100
  /\ showingTo (replicate 120 tt) 2 - showingFrom 2 + 1
     = Z.of_nat (length (Summary.paginatedParts (replicate 120 tt) 2)).
Proof.
  assert (1 <= 2 <= Summary.totalPages (replicate 120 tt)) as Hpage
    by (vm_compute; split; discriminate).
  split; [exact Hpage|]. split; [reflexivity|]. split; [reflexivity|].
  destruct (summary_showing_range (replicate 120 tt) 2 Hpage) as (Hrange & _).
  exact Hrange.
Defined.
End PageNavigation.

(** ** Filter options and statistics *)

Section FilterOptions.
Import Types Options.

Lemma setAdd_elem (set : list string) (name s : string) :
  s ∈ setAdd set name <-> s ∈ set \/ s = name.
Proof.
  unfold setAdd. case_bool_decide as Hin.
  - split; [by left|]. by intros [?| ->].
  - rewrite elem_of_app, list_elem_of_singleton. done.
Qed.

Lemma setAdd_NoDup (set : list string) (name : string) :
  NoDup set -> NoDup (setAdd set name).
Proof.
  intros Hnd. unfold setAdd. case_bool_decide as Hin; [done|].
  apply NoDup_app. split_and!; [done| |apply NoDup_singleton].
  intros s Hs ->%list_elem_of_singleton. done.
Qed.



Lemma foldl_countMargin (parts : list Part) (acc : Dashboard.MarginStats) :
  let margin part := JS.orZero (Dealer_vs_Std part) in
  let stats := foldl Dashboard.countMargin acc parts in
  Dashboard.positiveMargin stats
  = Dashboard.positiveMargin acc
    + Z.of_nat (length (List.filter (fun part => 0 <? margin part) parts))
  /\ Dashboard.negativeMargin stats
     = Dashboard.negativeMargin acc
       + Z.of_nat (length (List.filter (fun part => margin part <? 0) parts))
  /\ Dashboard.zeroMargin stats
     = Dashboard.zeroMargin acc
       + Z.of_nat (length (List.filter (fun part => margin part =? 0) parts)).
Proof.
  revert acc. induction parts as [|part parts IH]; intros acc; cbn.
  - lia.
  - destruct (IH (Dashboard.countMargin acc part)) as (Hp & Hn & Hz).
    rewrite Hp, Hn, Hz. unfold Dashboard.countMargin.
    destruct (Z.ltb_spec 0 (JS.orZero (Dealer_vs_Std part))),
      (Z.ltb_spec (JS.orZero (Dealer_vs_Std part)) 0),
      (Z.eqb_spec (JS.orZero (Dealer_vs_Std part)) 0); cbn; lia.
Qed.

Lemma matchesMargin_cases (part : Part) :
  let margin := JS.orZero (Dealer_vs_Std part) in
  Summary.matchesMargin "positive" part = (0 <? margin)
  /\ Summary.matchesMargin "negative" part = (margin <? 0)
  /\ Summary.matchesMargin "zero" part = (margin =? 0)
  /\ Summary.matchesMargin "all" part = true.
Proof.
  unfold Summary.matchesMargin. cbn.
  by destruct (0 <? _), (_ <? 0), (_ =? 0).
Qed.

Lemma filter_ext_bool {A : Type} (P Q : A -> bool) (l : list A) :
  (forall x, P x = Q x) -> List.filter P l = List.filter Q l.
Proof.
  intros HPQ. induction l as [|x l IH]; cbn; [done|]. by rewrite HPQ, IH.
Qed.

(** The counts shown beside the margin options: the three of them add
    up to the number of loaded parts, and each one is the number of rows
    that the list has once its option is selected, with no search term
    and every supplier, whatever the sort. *)
Theorem margin_counts_match_filter
    (localeCompare : string -> string -> Z) (toLowerCase : string -> string)
    (Number_of_string : string -> option Z)
    (parts : list Part) (sortField : Summary.Field)
    (sortDirection : Summary.SortDirection) :
  let stats := Dashboard.marginStats parts in
  let shown option :=
    Summary.filteredAndSortedParts localeCompare toLowerCase Number_of_string
      parts "" "all" option sortField sortDirection in
  Dashboard.positiveMargin stats + Dashboard.negativeMargin stats
  + Dashboard.zeroMargin stats = Z.of_nat (length parts)
  /\ Dashboard.positiveMargin stats = Z.of_nat (length (shown "positive"))
  /\ Dashboard.negativeMargin stats = Z.of_nat (length (shown "negative"))
  /\ Dashboard.zeroMargin stats = Z.of_nat (length (shown "zero"))
  /\ length (shown "all") = length parts.
Proof.
  intros stats shown.
  destruct (foldl_countMargin parts (Dashboard.mkMarginStats 0 0 0))
    as (Hp & Hn & Hz).
  fold (Dashboard.marginStats parts) in Hp, Hn, Hz. fold stats in Hp, Hn, Hz.
  cbn in Hp, Hn, Hz.
  assert (forall option test,
            (forall part, Summary.matchesMargin option part = test part) ->
            length (shown option) = length (List.filter test parts)) as Hshown.
  { intros option test Htest. unfold shown, Summary.filteredAndSortedParts.
    rewrite sort_length. f_equal. apply filter_ext_bool. intros part.
    rewrite Htest. unfold Summary.matchesSearch, Summary.matchesSupplier.
    by cbn. }
  rewrite (Hshown "positive" (fun part => 0 <? JS.orZero (Dealer_vs_Std part)))
    by (intros; apply matchesMargin_cases).
  rewrite (Hshown "negative" (fun part => JS.orZero (Dealer_vs_Std part) <? 0))
    by (intros; apply matchesMargin_cases).
  rewrite (Hshown "zero" (fun part => JS.orZero (Dealer_vs_Std part) =? 0))
    by (intros; apply matchesMargin_cases).
  rewrite (Hshown "all" (fun _ => true))
    by (intros; apply matchesMargin_cases).
  split_and!; try done.
  - rewrite Hp, Hn, Hz. clear. induction parts as [|part parts IH]; cbn; [done|].
    destruct (Z.ltb_spec 0 (JS.orZero (Dealer_vs_Std part))),
      (Z.ltb_spec (JS.orZero (Dealer_vs_Std part)) 0),
      (Z.eqb_spec (JS.orZero (Dealer_vs_Std part)) 0); cbn; lia.
  - f_equal. by apply filter_all_true.
Qed.
End FilterOptions.

(** ** The admin list *)

Section AdminFilter.
Import Types Firebase.
Variable toLowerCase : string -> string.


End AdminFilter.


(** ** The image with fallbacks *)

Section ImageSources.
Import ImageFallback.
Variable encodeURIComponent : string -> string.

(** The state after [n] load errors in a row. *)
Lemma handleError_iter (src : string) (fallbackSrcs : list string) (n : nat) :
  let allSrcs := src :: fallbackSrcs in
  Nat.iter n (handleError allSrcs) (initial src)
  = if (n <? length allSrcs)%nat
    then mkState (default "" (allSrcs !! n)) false n
    else mkState (default "" (allSrcs !! length fallbackSrcs)) true
           (length fallbackSrcs).
Proof.
  intros allSrcs. induction n as [|n IH]; [done|].
  rewrite Nat.iter_succ, IH. unfold handleError.
  assert (length allSrcs = S (length fallbackSrcs)) as Hlen by done.
  destruct (Nat.ltb_spec n (length allSrcs)) as [Hn|Hn];
    cbn [attempts currentSrc hasError].
  - replace (n + 1)%nat with (S n) by lia.
    destruct (Nat.ltb_spec (S n) (length allSrcs)) as [HSn|HSn]; [done|].
    by replace n with (length fallbackSrcs) by lia.
  - destruct (Nat.ltb_spec (length fallbackSrcs + 1) (length allSrcs)); [lia|].
    destruct (Nat.ltb_spec (S n) (length allSrcs)); [lia|done].
Qed.

(** The component shows the sources one after the other, each one at
    most once and in the order [src], [fallbackSrcs]: after [n] load errors
    it shows the source of index [n], and the placeholder "No Image" once
    every source has failed, from which no further error leads away.  On
    the catalogue page the sources of a part are its .png, .jpg and .webp
    addresses, in this order. *)
Theorem image_sources_tried_in_order (src : string) (fallbackSrcs : list string)
    (material : string) (n : nat) :
  let allSrcs := src :: fallbackSrcs in
  let after (srcs : list string) (first : string) (k : nat) :=
    render (Nat.iter k (handleError srcs) (initial first)) in
  (forall s, allSrcs !! n = Some s -> after allSrcs src n = Img s)
  /\ ((length allSrcs <= n)%nat -> after allSrcs src n = NoImage)
  /\ catalogueSrcs encodeURIComponent material
     = getPartImageUrlWithFallback encodeURIComponent material
  /\ after (catalogueSrcs encodeURIComponent material)
       (getPartImageUrl encodeURIComponent material) n
     = match getPartImageUrlWithFallback encodeURIComponent material !! n with
       | Some url => Img url
       | None => NoImage
       end.
Proof.
  intros allSrcs after.
  assert (forall first rest k,
            after (first :: rest) first k
            = match (first :: rest) !! k with
              | Some s => Img s
              | None => NoImage
              end) as Hafter.
  { intros first rest k. unfold after. rewrite handleError_iter.
    destruct (Nat.ltb_spec k (length (first :: rest))) as [Hk|Hk].
    - destruct (lookup_lt_is_Some_2 (first :: rest) k Hk) as [s Hs].
      by rewrite Hs.
    - by rewrite (lookup_ge_None_2 (first :: rest) k) by lia. }
  split_and!.
  - intros s Hs. pose proof (Hafter src fallbackSrcs n) as Hn.
    fold allSrcs in Hn. by rewrite Hs in Hn.
  - intros Hlen. pose proof (Hafter src fallbackSrcs n) as Hn.
    fold allSrcs in Hn. by rewrite (lookup_ge_None_2 allSrcs n) in Hn by lia.
  - reflexivity.
  - apply (Hafter (getPartImageUrl encodeURIComponent material)).
Qed.
End ImageSources.

(** ** The BoM reference page *)

Section BomService.
Import Types Firebase Bom.
Variable BoM : Database -> string -> option (list (string * RawChild)).

Lemma addComponent_acc (children : list (string * RawChild)) (acc : Components) :
  foldl addComponent acc children = acc ++ foldl addComponent [] children.
Proof.
  revert acc. induction children as [|child children IH]; intros acc; cbn.
  - by rewrite app_nil_r.
  - rewrite (IH (addComponent acc child)), (IH (addComponent [] child)).
    unfold addComponent. destruct child.2; [|done]. by rewrite <- app_assoc.
Qed.

Lemma getBoMComponents_run (modelWithMY : string) (w : World) :
  getBoMComponents BoM modelWithMY w
  = (Fulfilled
       (foldl addComponent []
          (if (settle w).1 then []
           else default [] (BoM (database w) modelWithMY))),
     (settle w).2).
Proof.
  unfold getBoMComponents, tryCatch, bind, ret. rewrite get_run.
  destruct (settle w).1; [done|]. by destruct (BoM (database w) modelWithMY).
Qed.

(** [getBoMComponents] is always fulfilled and writes nothing.  Its
    components are those children of [BoM/<model>] that are objects, in the
    order of the children and under the same keys; each component carries
    its key as [Component_Material], and the empty string or 0 for a
    property that the child does not have.  When the location does not
    exist, or the request is rejected, there is no component. *)
Theorem bom_components_keyed (modelWithMY : string) (w : World) :
  let children :=
    if (settle w).1 then [] else default [] (BoM (database w) modelWithMY) in
  let isObject (child : string * RawChild) : bool :=
    match child.2 with RawObject _ _ _ => true | RawOther => false end in
  exists components,
    (getBoMComponents BoM modelWithMY w).1 = Fulfilled components
    /\ database (getBoMComponents BoM modelWithMY w).2 = database w
    /\ components.*1 = (List.filter isObject children).*1
    /\ (forall code comp,
          (code, comp) ∈ components <->
          exists description price supplier,
            (code, RawObject description price supplier) ∈ children
            /\ comp = mkBoMComponent code (JS.orEmpty description)
                        (JS.orZero price) (JS.orEmpty supplier))
    /\ (children = [] -> components = []).
Proof.
  intros children isObject. rewrite getBoMComponents_run. fold children.
  cbn [fst snd]. eexists. split; [reflexivity|].
  split; [apply settle_database|]. clearbody children. split_and!.
  - induction children as [|[code raw] children IH]; [done|].
    cbn [foldl List.filter]. rewrite addComponent_acc.
    unfold addComponent at 2, isObject at 1. cbn [fst snd].
    destruct raw; [|done]. cbn. fold addComponent. by rewrite IH.
  - intros code comp. induction children as [|[code' raw] children IH].
    + cbn. split; [by intros ?%elem_of_nil|].
      by intros (? & ? & ? & ?%elem_of_nil & _).
    + cbn [foldl]. rewrite addComponent_acc, elem_of_app, IH.
      unfold addComponent. cbn [fst snd]. split.
      * intros [Hhead|(d & p & s & Hin & ->)].
        -- destruct raw as [d p s|]; [|by apply elem_of_nil in Hhead].
           apply list_elem_of_singleton in Hhead as [= -> ->].
           exists d, p, s. split; [by left|done].
        -- exists d, p, s. split; [by right|done].
      * intros (d & p & s & [[= -> <-]|Hin]%elem_of_cons & ->).
        -- left. by apply list_elem_of_singleton.
        -- right. by exists d, p, s.
  - by intros ->.
Qed.

End BomService.

Section BomLookup.
Import Types Firebase Bom.
Variable toLowerCase : string -> string.

Lemma prefix_refl (s : string) : String.prefix s s = true.
Proof.
  induction s as [|c s IH]; [done|]. cbn.
  by destruct (Ascii.ascii_dec c c).
Qed.

Lemma includes_refl (s : string) : JS.includes s s = true.
Proof. destruct s; cbn [JS.includes]; by rewrite prefix_refl. Qed.

(** A part matches the search for its own code. *)
Lemma matchesSearch_own_code (material : string) (part : Part) :
  matchesSearch toLowerCase (toLowerCase material) (material, part) = true.
Proof. unfold matchesSearch. cbn [fst]. by rewrite includes_refl. Qed.

Lemma property_cons {A : Type} (entry : string * A) (entries : list (string * A))
    (key : string) :
  property (entry :: entries) key
  = if bool_decide (entry.1 = key) then Some entry.2 else property entries key.
Proof. unfold property. cbn [List.find]. by case_bool_decide. Qed.

(** The first match of a search is the part with the code looked for
    exactly when no earlier record of the store matches. *)
Lemma property_first_match (match_ : string * Part -> bool) (store : Entries)
    (material : string) (part : Part) :
  (forall p, match_ (material, p) = true) ->
  property (take 1 (List.filter match_ store)) material = Some part <->
  exists pre post,
    store = pre ++ (material, part) :: post
    /\ Forall (fun entry => match_ entry = false) pre.
Proof.
  intros Hown. induction store as [|[code p] store IH].
  - cbn. split; [done|]. intros ([|? ?] & ? & ? & _); discriminate.
  - cbn [List.filter]. destruct (match_ (code, p)) eqn:Hmatch.
    + cbn [take]. rewrite property_cons. cbn [fst snd]. rewrite take_0.
      case_bool_decide as Hcode.
      * split.
        -- intros [= ->]. subst code. exists [], store. by split.
        -- intros ([|entry pre] & post & Hstore & Hpre).
           ++ by injection Hstore as -> ->.
           ++ injection Hstore as <- _. apply Forall_cons in Hpre as [Hentry _].
              congruence.
      * split; [done|]. intros ([|entry pre] & post & Hstore & Hpre).
        -- by injection Hstore as -> ->.
        -- injection Hstore as <- _. apply Forall_cons in Hpre as [Hentry _].
           congruence.
    + rewrite IH. split.
      * intros (pre & post & -> & Hpre). exists ((code, p) :: pre), post.
        split; [done|]. by apply Forall_cons.
      * intros ([|entry pre] & post & Hstore & Hpre).
        -- injection Hstore as -> ->. by rewrite Hown in Hmatch.
        -- injection Hstore as _ ->. apply Forall_cons in Hpre as [_ Hpre].
           by exists pre, post.
Qed.

Lemma settle_no_fault (w : World) : faults w = [] -> settle w = (false, w).
Proof. unfold settle. by intros ->. Qed.

Lemma lookupPart_run (material : string) (w : World) :
  faults w = [] ->
  lookupPart toLowerCase material w
  = (Fulfilled
       (property
          (take 1
             (if JS.truthy material
              then List.filter (matchesSearch toLowerCase (toLowerCase material))
                     (material_summary_2025 (database w))
              else material_summary_2025 (database w)))
          material),
     w).
Proof.
  intros Hok. unfold lookupPart, tryCatch, bind, ret.
  by rewrite searchParts_run, (settle_no_fault w Hok).
Qed.

Lemma loadParts_run (materials : list string) (partsData : Entries) (w : World) :
  faults w = [] ->
  loadParts toLowerCase materials partsData w
  = (Fulfilled
       (partsData
        ++ omap (fun material =>
                   pair material
                   <$> match (lookupPart toLowerCase material w).1 with
                       | Fulfilled found => found
                       | Thrown => None
                       end)
             materials),
     w).
Proof.
  intros Hok. revert partsData.
  induction materials as [|material materials IH]; intros partsData.
  - cbn. by rewrite app_nil_r.
  - cbn [loadParts omap list_omap]. unfold bind at 1.
    rewrite (lookupPart_run material w Hok). cbn [fst].
    destruct (property _ material) as [part|]; cbn [fmap option_fmap option_map].
    + by rewrite IH, <- app_assoc.
    + apply IH.
Qed.

Lemma property_omap {A : Type} (found : string -> option A)
    (materials : list string) (key : string) :
  property (omap (fun material => pair material <$> found material) materials) key
  = if bool_decide (key ∈ materials) then found key else None.
Proof.
  induction materials as [|material materials IH]; [done|].
  cbn [omap list_omap]. destruct (decide (material = key)) as [->|Hne].
  - rewrite (bool_decide_eq_true_2 (key ∈ key :: materials)) by by left.
    destruct (found key) as [a|] eqn:Hfound; cbn [fmap option_fmap option_map].
    + rewrite property_cons. cbn [fst snd]. by rewrite bool_decide_eq_true_2.
    + rewrite IH. by case_bool_decide.
  - assert (bool_decide (key ∈ material :: materials)
            = bool_decide (key ∈ materials)) as ->.
    { apply bool_decide_ext. rewrite elem_of_cons. split; [|by right].
      by intros [->|?]. }
    destruct (found material) as [a|]; cbn [fmap option_fmap option_map]; [|done].
    rewrite property_cons. cbn [fst]. by rewrite bool_decide_eq_false_2.
Qed.

Lemma unique_spec (codes : list string) :
  NoDup (unique codes) /\ forall code, code ∈ unique codes <-> code ∈ codes.
Proof.
  unfold unique.
  assert (forall acc, NoDup acc ->
            NoDup (foldl Options.setAdd acc codes)
            /\ forall code, code ∈ foldl Options.setAdd acc codes
                            <-> code ∈ acc \/ code ∈ codes) as Hgen.
  { induction codes as [|c codes IH]; intros acc Hacc; cbn.
    - split; [done|]. intros code. rewrite elem_of_nil. tauto.
    - destruct (IH _ (setAdd_NoDup acc c Hacc)) as [Hnd Hiff].
      split; [done|]. intros code.
      rewrite Hiff, setAdd_elem, elem_of_cons. tauto. }
  destruct (Hgen [] (NoDup_nil_2 (A := string))) as [Hnd Hiff].
  split; [done|]. intros code. rewrite Hiff, elem_of_nil. tauto.
Qed.

(** The part data that the BoM page loads for its components, every
    request resolving.  Each code of a component is looked up once, by a
    search for the code with limit 1; the part of the store with that code
    is attached to the component exactly when no earlier record of the
    store matches the search for the code (in its own code, description or
    supplier name); otherwise the component is left without part data.  A
    part that is attached is the record of the store under that code, and
    the store is left as it is. *)
Theorem bom_parts_loaded (bomData : Components) (material : string) (part : Part)
    (w : World) (Hok : faults w = []) (Hcode : material <> "") :
  let store := material_summary_2025 (database w) in
  let uniqueMaterials := unique (map Component_Material bomData.*2) in
  exists partsData,
    loadParts toLowerCase uniqueMaterials [] w = (Fulfilled partsData, w)
    /\ NoDup uniqueMaterials
    /\ (property partsData material = Some part <->
        (exists comp, comp ∈ bomData.*2 /\ Component_Material comp = material)
        /\ exists pre post,
             store = pre ++ (material, part) :: post
             /\ Forall
                  (fun entry =>
                     matchesSearch toLowerCase (toLowerCase material) entry = false)
                  pre)
    /\ (property partsData material = Some part -> (material, part) ∈ store).
Proof.
  intros store uniqueMaterials.
  destruct (unique_spec (map Component_Material bomData.*2)) as [Hnd Hmem].
  fold uniqueMaterials in Hnd, Hmem.
  rewrite (loadParts_run uniqueMaterials [] w Hok). eexists.
  split; [reflexivity|]. split; [done|]. rewrite app_nil_l.
  rewrite (property_omap
             (fun material =>
                match (lookupPart toLowerCase material w).1 with
                | Fulfilled found => found
                | Thrown => None
                end)).
  rewrite (lookupPart_run material w Hok). cbn [fst]. fold store.
  apply truthy_true in Hcode. rewrite Hcode.
  pose proof (property_first_match
                (matchesSearch toLowerCase (toLowerCase material)) store material
                part (matchesSearch_own_code material)) as Hfirst.
  assert (material ∈ uniqueMaterials
          <-> exists comp, comp ∈ bomData.*2 /\ Component_Material comp = material)
    as Hcomp.
  { rewrite Hmem, list_elem_of_fmap. split.
    - intros (comp & -> & Hcomp). by exists comp.
    - intros (comp & Hcomp & <-). by exists comp. }
  split.
  - case_bool_decide as Hin.
    + rewrite Hfirst, <- Hcomp. tauto.
    + rewrite <- Hcomp. split; [done|tauto].
  - case_bool_decide as Hin; [|done].
    intros (pre & post & -> & _)%Hfirst.
    apply elem_of_app. right. by left.
Qed.
End BomLookup.

Lemma bom_parts_loaded_witness :
  Firebase.faults Samples.world = []
  /\ "A-100" <> ""
  /\ exists partsData,
       Bom.loadParts Samples.asciiLower
         (Bom.unique (map Bom.Component_Material Samples.bomComponents.*2)) []
         Samples.world
       = (Firebase.Fulfilled partsData, Samples.world)
       /\ Bom.property partsData "A-100" = Some (Samples.priced "Bolt" 100 7).
Proof.
  split; [reflexivity|]. split; [discriminate|].
  destruct (bom_parts_loaded Samples.asciiLower Samples.bomComponents "A-100"
              (Samples.priced "Bolt" 100 7) Samples.world eq_refl
              ltac:(discriminate))
    as (partsData & Hrun & _ & Hiff & _).
  exists partsData. split; [exact Hrun|]. apply Hiff. split.
  - exists (Bom.mkBoMComponent "A-100" "Bolt M8" 100 "").
    split; [|reflexivity]. apply list_elem_of_In. left. reflexivity.
  - exists [("B-200", Samples.priced "Acme" 300 0)],
      [("C-300", Samples.priced "Acme" 300 2); ("D-400", Samples.priced "Bolt" 250 0)].
    split; [reflexivity|]. apply Forall_cons. split; [reflexivity|apply Forall_nil_2].
Defined.

Section BomFilter.
Import Types Firebase Bom.
Variable toLowerCase : string -> string.
Variable localeCompare : string -> string -> Z.

Lemma elem_of_filter_bool {A : Type} (f : A -> bool) (l : list A) (x : A) :
  x ∈ List.filter f l <-> x ∈ l /\ f x = true.
Proof. by rewrite !list_elem_of_In, filter_In. Qed.



End BomFilter.

(** ** The size of the embedded image *)

Section ImageScaling.
Import PDF.
Variable pageWidth : Q.
Variable toDataURL : string -> Q -> Q -> string.

Lemma Qgtb_true (a b : Q) : Qgtb a b = true -> (b < a)%Q.
Proof.
  unfold Qgtb. intros Hgt%negb_true_iff. apply Qnot_le_lt.
  intros Hle%Qle_bool_iff. congruence.
Qed.

Lemma Qgtb_false (a b : Q) : Qgtb a b = false -> (a <= b)%Q.
Proof. unfold Qgtb. intros Hle%negb_false_iff. by apply Qle_bool_iff. Qed.

(** An image that has loaded, of positive width and height, is embedded
    at the left margin and the current height with a size that fits: at
    most the content width wide and at most 80 mm high, with the aspect
    ratio of the image; an image that fits already keeps its size.  The
    cursor is not moved past the image. *)
Theorem embedded_image_fits (url : string) (width height : Q) (l : Layout)
    (Hwidth : (0 < width)%Q) (Hheight : (0 < height)%Q)
    (Hpage : (0 < contentWidth pageWidth)%Q) :
  exists imgData w h,
    items (embed pageWidth toDataURL url width height l)
    = items l ++ [Image imgData margin (yPosition l) w h]
    /\ imgData = toDataURL url (w * (378 # 100))%Q (h * (378 # 100))%Q
    /\ (0 < w)%Q /\ (0 < h)%Q
    /\ (w <= contentWidth pageWidth)%Q /\ (h <= 80)%Q
    /\ (w * height == h * width)%Q
    /\ ((width <= contentWidth pageWidth)%Q -> (height <= 80)%Q ->
        w = width /\ h = height)
    /\ yPosition (embed pageWidth toDataURL url width height l) = yPosition l.
Proof.
  unfold embed. set (maxWidth := contentWidth pageWidth) in *.
  assert (width / height * height == width)%Q as Hratio by (field; lra).
  set (aspectRatio := (width / height)%Q) in *.
  assert (maxWidth / aspectRatio * aspectRatio == maxWidth)%Q as Hscaled.
  { field. intros Hzero. rewrite Hzero in Hratio. lra. }
  destruct (Qgtb width maxWidth) eqn:Hwide;
    [apply Qgtb_true in Hwide|apply Qgtb_false in Hwide].
  - set (scaled := (maxWidth / aspectRatio)%Q) in *.
    destruct (Qgtb scaled 80) eqn:Hhigh;
      [apply Qgtb_true in Hhigh|apply Qgtb_false in Hhigh];
      cbn [addImage items yPosition]; do 3 eexists;
      (split; [reflexivity|]); (split; [reflexivity|]);
      split_and!; try done; try nra; intros; lra.
  - destruct (Qgtb height 80) eqn:Hhigh;
      [apply Qgtb_true in Hhigh|apply Qgtb_false in Hhigh];
      cbn [addImage items yPosition]; do 3 eexists;
      (split; [reflexivity|]); (split; [reflexivity|]);
      split_and!; try done; try nra; intros; lra.
Qed.
End ImageScaling.

Lemma embedded_image_fits_witness :
  (0 < 400)%Q /\ (0 < 300)%Q /\ (0 < PDF.contentWidth 210)%Q
  /\ exists imgData w h,
       PDF.items (PDF.embed 210 (fun _ _ _ => "jpeg") "bolt.png" 400 300 PDF.blank)
       = [PDF.Image imgData PDF.margin PDF.margin w h]
       /\ (w <= 170)%Q /\ (h <= 80)%Q.
Proof.
  assert (0 < 400)%Q as Hwidth by reflexivity.
  assert (0 < 300)%Q as Hheight by reflexivity.
  assert (0 < PDF.contentWidth 210)%Q as Hpage by reflexivity.
  split; [exact Hwidth|]. split; [exact Hheight|]. split; [exact Hpage|].
  destruct (embedded_image_fits 210 (fun _ _ _ => "jpeg") "bolt.png" 400 300
              PDF.blank Hwidth Hheight Hpage)
    as (imgData & w & h & Hitems & _ & _ & _ & Hw & Hh & _).
  exists imgData, w, h. split; [exact Hitems|]. split; [exact Hw|exact Hh].
Defined.

(** ** Saving on the admin page, and rejected requests *)

Section AdminSave.
Import Firebase.
Variable trim : string -> string.

Lemma handleSavePartData_run (st : Admin.PageState) (material : string) (w : World) :
  Admin.selectedPart st = Some material ->
  let updates := Admin.updatesOf trim st in
  let st1 := Admin.setIsSaving true st in
  Admin.handleSavePartData trim st w
  = match updatePartData material updates w with
    | (Fulfilled _, w') =>
        (Fulfilled
           (Admin.setIsSaving false
              (Admin.showMessage Admin.Success
                 ("Part data updated successfully for " +:+ material)
                 (Admin.setParts
                    (fun prev =>
                       <[material := spread (default ∅ (prev !! material)) updates]>
                         prev)
                    st1))),
         w')
    | (Thrown, w') =>
        (Fulfilled
           (Admin.setIsSaving false
              (Admin.showMessage Admin.Error "Failed to update part data" st1)),
         w')
    end.
Proof.
  intros Hsel. unfold Admin.handleSavePartData. rewrite Hsel.
  unfold bind, tryCatch, ret. cbn zeta.
  change (Admin.updatesOf trim (Admin.setIsSaving true st))
    with (Admin.updatesOf trim st).
  by destruct (updatePartData material (Admin.updatesOf trim st) w) as [[[]|] w'].
Qed.

(** Saving on the admin page, with a part selected whose stored record
    holds no [undefined].  The handler never rejects and ends with
    [isSaving] off; it touches neither the catalogue records nor the
    tickets.  The save goes through when the read resolves, none of the
    four inputs is blank once trimmed, and the write resolves: the success
    message is shown and the payload is merged into the local copy of the
    part as it is merged into the stored record, so that the two agree on
    the four admin fields.  In every other case, a blank input among
    them, since its [undefined] makes [set] throw, the error message is
    shown and both the local parts and the database are as they were. *)
Theorem admin_save_outcome (st : Admin.PageState) (material : string) (w : World)
    (Hsel : Admin.selectedPart st = Some material)
    (Hstored : holdsUndefined (default ∅ (Parts (database w) !! material)) = false) :
  let updates := Admin.updatesOf trim st in
  let result := Admin.handleSavePartData trim st w in
  let filled :=
    trim (Admin.notes st) <> "" /\ trim (Admin.year st) <> ""
    /\ trim (Admin.obsoletedDate st) <> ""
    /\ trim (Admin.alternativeParts st) <> "" in
  let saved :=
    (settle w).1 = false /\ filled /\ (settle (settle w).2).1 = false in
  exists st',
    result.1 = Fulfilled st'
    /\ Admin.isSaving st' = false
    /\ Admin.selectedPart st' = Some material
    /\ material_summary_2025 (database result.2) = material_summary_2025 (database w)
    /\ PartApplications (database result.2) = PartApplications (database w)
    /\ (saved ->
        Admin.message st'
        = Some (Admin.Success, "Part data updated successfully for " +:+ material)
        /\ Admin.parts st'
           = <[material := spread (default ∅ (Admin.parts st !! material)) updates]>
               (Admin.parts st)
        /\ Parts (database result.2)
           = <[material := spread (default ∅ (Parts (database w) !! material)) updates]>
               (Parts (database w))
        /\ forall local stored k,
             Admin.parts st' !! material = Some local ->
             Parts (database result.2) !! material = Some stored ->
             k ∈ Admin.adminFields -> local !! k = stored !! k)
    /\ (~ saved ->
        Admin.message st' = Some (Admin.Error, "Failed to update part data")
        /\ Admin.parts st' = Admin.parts st
        /\ database result.2 = database w).
Proof.
  intros updates result filled saved. subst result saved.
  assert (holdsUndefined
            (spread (default ∅ (Parts (database w) !! material)) updates) = false
          <-> filled) as Hfilled.
  { subst filled updates. rewrite <- updatesOf_defined. split.
    - intros Hmerged.
      destruct (holdsUndefined (Admin.updatesOf trim st)) eqn:Hpayload; [|done].
      pose proof (proj1 (holdsUndefined_spread
                           (default ∅ (Parts (database w) !! material))
                           (Admin.updatesOf trim st)) Hpayload) as Hthrown.
      rewrite Hthrown in Hmerged. discriminate Hmerged.
    - intros Hpayload.
      exact (proj2 (holdsUndefined_spread
                      (default ∅ (Parts (database w) !! material))
                      (Admin.updatesOf trim st)) Hstored Hpayload). }
  clear Hstored.
  rewrite (handleSavePartData_run st material w Hsel), updatePartData_run.
  fold updates.
  destruct (settle w).1 eqn:Hget;
    [|destruct (holdsUndefined
                  (spread (default ∅ (Parts (database w) !! material)) updates))
        eqn:Hvalid;
      [|destruct (settle (settle w).2).1 eqn:Hset]].
  - eexists. split; [reflexivity|]. cbn. rewrite settle_database.
    split_and!; [reflexivity|exact Hsel|reflexivity|reflexivity| |done]. by intros [? _].
  - eexists. split; [reflexivity|]. cbn. rewrite settle_database.
    split_and!; [reflexivity|exact Hsel|reflexivity|reflexivity| |done]. intros (_ & Hall & _).
    apply Hfilled in Hall. congruence.
  - eexists. split; [reflexivity|]. cbn. rewrite !settle_database.
    split_and!; [reflexivity|exact Hsel|reflexivity|reflexivity| |done]. by intros (_ & _ & ?).
  - eexists. split; [reflexivity|]. cbn.
    split_and!; [reflexivity|exact Hsel|reflexivity|reflexivity| |].
    + intros _. split_and!; [reflexivity..|].
      intros local stored k. rewrite !lookup_insert_eq. intros [= <-] [= <-] Hk.
      rewrite <- (dom_updatesOf trim st) in Hk. fold updates in Hk.
      by rewrite !lookup_spread_present.
    + intros Hnot. exfalso. apply Hnot. split_and!; [done| |done].
      by apply Hfilled.
Qed.
End AdminSave.

Lemma admin_save_outcome_witness :
  Admin.selectedPart Samples.filledAdmin = Some "A-100"
  /\ Firebase.holdsUndefined
       (default ∅ (Firebase.Parts (Firebase.database Samples.world) !! "A-100"))
     = false
  /\ exists st',
       (Admin.handleSavePartData Samples.trim Samples.filledAdmin
          Samples.world).1
       = Firebase.Fulfilled st'
       /\ Admin.isSaving st' = false.
Proof.
  assert (Firebase.holdsUndefined
            (default ∅ (Firebase.Parts (Firebase.database Samples.world) !! "A-100"))
          = false) as Hstored by reflexivity.
  split; [reflexivity|]. split; [exact Hstored|].
  destruct (admin_save_outcome Samples.trim Samples.filledAdmin
              "A-100" Samples.world eq_refl Hstored)
    as (st' & Hrun & Hsaving & _).
  exists st'. split; [exact Hrun|exact Hsaving].
Defined.

Section RejectedRequests.
Import Types Firebase.
Variable toLowerCase : string -> string.
Variable pushKey : World -> string.


End RejectedRequests.

(** ** Downloading a ticket of the application page *)

Section TicketDownload.
Import Application.
Variable parseFloat : string -> option Z.
Variable getTime : string -> Z.
Variables pageWidth pageHeight : Q.
Variable splitTextToSize : string -> Q -> list string.
Variable formatDate : Z -> string.
Variable formatCurrency : Z -> string.
Variable today : PDF.Language -> string.
Variable loadImage : string -> PDF.ImageLoad.
Variable toDataURL : string -> Q -> Q -> string.

(** The tickets of the page have passed the validation of the form. *)
Lemma run_complete (inputs : list (Form.t * string)) (st : PageState) :
  let complete a :=
    requestedBy a <> "" /\ department a <> "" /\ quantity a <> ""
    /\ specifications a <> "" /\ status a = Types.Pending in
  Forall complete (applications st) ->
  Forall complete (applications (run inputs st)).
Proof.
  intros complete. revert st.
  induction inputs as [|input inputs IH]; intros st Hst; [done|].
  cbn [run foldl]. apply IH. unfold submit.
  destruct (missingRequired (formData (setFormData input.1 st))) eqn:Hmissing.
  - by rewrite handleSubmit_rejected.
  - destruct (handleSubmit_accepted input.2 _ Hmissing) as (-> & _ & _).
    apply Forall_app. split; [done|]. apply Forall_singleton.
    apply missingRequired_false in Hmissing. unfold complete. cbn in *. tauto.
Qed.

(** The document downloaded for a ticket that the page has stored,
    after any sequence of submissions.  It is the Chinese export, saved
    under the ticket's id; the specifications of the ticket, which the
    validation made non-empty, are drawn both as the description of the
    part and as the technical specifications, and the justification block
    is always there, so the bold texts are the fixed headings, these two
    headings and the notes heading when the ticket has notes; there is no
    image.  The download leaves the tickets and the form as they are. *)
Theorem downloaded_ticket_document (inputs : list (Form.t * string))
    (application : PartApplication) (st : PageState)
    (Hstored : application ∈ applications (run inputs initialState)) :
  let result :=
    Download.downloadPDF parseFloat getTime pageWidth pageHeight splitTextToSize
      formatDate formatCurrency today loadImage toDataURL application st in
  let doc := result.2 in
  PDF.filename doc = ticketId application +:+ "_zh.pdf"
  /\ PDF.boldTexts (PDF.content doc)
     = PDF.fixedHeadings PDF.Zh
       ++ [[PDF.techSpecsTitle PDF.Zh]; [PDF.justificationTitle PDF.Zh]]
       ++ PDF.headingIf (notes application) (PDF.notesTitle PDF.Zh)
  /\ List.filter PDF.isImage (PDF.content doc) = []
  /\ Types.part_description (Download.pdfApplication parseFloat getTime application)
     = Types.technical_specs (Download.pdfApplication parseFloat getTime application)
  /\ applications result.1 = applications st
  /\ formData result.1 = formData st
  /\ isSubmitting result.1 = false
  /\ message result.1 = Some (Success, "PDF downloaded successfully").
Proof.
  intros result doc.
  assert (specifications application <> "") as Hspec.
  { pose proof (run_complete inputs initialState (Forall_nil_2 _)) as Hall.
    rewrite Forall_forall in Hall. by destruct (Hall _ Hstored) as (_ & _ & _ & ? & _). }
  apply truthy_true in Hspec.
  split_and!; try done.
  - subst doc result. cbn [snd Download.downloadPDF]. rewrite document_bold.
    cbn [Types.technical_specs Types.justification Types.application_notes
         Types.image_url Download.pdfApplication].
    unfold PDF.headingIf at 1 2. rewrite Hspec. cbn [JS.truthy].
    by rewrite app_nil_r.
  - subst doc result. cbn [snd Download.downloadPDF].
    rewrite generateApplicationPDF_content, footer_items, List.filter_app.
    unfold PDF.imageBlock. cbn [Types.image_url Download.pdfApplication].
    by rewrite textBlocks_no_image.
Qed.
End TicketDownload.

Lemma downloaded_ticket_document_witness :
  let stored :=
    Application.applications
      (Application.run [(Samples.aliceFormWithQuantity, "2026-01-01T00:00:00.000Z")]
         Application.initialState) in
  let application :=
    Application.newApplication Samples.aliceFormWithQuantity "Part01"
      "2026-01-01T00:00:00.000Z" in
  application ∈ stored
  /\ PDF.filename
       (Download.downloadPDF (fun _ => None) (fun _ => 1767225600000) 210 297
          (fun s _ => [s]) (fun _ => "Jan 1, 2026") (fun _ => "$0.00")
          (fun _ => "1/1/2026") (fun _ => PDF.LoadError) (fun _ _ _ => "")
          application Application.initialState).2
     = "Part01_zh.pdf".
Proof.
  assert (Application.newApplication Samples.aliceFormWithQuantity "Part01"
            "2026-01-01T00:00:00.000Z"
          ∈ Application.applications
              (Application.run
                 [(Samples.aliceFormWithQuantity, "2026-01-01T00:00:00.000Z")]
                 Application.initialState)) as Hstored.
  { apply list_elem_of_In. left. reflexivity. }
  split; [exact Hstored|].
  destruct (downloaded_ticket_document (fun _ => None) (fun _ => 1767225600000)
              210 297 (fun s _ => [s]) (fun _ => "Jan 1, 2026") (fun _ => "$0.00")
              (fun _ => "1/1/2026") (fun _ => PDF.LoadError) (fun _ _ _ => "")
              [(Samples.aliceFormWithQuantity, "2026-01-01T00:00:00.000Z")]
              (Application.newApplication Samples.aliceFormWithQuantity "Part01"
                 "2026-01-01T00:00:00.000Z")
              Application.initialState Hstored)
    as (Hname & _).
  exact Hname.
Defined.

(** ** Page breaks of the export *)

Section PageBreaks.
Import Types PDF PdfLayout.
Variables pageWidth pageHeight : Q.
Variable splitTextToSize : string -> Q -> list string.
Variable formatDate : Z -> string.
Variable formatCurrency : Z -> string.
Variable today : Language -> string.
Variable loadImage : string -> ImageLoad.
Variable toDataURL : string -> Q -> Q -> string.

Lemma last_plain (items extra : list Item) :
  extra <> [] ->
  Forall (fun item => item <> PageBreak) extra ->
  last (items ++ extra) <> Some PageBreak.
Proof.
  intros Hne Hextra. rewrite last_app.
  destruct (last extra) as [item|] eqn:Hitem.
  - intros [= ->]. rewrite Forall_forall in Hextra.
    by destruct (Hextra _ (last_Some_elem_of _ _ Hitem)).
  - by apply last_None in Hitem.
Qed.

Lemma breaks_app_plain (language : Language) (items extra : list Item) :
  breaksBeforeHeadings language items ->
  last items <> Some PageBreak ->
  Forall (fun item => item <> PageBreak) extra ->
  breaksBeforeHeadings language (items ++ extra)
  /\ last (items ++ extra) <> Some PageBreak.
Proof.
  intros Hitems Hlast Hextra. split.
  - intros i Hi. apply lookup_app_Some in Hi as [Hi|[_ Hi]].
    + destruct (Hitems i Hi) as (heading & Hnext & Hheading).
      exists heading. split; [|done]. by apply lookup_app_l_Some.
    + rewrite Forall_forall in Hextra.
      by destruct (Hextra _ (list_elem_of_lookup_2 _ _ _ Hi)).
  - rewrite last_app. destruct (last extra) as [item|] eqn:Hitem; [|done].
    intros [= ->]. rewrite Forall_forall in Hextra.
    by destruct (Hextra _ (last_Some_elem_of _ _ Hitem)).
Qed.

Lemma breaks_app_break (language : Language) (items rest : list Item)
    (heading : string) :
  breaksBeforeHeadings language items ->
  last items <> Some PageBreak ->
  heading ∈ [justificationTitle language; notesTitle language; imageTitle language] ->
  Forall (fun item => item <> PageBreak) rest ->
  breaksBeforeHeadings language
    (items ++ PageBreak :: Text Bold 12 [heading] margin margin AlignLeft :: rest)
  /\ last (items ++ PageBreak
             :: Text Bold 12 [heading] margin margin AlignLeft :: rest)
     <> Some PageBreak.
Proof.
  intros Hitems Hlast Hheading Hrest.
  split.
  - intros i Hi. apply lookup_app_Some in Hi as [Hi|[Hlen Hi]].
    + destruct (Hitems i Hi) as (h & Hnext & Hh).
      exists h. split; [|done]. by apply lookup_app_l_Some.
    + destruct (i - length items)%nat as [|[|k]] eqn:Hk.
      * exists heading. split; [|done].
        rewrite lookup_app_r by lia.
        by replace (S i - length items)%nat with 1%nat by lia.
      * discriminate Hi.
      * cbn in Hi. rewrite Forall_forall in Hrest.
        by destruct (Hrest _ (list_elem_of_lookup_2 _ _ _ Hi)).
  - change (items ++ PageBreak :: ?t :: rest)
      with (items ++ [PageBreak] ++ t :: rest).
    rewrite app_assoc. apply last_plain; [done|].
    apply Forall_cons. by split.
Qed.

Local Abbreviation section := (section pageWidth splitTextToSize).
Local Abbreviation breakIfBelow := (breakIfBelow pageHeight).
Local Abbreviation imageBlock := (imageBlock pageWidth pageHeight loadImage toDataURL).
Local Abbreviation fixedBlocks :=
  (fun language application =>
     requestInformation formatCurrency language application
       (partInformation pageWidth splitTextToSize language application
          (header pageWidth formatDate language application blank))).
Local Abbreviation generateApplicationPDF :=
  (generateApplicationPDF pageWidth pageHeight splitTextToSize formatDate
     formatCurrency today loadImage toDataURL).

Lemma section_items (heading body : string) (l : Layout) :
  items (section heading body l)
  = items l
    ++ [ Text Bold (fontSize l) [heading] margin (yPosition l) AlignLeft;
         Text Normal (fontSize l) (splitTextToSize body (contentWidth pageWidth))
           margin (yPosition l + 8) AlignLeft ].
Proof. cbn. by rewrite <- app_assoc. Qed.

Lemma plain_section_keeps (language : Language) (heading body : string)
    (l : Layout) :
  fontSize l = 12 /\ breaksBeforeHeadings language (items l)
  /\ last (items l) <> Some PageBreak ->
  fontSize (section heading body l) = 12
  /\ breaksBeforeHeadings language (items (section heading body l))
  /\ last (items (section heading body l)) <> Some PageBreak.
Proof.
  intros (Hsize & Hbreaks & Hlast). split; [done|]. rewrite section_items.
  apply breaks_app_plain; [done|done|].
  by repeat (apply Forall_cons; split; [discriminate|]).
Qed.

Lemma break_section_keeps (language : Language) (room : Q) (heading body : string)
    (l : Layout) :
  heading ∈ [justificationTitle language; notesTitle language; imageTitle language] ->
  fontSize l = 12 /\ breaksBeforeHeadings language (items l)
  /\ last (items l) <> Some PageBreak ->
  fontSize (section heading body (breakIfBelow room l)) = 12
  /\ breaksBeforeHeadings language (items (section heading body (breakIfBelow room l)))
  /\ last (items (section heading body (breakIfBelow room l))) <> Some PageBreak.
Proof.
  intros Hheading (Hsize & Hbreaks & Hlast). unfold PDF.breakIfBelow.
  destruct (Qgtb (yPosition l) (pageHeight - room)).
  - split; [done|]. rewrite section_items. cbn [addPage items fontSize yPosition].
    rewrite Hsize, <- app_assoc. cbn [app].
    apply breaks_app_break; [done|done|done|].
    by repeat (apply Forall_cons; split; [discriminate|]).
  - by apply plain_section_keeps.
Qed.

Lemma imageBlock_keeps (language : Language) (application : PartApplication)
    (l : Layout) :
  fontSize l = 12 /\ breaksBeforeHeadings language (items l)
  /\ last (items l) <> Some PageBreak ->
  breaksBeforeHeadings language (items (imageBlock language application l))
  /\ last (items (imageBlock language application l)) <> Some PageBreak.
Proof.
  intros (Hsize & Hbreaks & Hlast). unfold PDF.imageBlock.
  destruct (image_url application) as [url|]; [|done].
  destruct (JS.truthy url); [|done].
  assert (imageTitle language
          ∈ [justificationTitle language; notesTitle language; imageTitle language])
    as Htitle by (do 2 right; by left).
  unfold PDF.breakIfBelow.
  destruct (Qgtb (yPosition l) (pageHeight - 100)), (loadImage url) as [width height|].
  - edestruct (embed_items pageWidth toDataURL url width height)
      as (imgData & x & y & w & h & ->).
    cbn [addPage advance text setFont items fontSize fontStyle yPosition].
    rewrite Hsize, <- !app_assoc. cbn [app].
    apply breaks_app_break; [done|done|done|].
    by repeat (apply Forall_cons; split; [discriminate|]).
  - cbn [addPage advance text setFont items fontSize fontStyle yPosition].
    rewrite Hsize, <- !app_assoc. cbn [app].
    by apply breaks_app_break.
  - edestruct (embed_items pageWidth toDataURL url width height)
      as (imgData & x & y & w & h & ->).
    cbn [advance text setFont items fontSize fontStyle yPosition].
    rewrite <- !app_assoc. cbn [app].
    apply breaks_app_plain; [done|done|].
    by repeat (apply Forall_cons; split; [discriminate|]).
  - cbn [advance text setFont items fontSize fontStyle yPosition].
    apply breaks_app_plain; [done|done|].
    by repeat (apply Forall_cons; split; [discriminate|]).
Qed.

Lemma section_prefix (heading body : string) (l : Layout) :
  items l `prefix_of` items (section heading body l).
Proof. rewrite section_items. by eexists. Qed.

Lemma breakIfBelow_prefix (room : Q) (l : Layout) :
  items l `prefix_of` items (breakIfBelow room l).
Proof. rewrite (breakIfBelow_items pageHeight). by eexists. Qed.

Lemma imageBlock_prefix (language : Language) (application : PartApplication)
    (l : Layout) :
  items l `prefix_of` items (imageBlock language application l).
Proof.
  unfold PDF.imageBlock.
  destruct (image_url application) as [url|]; [|done].
  destruct (JS.truthy url); [|done].
  etrans; [apply (breakIfBelow_prefix 100)|].
  destruct (loadImage url) as [width height|].
  - edestruct (embed_items pageWidth toDataURL url width height)
      as (imgData & x & y & w & h & ->).
    cbn [advance text setFont items]. rewrite <- app_assoc. by eexists.
  - cbn [advance text setFont items]. by eexists.
Qed.

Lemma fixedBlocks_plain (language : Language) (application : PartApplication) :
  fontSize (fixedBlocks language application) = 12
  /\ Forall (fun item => item <> PageBreak) (items (fixedBlocks language application))
  /\ head (items (fixedBlocks language application))
     = Some (Text Bold 20 [title language] (pageWidth / 2) margin AlignCenter).
Proof.
  split; [reflexivity|]. split; [|reflexivity].
  assert (forallb (fun item => negb (isPageBreak item))
            (items (fixedBlocks language application)) = true) as Hall
    by (vm_compute; reflexivity).
  rewrite forallb_forall in Hall. apply Forall_forall. intros item Hitem.
  apply list_elem_of_In, Hall in Hitem. by intros ->.
Qed.

Lemma blocks_from (language : Language) (application : PartApplication)
    (l : Layout) :
  fontSize l = 12 ->
  Forall (fun item => item <> PageBreak) (items l) ->
  let tech := technicalSpecifications pageWidth splitTextToSize language application l in
  let text :=
    additionalNotes pageWidth pageHeight splitTextToSize language application
      (businessJustification pageWidth pageHeight splitTextToSize language
         application tech) in
  let all := items (footer pageWidth pageHeight today language
                      (imageBlock language application text)) in
  breaksBeforeHeadings language all
  /\ Forall (fun item => item <> PageBreak) (items tech)
  /\ items l `prefix_of` all
  /\ last all
     = Some (Text Normal 8 [footerText today language] (pageWidth / 2)
               (pageHeight - 15) AlignCenter).
Proof.
  intros Hsize Hplain tech text all.
  assert (Forall (fun item => item <> PageBreak) (items tech)) as Htech.
  { subst tech. unfold PDF.technicalSpecifications.
    destruct (JS.truthy (technical_specs application)); [|exact Hplain].
    rewrite section_items. apply Forall_app. split; [exact Hplain|].
    by repeat (apply Forall_cons; split; [discriminate|]). }
  assert (fontSize tech = 12) as Htechsize.
  { subst tech. unfold PDF.technicalSpecifications.
    destruct (JS.truthy (technical_specs application)); [|exact Hsize].
    rewrite section_fontSize. exact Hsize. }
  assert (items l `prefix_of` items tech) as Hprefix.
  { subst tech. unfold PDF.technicalSpecifications.
    destruct (JS.truthy (technical_specs application)); [|reflexivity].
    apply section_prefix. }
  clearbody tech. clear Hsize Hplain.
  assert (fontSize tech = 12 /\ breaksBeforeHeadings language (items tech)
          /\ last (items tech) <> Some PageBreak) as Hinv.
  { split; [exact Htechsize|]. rewrite Forall_forall in Htech. split.
    - intros i Hi. by destruct (Htech _ (list_elem_of_lookup_2 _ _ _ Hi)).
    - intros Hlast. by destruct (Htech _ (last_Some_elem_of _ _ Hlast)). }
  set (just := businessJustification pageWidth pageHeight splitTextToSize language
                 application tech) in *.
  assert ((fontSize just = 12 /\ breaksBeforeHeadings language (items just)
           /\ last (items just) <> Some PageBreak)
          /\ items tech `prefix_of` items just) as [Hjust Hjustprefix].
  { subst just. unfold PDF.businessJustification.
    destruct (JS.truthy (justification application)); [|split; [exact Hinv|reflexivity]].
    split; [apply break_section_keeps; [by left|exact Hinv]|].
    etrans; [apply (breakIfBelow_prefix 60)|apply section_prefix]. }
  clearbody just.
  assert ((fontSize text = 12 /\ breaksBeforeHeadings language (items text)
           /\ last (items text) <> Some PageBreak)
          /\ items just `prefix_of` items text) as [Htext Htextprefix].
  { subst text. unfold PDF.additionalNotes.
    destruct (JS.truthy (application_notes application));
      [|split; [exact Hjust|reflexivity]].
    split; [apply break_section_keeps; [right; by left|exact Hjust]|].
    etrans; [apply (breakIfBelow_prefix 40)|apply section_prefix]. }
  clearbody text.
  destruct (imageBlock_keeps language application text Htext) as [Hbreaks Hlast].
  pose proof (imageBlock_prefix language application text) as Himage.
  subst all. rewrite (footer_items pageWidth pageHeight today).
  split_and!.
  - apply breaks_app_plain; [exact Hbreaks|exact Hlast|].
    by repeat (apply Forall_cons; split; [discriminate|]).
  - exact Htech.
  - etrans; [exact Hprefix|]. etrans; [exact Hjustprefix|].
    etrans; [exact Htextprefix|]. etrans; [exact Himage|]. by eexists.
  - by rewrite last_snoc.
Qed.

(** The page breaks of the export.  A page break is only ever followed
    at once by the heading of the justification, the notes or the image
    block, drawn in bold 12 pt at the top margin of the new page.  The
    identification, the part and request information and the technical
    specifications are drawn without any page break, whatever their
    length.  Every document starts with the title, centred in bold 20 pt
    at the top margin, and ends with the footer, centred in 8 pt at 15 mm
    from the bottom of the page. *)
Theorem page_breaks_precede_headings (application : PartApplication)
    (language : Language) :
  let doc := generateApplicationPDF application language in
  breaksBeforeHeadings language (content doc)
  /\ Forall (fun item => item <> PageBreak)
       (items (technicalSpecifications pageWidth splitTextToSize language application
                 (fixedBlocks language application)))
  /\ head (content doc)
     = Some (Text Bold 20 [title language] (pageWidth / 2) margin AlignCenter)
  /\ last (content doc)
     = Some (Text Normal 8 [footerText today language] (pageWidth / 2)
               (pageHeight - 15) AlignCenter).
Proof.
  intros doc. subst doc.
  destruct (fixedBlocks_plain language application) as (Hsize & Hplain & Hhead).
  rewrite (generateApplicationPDF_content pageWidth pageHeight splitTextToSize
             formatDate formatCurrency today loadImage toDataURL).
  unfold PDF.textBlocks.
  destruct (blocks_from language application (fixedBlocks language application)
              Hsize Hplain) as (Hbreaks & Htech & [more Hprefix] & Hlast).
  split_and!; [exact Hbreaks|exact Htech| |exact Hlast].
  rewrite Hprefix.
  destruct (items (fixedBlocks language application)) as [|first rest];
    [discriminate Hhead|exact Hhead].
Qed.
End PageBreaks.

(** ** The search on the three list pages *)

Section SearchOnPages.
Import Types Firebase.
Variable toLowerCase : string -> string.
Variable localeCompare : string -> string -> Z.
Variable Number_of_string : string -> option Z.

Lemma includes_empty (t : string) : t <> "" -> JS.includes "" t = false.
Proof. by destruct t. Qed.

Lemma fieldIncludes_orEmpty (x : option string) (term : string) :
  toLowerCase "" = "" ->
  toLowerCase term <> "" ->
  Summary.fieldIncludes toLowerCase x term
  = JS.includes (toLowerCase (JS.orEmpty x)) (toLowerCase term).
Proof.
  intros Hempty Hterm. destruct x as [s|]; [done|]. cbn.
  by rewrite Hempty, includes_empty.
Qed.

(** A search term selects the same parts on the three list pages: a row
    of the summary page passes the search of that page exactly when its
    part matches the search of the service, which the catalogue page
    uses, and the search of the admin page.  So the rows of the summary
    page, every supplier and margin selected, are the rows of the parts
    that the search of the service matches. *)
Theorem search_same_on_all_pages (term : string) (store : Entries)
    (sortField : Summary.Field) (sortDirection : Summary.SortDirection)
    (Hempty : toLowerCase "" = "")
    (Hterm : toLowerCase term <> "") :
  (forall entry,
     Summary.matchesSearch toLowerCase term (Summary.toRow entry)
     = matchesSearch toLowerCase (toLowerCase term) entry
     /\ AdminList.matches toLowerCase term entry
        = matchesSearch toLowerCase (toLowerCase term) entry)
  /\ Summary.filteredAndSortedParts localeCompare toLowerCase Number_of_string
       (Summary.partsArray store) term "all" "all" sortField sortDirection
     ≡ₚ Summary.partsArray
          (List.filter (matchesSearch toLowerCase (toLowerCase term)) store).
Proof.
  assert (term <> "") as Hne by (intros ->; by rewrite Hempty in Hterm).
  assert (forall entry,
            Summary.matchesSearch toLowerCase term (Summary.toRow entry)
            = matchesSearch toLowerCase (toLowerCase term) entry) as Hsame.
  { intros entry. unfold Summary.matchesSearch, matchesSearch.
    rewrite (proj2 (truthy_true term) Hne). cbn [negb orb].
    rewrite (fieldIncludes_orEmpty (SPRAS_EN _)), (fieldIncludes_orEmpty (Supplier_Name _))
      by done.
    reflexivity. }
  split.
  - intros entry. split; [apply Hsame|reflexivity].
  - unfold Summary.filteredAndSortedParts, Summary.partsArray.
    rewrite sort_perm.
    assert (List.filter
              (fun part =>
                 Summary.matchesSearch toLowerCase term part
                 && Summary.matchesSupplier "all" part
                 && Summary.matchesMargin "all" part)
              (map Summary.toRow store)
            = map Summary.toRow
                (List.filter (matchesSearch toLowerCase (toLowerCase term)) store))
      as ->; [|done].
    induction store as [|entry store IH]; [done|].
    cbn [map List.filter]. rewrite (Hsame entry).
    unfold Summary.matchesSupplier at 1, Summary.matchesMargin at 1.
    cbn [bool_decide decide_rel orb andb]. rewrite andb_true_r.
    destruct (matchesSearch toLowerCase (toLowerCase term) entry); cbn [map andb];
      by rewrite IH.
Qed.
End SearchOnPages.

Lemma search_same_on_all_pages_witness :
  Samples.asciiLower "" = ""
  /\ Samples.asciiLower "BOLT" <> ""
  /\ Summary.filteredAndSortedParts Samples.codeUnitCompare Samples.asciiLower
       (fun _ => None) (Summary.partsArray Samples.catalogue) "BOLT" "all" "all"
       Summary.FMaterial Summary.Asc
     ≡ₚ Summary.partsArray
          [ ("A-100", Samples.priced "Bolt" 100 7);
            ("D-400", Samples.priced "Bolt" 250 0) ].
Proof.
  split; [reflexivity|]. split; [discriminate|].
  destruct (search_same_on_all_pages Samples.asciiLower Samples.codeUnitCompare
              (fun _ => None) "BOLT" Samples.catalogue Summary.FMaterial
              Summary.Asc eq_refl ltac:(discriminate))
    as (_ & Hrows).
  exact Hrows.
Defined.

(** ** Loading the parts *)

Section LoadingParts.
Import Types Firebase.
Variable toLowerCase : string -> string.
Variable localeCompare : string -> string -> Z.

Lemma slice_subseteq {A : Type} (start end_ : Z) (l : list A) (x : A) :
  x ∈ JS.slice start end_ l -> x ∈ l.
Proof.
  unfold JS.slice. intros Hx.
  eapply subseteq_drop, subseteq_take, Hx.
Qed.

(** The load effects of the catalogue and summary pages.  They are
    always fulfilled and write nothing.  When the request is rejected the
    page is left with no part at all: the parts loaded before are not
    kept, since the service answers a rejected request with the empty
    object.  When the request resolves, the catalogue holds the whole
    store for an empty search term and the first 10000 matching records
    otherwise, and the summary holds one row for each record of the
    store, with the key of the record as its [Material].  Whatever the
    filters, the sort and the page, every part shown on the catalogue is
    then a record of the store that passes the supplier and stock filters
    and, for a non-empty term, matches the search. *)
Theorem list_pages_load (debouncedSearchTerm : string) (allParts : Entries)
    (parts : list Part) (selectedSupplier : string) (sortBy : Catalogue.SortBy)
    (showInStockOnly : bool) (currentPage : Z) (w : World) :
  let store := material_summary_2025 (database w) in
  let catalogue := Loading.catalogueLoad toLowerCase debouncedSearchTerm allParts w in
  let summary := Loading.summaryLoad parts w in
  exists loaded rows,
    catalogue.1 = Fulfilled loaded
    /\ summary.1 = Fulfilled rows
    /\ database catalogue.2 = database w
    /\ database summary.2 = database w
    /\ ((settle w).1 = true -> loaded = [] /\ rows = [])
    /\ ((settle w).1 = false ->
        rows = Summary.partsArray store
        /\ (forall row, row ∈ rows -> exists entry,
              entry ∈ store /\ row = Summary.toRow entry
              /\ Material row = Some entry.1)
        /\ (debouncedSearchTerm = "" -> loaded = store)
        /\ (debouncedSearchTerm <> "" ->
            loaded
            = take (Z.to_nat 10000)
                (List.filter
                   (matchesSearch toLowerCase (toLowerCase debouncedSearchTerm))
                   store))
        /\ forall entry,
             entry ∈ Catalogue.paginatedParts
                       (Catalogue.filteredAndSortedParts localeCompare
                          selectedSupplier sortBy showInStockOnly loaded)
                       currentPage ->
             entry ∈ store
             /\ Catalogue.passes selectedSupplier showInStockOnly entry = true
             /\ (debouncedSearchTerm <> "" ->
                 matchesSearch toLowerCase (toLowerCase debouncedSearchTerm) entry
                 = true)).
Proof.
  intros store catalogue summary.
  assert (catalogue
          = (Fulfilled
               (if (settle w).1 then []
                else if JS.truthy debouncedSearchTerm
                     then take (Z.to_nat 10000)
                            (List.filter
                               (matchesSearch toLowerCase
                                  (toLowerCase debouncedSearchTerm)) store)
                     else store),
             (settle w).2)) as ->.
  { subst catalogue. unfold Loading.catalogueLoad, tryCatch, bind, ret.
    destruct (JS.truthy debouncedSearchTerm) eqn:Hterm.
    - rewrite searchParts_run, Hterm. cbn zeta.
      destruct (settle w).1; [|done]. cbn [List.filter]. by rewrite take_nil.
    - rewrite getAllParts_run. by destruct (settle w).1. }
  assert (summary
          = (Fulfilled (if (settle w).1 then [] else Summary.partsArray store),
             (settle w).2)) as ->.
  { subst summary. unfold Loading.summaryLoad, tryCatch, bind, ret.
    rewrite getAllParts_run. by destruct (settle w).1. }
  cbn [fst snd]. do 2 eexists. split; [reflexivity|]. split; [reflexivity|].
  rewrite settle_database. split; [done|]. split; [done|].
  destruct (settle w).1; [split; [done|intros [=]]|].
  split; [intros [=]|]. intros _. split_and!; [done| | | |].
  - intros row (entry & -> & Hentry)%list_elem_of_fmap. by exists entry.
  - by intros ->%truthy_false.
  - by intros ->%truthy_true.
  - intros entry Hshown%slice_subseteq.
    unfold Catalogue.filteredAndSortedParts in Hshown.
    rewrite sort_perm in Hshown.
    apply elem_of_filter_bool in Hshown as [Hloaded Hpasses].
    destruct (JS.truthy debouncedSearchTerm) eqn:Hterm.
    + apply subseteq_take, elem_of_filter_bool in Hloaded as [Hstore Hmatch].
      by split_and!.
    + split_and!; [done|done|]. intros Hne%truthy_true. congruence.
Qed.
End LoadingParts.

(** ** The list of tickets of the application page *)

Section TicketList.
Import Application.

Lemma submit_applications (st : PageState) (input : Form.t * string) :
  applications (submit st input)
  = applications st
    ++ (if missingRequired input.1 then []
        else [newApplication input.1 (generateTicketId (applications st)) input.2]).
Proof.
  unfold submit.
  destruct (missingRequired input.1) eqn:Hmissing.
  - rewrite handleSubmit_rejected by done. cbn. by rewrite app_nil_r.
  - by destruct (handleSubmit_accepted input.2 (setFormData input.1 st) Hmissing)
      as (-> & _ & _).
Qed.

(** The tickets of the page only grow.  After any sequence of
    submissions every ticket stored before is still there, at its place
    and unchanged, and the list has grown by one ticket for each
    submission that passed the validation.  Submitting twice in a row
    without filling the form again never stores a second ticket: an
    accepted submission resets the form, which the validation then
    rejects. *)
Theorem tickets_only_grow (inputs : list (Form.t * string)) (st : PageState)
    (now now' : string) :
  applications st `prefix_of` applications (run inputs st)
  /\ (forall i a,
        applications st !! i = Some a -> applications (run inputs st) !! i = Some a)
  /\ length (applications (run inputs st))
     = (length (applications st)
        + length (List.filter (fun input => negb (missingRequired input.1)) inputs))%nat
  /\ applications (handleSubmit now' (handleSubmit now st))
     = applications (handleSubmit now st)
  /\ (missingRequired (formData st) = false ->
      formData (handleSubmit now st) = Form.empty
      /\ message (handleSubmit now' (handleSubmit now st))
         = Some (Error, "Please fill in all required fields")).
Proof.
  assert (applications st `prefix_of` applications (run inputs st)
          /\ length (applications (run inputs st))
             = (length (applications st)
                + length (List.filter (fun input => negb (missingRequired input.1))
                            inputs))%nat) as [Hprefix Hlength].
  { revert st. induction inputs as [|input inputs IH]; intros st.
    - cbn. split; [done|lia].
    - change (run (input :: inputs) st) with (run inputs (submit st input)).
      cbn [List.filter]. destruct (IH (submit st input)) as [Hprefix Hlen].
      rewrite submit_applications in Hprefix, Hlen. split.
      + etrans; [|exact Hprefix]. by eexists.
      + rewrite Hlen, length_app.
        destruct (missingRequired input.1); cbn; lia. }
  split_and!; [exact Hprefix| |exact Hlength| |].
  - intros i a Hi. destruct Hprefix as [more ->]. by apply lookup_app_l_Some.
  - destruct (missingRequired (formData st)) eqn:Hmissing.
    + rewrite (handleSubmit_rejected now st Hmissing).
      by rewrite handleSubmit_rejected.
    + destruct (handleSubmit_accepted now st Hmissing) as (_ & _ & Hform).
      rewrite (handleSubmit_rejected now' (handleSubmit now st));
        [done|by rewrite Hform].
  - intros Hmissing.
    destruct (handleSubmit_accepted now st Hmissing) as (_ & _ & Hform).
    split; [exact Hform|].
    rewrite (handleSubmit_rejected now' (handleSubmit now st));
      [done|by rewrite Hform].
Qed.
End TicketList.
